(** * oxy: weighted round-robin balancer and forwarder

    A shallow embedding of the Go packages [roundrobin] and [forward].

    Conventions of the embedding.
    - Go's [int] is a 64-bit two's complement integer: values are in [Z]
      and every addition and subtraction of the source goes through [wrap].
      Go's [%] truncates towards zero, as [Z.rem] does.
    - A [*server] is an address into [heap], the objects that
      [UpsertServer] has stored; the rotation and the group map hold
      addresses, so both see a later change of the object.
    - A function running the unbounded [for] loop of [NextServer] takes a
      number of iterations it may use and answers [OutOfFuel] beyond it.
    - The mutex is not represented: every operation is one atomic step. *)

From Stdlib Require Import ZArith Lia Ascii.
From stdpp Require Import gmap strings list pretty.

Local Open Scope Z_scope.

(** ** Results of running Go code *)

Inductive outcome (A : Type) : Type :=
| Done (a : A)
| Panic (msg : string)
| Fatal (msg : string)
| OutOfFuel.
Arguments Done {A} a.
Arguments Panic {A} msg.
Arguments Fatal {A} msg.
Arguments OutOfFuel {A}.

Definition error := string.

Definition nil_dereference : string := "invalid memory address or nil pointer dereference".
Definition index_out_of_range : string := "index out of range".

(** ** Machine integers *)

Definition minInt : Z := - 2 ^ 63.
Definition maxInt : Z := 2 ^ 63 - 1.

Definition wrap (z : Z) : Z := (z + 2 ^ 63) mod 2 ^ 64 - 2 ^ 63.

Definition is_int (z : Z) : Prop := minInt <= z <= maxInt.

(** ** net/url *)

Record URL := mkURL {
  Scheme : string;
  Opaque : string;
  User : string;
  Host : string;
  Path : string;
  RawPath : string;
  RawQuery : string;
  Fragment : string
}.

(** [utils.CopyURL] returns a fresh copy of the structure; on values it is
    the identity. *)
Definition CopyURL (u : URL) : URL := u.

(** ** Go code that changes a state

    A computation on a state [S]: how it ends, and the state it leaves.
    A panic keeps the state reached. *)
Definition Go (S A : Type) : Type := S -> outcome A * S.

#[export] Instance Go_ret {S} : MRet (Go S) := fun A a w => (Done a, w).

#[export] Instance Go_bind {S} : MBind (Go S) := fun A B f m w =>
  match m w with
  | (Done a, w') => f a w'
  | (Panic msg, w') => (Panic msg, w')
  | (Fatal msg, w') => (Fatal msg, w')
  | (OutOfFuel, w') => (OutOfFuel, w')
  end.

Definition panic {S A} (msg : string) : Go S A := fun w => (Panic msg, w).

(** [defer cleanup] before [body]: the deferred call runs when [body]
    returns and when it panics; [log.Fatalf] exits without it. *)
Definition defer {S A} (cleanup : Go S unit) (body : Go S A) : Go S A := fun w =>
  match body w with
  | (Done a, w') =>
      match cleanup w' with
      | (Done _, w'') => (Done a, w'')
      | (Panic msg, w'') => (Panic msg, w'')
      | (Fatal msg, w'') => (Fatal msg, w'')
      | (OutOfFuel, w'') => (OutOfFuel, w'')
      end
  | (Panic msg, w') =>
      match cleanup w' with
      | (Done _, w'') => (Panic msg, w'')
      | (Panic msg', w'') => (Panic msg', w'')
      | (Fatal msg', w'') => (Fatal msg', w'')
      | (OutOfFuel, w'') => (OutOfFuel, w'')
      end
  | r => r
  end.

(** ** net/http *)

(** [http.Header] is [map[string][]string]. *)
Definition Header := gmap string (list string).

(** [h.Get(key)] for a key in canonical form, as every key used below is:
    the first value stored under the key, or the empty string. *)
Definition Header_Get (h : Header) (key : string) : string :=
  match h !! key with
  | Some (v :: _) => v
  | _ => ""
  end.

Record Cookie := mkCookie { Name : string; Value : string }.

(** The request-scoped value stored under ["upstream-ctx"], when it is an
    [UpstreamContext]: an integer status and a string map, which may be nil. *)
Record upstreamContext := mkUpstreamContext {
  uc_status : Z;
  values : option (gmap string string)
}.

Record Request := mkRequest {
  req_URL : URL;
  req_Host : string;
  req_Header : Header;
  req_Cookies : list Cookie;
  req_ContentLength : Z;
  Proto : string;
  Close : bool;
  upstream_ctx : option upstreamContext
}.

Record Response := mkResponse {
  StatusCode : Z;
  resp_Header : Header;
  (** the bytes the body yields, and the error that ends it, if any *)
  Body : list Byte.byte;
  BodyErr : option error
}.

(** [req.Cookie(name)]: the first cookie of that name; [None] is
    [http.ErrNoCookie], the only error the function returns. *)
Definition Request_Cookie (req : Request) (name : string) : option Cookie :=
  List.find (fun c => String.eqb (Name c) name) (req_Cookies req).

(** ** strings *)

Module GoStrings.

(** [strings.Split(s, sep)] for a separator of one byte. *)
Fixpoint Split (sep : ascii) (s : string) : list string :=
  match s with
  | EmptyString => [EmptyString]
  | String a s' =>
      if Ascii.eqb a sep then EmptyString :: Split sep s'
      else match Split sep s' with
           | item :: items => String a item :: items
           | [] => [String a EmptyString]
           end
  end.
Arguments Split sep%_char s.

Fixpoint HasSuffix (s suffix : string) : bool :=
  String.eqb s suffix ||
  match s with
  | EmptyString => false
  | String _ s' => HasSuffix s' suffix
  end.

Definition HasPrefix (s prefix_ : string) : bool := String.prefix prefix_ s.

Fixpoint Contains (s substr : string) : bool :=
  String.prefix substr s ||
  match s with
  | EmptyString => false
  | String _ s' => Contains s' substr
  end.

(** The byte [c] occurs in [s]. *)
Fixpoint has_byte (c : ascii) (s : string) : bool :=
  match s with
  | EmptyString => false
  | String a s' => Ascii.eqb a c || has_byte c s'
  end.

(** [strings.Join(elems, sep)] *)
Fixpoint Join (elems : list string) (sep : string) : string :=
  match elems with
  | [] => EmptyString
  | [e] => e
  | e :: rest => e +:+ sep +:+ Join rest sep
  end.

(** [strings.TrimSpace] and [strings.ToLower] on strings of ASCII bytes
    (on other bytes the library decodes UTF-8 and follows the Unicode
    tables; the functions of the packages below take the library's two
    functions as parameters, and these are their instances for the
    examples). *)
Definition isSpaceASCII (c : ascii) : bool :=
  let n := nat_of_ascii c in
  ((9 <=? n) && (n <=? 13) || (n =? 32))%nat.

Fixpoint trimLeftASCII (s : string) : string :=
  match s with
  | EmptyString => EmptyString
  | String c s' => if isSpaceASCII c then trimLeftASCII s' else s
  end.

Fixpoint trimRightASCII (s : string) : string :=
  match s with
  | EmptyString => EmptyString
  | String c s' =>
      match trimRightASCII s' with
      | EmptyString => if isSpaceASCII c then EmptyString else String c EmptyString
      | t => String c t
      end
  end.

Definition TrimSpaceASCII (s : string) : string := trimRightASCII (trimLeftASCII s).

Definition toLowerASCII (c : ascii) : ascii :=
  let n := nat_of_ascii c in
  if ((65 <=? n) && (n <=? 90))%nat then ascii_of_nat (n + 32) else c.

Fixpoint ToLowerASCII (s : string) : string :=
  match s with
  | EmptyString => EmptyString
  | String c s' => String (toLowerASCII c) (ToLowerASCII s')
  end.

End GoStrings.

(** ** path *)

(** [path.Clean] and [path.Join] of the Go library, from the rules of their
    documentation: the path is cut at its slashes; empty elements and [.]
    are dropped; [..] removes the element before it, is dropped at the root
    of a rooted path and kept at the head of a relative one; the result
    ends in a slash only if it is the root, and the empty result is [.]. *)
Module GoPath.
Import GoStrings.

Definition dotdot : string := "..".

(** [out] holds the elements kept so far, the last one first. *)
Definition cleanStep (rooted : bool) (out : list string) (elem : string) : list string :=
  if String.eqb elem "" || String.eqb elem "." then out
  else if String.eqb elem dotdot then
    match out with
    | last :: out' =>
        if String.eqb last dotdot then (if rooted then out else dotdot :: out)
        else out'
    | [] => if rooted then out else [dotdot]
    end
  else elem :: out.

Definition Clean (path : string) : string :=
  if String.eqb path "" then "."
  else
    let rooted := HasPrefix path "/" in
    let out := GoStrings.Join (rev (fold_left (cleanStep rooted) (Split "/" path) [])) "/" in
    if rooted then "/" +:+ out
    else if String.eqb out "" then "." else out.

Definition Join (elem : list string) : string :=
  let buf := fold_left (fun buf e =>
                 if negb (String.eqb buf "") || negb (String.eqb e "")
                 then (if negb (String.eqb buf "") then buf +:+ "/" else buf) +:+ e
                 else buf) elem EmptyString in
  if (fold_left (fun size e => size + String.length e)%nat elem 0%nat =? 0)%nat
  then EmptyString else Clean buf.

(** The shape of a cleaned path: names between single slashes, none of
    them empty, [.] or [..], after as many [..] as a relative path has kept
    at its head. *)
Definition is_name (e : string) : Prop :=
  e <> "" /\ e <> "." /\ e <> dotdot /\ has_byte "/" e = false.

Definition normal_elems (rooted : bool) (elems : list string) : Prop :=
  exists n names, elems = replicate n dotdot ++ names /\ Forall is_name names /\
                  (rooted = true -> n = 0%nat).

(** The elements kept by [Clean], the last one first: names over the [..]
    that a relative path starts with. *)
Definition kept (rooted : bool) (out : list string) : Prop :=
  exists n names, out = names ++ replicate n dotdot /\ Forall is_name names /\
                  (rooted = true -> n = 0%nat).

Definition render (rooted : bool) (elems : list string) : string :=
  if rooted then "/" +:+ GoStrings.Join elems "/"
  else match elems with
       | [] => "."
       | _ => GoStrings.Join elems "/"
       end.

End GoPath.

Module roundrobin.

Record routing := mkRouting {
  stickyRoutingOnly : bool;
  status : string;
  groupID : N;
  hmacKeys : list (list Byte.byte)
}.

Record server := mkServer {
  url : URL;
  weight : Z;
  pathRewrite : bool;
  routing_ : option routing
}.

Definition defaultWeight : Z := 1.

Definition ptr := nat.

Record StickySession := mkStickySession { cookiename : string }.

Record RoundRobin := mkRoundRobin {
  heap : list server;
  index : Z;
  servers : list ptr;
  currentWeight : Z;
  ss : option StickySession;
  stickyServers : gmap N ptr
}.

(** The zero value of [server], also what an address outside the heap reads
    as (no such address exists in a state built by the operations below,
    see [wf]). *)
Definition zero_server (u : URL) : server :=
  {| url := u; weight := 0; pathRewrite := false; routing_ := None |}.

Definition no_URL : URL := mkURL "" "" "" "" "" "" "" "".

Definition deref (rr : RoundRobin) (p : ptr) : server :=
  nth p (heap rr) (zero_server no_URL).

Definition with_heap (h : list server) (rr : RoundRobin) : RoundRobin :=
  {| heap := h; index := index rr; servers := servers rr;
     currentWeight := currentWeight rr; ss := ss rr;
     stickyServers := stickyServers rr |}.

Definition with_servers (l : list ptr) (rr : RoundRobin) : RoundRobin :=
  {| heap := heap rr; index := index rr; servers := l;
     currentWeight := currentWeight rr; ss := ss rr;
     stickyServers := stickyServers rr |}.

Definition with_index (i : Z) (rr : RoundRobin) : RoundRobin :=
  {| heap := heap rr; index := i; servers := servers rr;
     currentWeight := currentWeight rr; ss := ss rr;
     stickyServers := stickyServers rr |}.

Definition with_currentWeight (c : Z) (rr : RoundRobin) : RoundRobin :=
  {| heap := heap rr; index := index rr; servers := servers rr;
     currentWeight := c; ss := ss rr;
     stickyServers := stickyServers rr |}.

Definition with_stickyServers (m : gmap N ptr) (rr : RoundRobin) : RoundRobin :=
  {| heap := heap rr; index := index rr; servers := servers rr;
     currentWeight := currentWeight rr; ss := ss rr;
     stickyServers := m |}.

(** *** Server options *)

(** The package builds a [ServerOption] (a closure over [*server]) in three
    places only, and [server] has no exported field: an option is one of
    these three, and [callOption] is the call [o(s)].  The call changes the
    server in place and may fail: the pair is the server as the call leaves
    it, and the error. *)
Inductive ServerOption : Type :=
| Weight (w : Z)
| PathRewrite (r : bool)
| EnableJSID (status : string) (groupID : N) (hmacKeys : list (list Byte.byte))
             (stickyRoutingOnly : bool).

Definition ErrNegativeWeight : error := "Weight should be >= 0".

Definition callOption (o : ServerOption) (s : server) : server * option error :=
  match o with
  | Weight w =>
      if w <? 0 then (s, Some ErrNegativeWeight)
      else ({| url := url s; weight := w; pathRewrite := pathRewrite s;
               routing_ := routing_ s |}, None)
  | PathRewrite r =>
      ({| url := url s; weight := weight s; pathRewrite := r;
          routing_ := routing_ s |}, None)
  | EnableJSID status groupID hmacKeys stickyRoutingOnly =>
      ({| url := url s; weight := weight s; pathRewrite := pathRewrite s;
          routing_ := Some (mkRouting stickyRoutingOnly status groupID hmacKeys) |},
       None)
  end.

(** [for _, o := range options { if err := o(s); err != nil { return err } }]:
    the options before a failing one have already changed [s]. *)
Fixpoint applyOptions (options : list ServerOption) (s : server)
    : server * option error :=
  match options with
  | [] => (s, None)
  | o :: rest =>
      match callOption o s with
      | (s', Some err) => (s', Some err)
      | (s', None) => applyOptions rest s'
      end
  end.

(** *** The pool *)

Definition New (ss : option StickySession) : RoundRobin :=
  {| heap := []; index := -1; servers := []; currentWeight := 0;
     ss := ss; stickyServers := ∅ |}.

Definition sameURL (a b : URL) : bool :=
  String.eqb (Path a) (Path b) && String.eqb (Host a) (Host b)
  && String.eqb (Scheme a) (Scheme b).

Fixpoint findFrom (rr : RoundRobin) (u : URL) (i : Z) (l : list ptr)
    : option ptr * Z :=
  match l with
  | [] => (None, -1)
  | s :: rest =>
      if sameURL u (url (deref rr s)) then (Some s, i)
      else findFrom rr u (i + 1) rest
  end.

(** [u] is a non-nil [*url.URL]. *)
Definition findServerByURL (rr : RoundRobin) (u : URL) : option ptr * Z :=
  findFrom rr u 0 (servers rr).

Definition resetIterator (rr : RoundRobin) : RoundRobin :=
  with_currentWeight 0 (with_index (-1) rr).

Definition resetState (rr : RoundRobin) : RoundRobin := resetIterator rr.

Definition maxWeight (rr : RoundRobin) : Z :=
  fold_left (fun max s => if max <? weight (deref rr s)
                          then weight (deref rr s) else max)
            (servers rr) (-1).

Fixpoint gcd_loop (fuel : nat) (a b : Z) : Z :=
  match fuel with
  | O => a
  | S fuel' => if b =? 0 then a else gcd_loop fuel' b (Z.rem a b)
  end.

(** [for b != 0 { a, b = b, a%b }]: [|b|] decreases at every turn, so
    [|b| + 1] turns are enough (lemma [gcd_unfold]). *)
Definition gcd (a b : Z) : Z := gcd_loop (S (Z.abs_nat b)) a b.

Definition weightGcd (rr : RoundRobin) : Z :=
  fold_left (fun divisor s => if divisor =? -1 then weight (deref rr s)
                              else gcd divisor (weight (deref rr s)))
            (servers rr) (-1).

Definition ErrNoServers : error := "no servers in the pool".
Definition ErrZeroWeight : error := "all servers have 0 weight".

(** The body of the [for] loop of [NextServer], [fuel] times at most. *)
Fixpoint nextLoop (fuel : nat) (gcd max : Z) (rr : RoundRobin)
    : outcome (RoundRobin * (option ptr * option error)) :=
  match fuel with
  | O => OutOfFuel
  | S fuel' =>
      let rr := with_index
                  (Z.rem (wrap (index rr + 1)) (Z.of_nat (length (servers rr)))) rr in
      let step (rr : RoundRobin) :=
        if index rr <? 0 then Panic index_out_of_range
        else match servers rr !! Z.to_nat (index rr) with
             | None => Panic index_out_of_range
             | Some srv =>
                 if currentWeight rr <=? weight (deref rr srv)
                 then Done (rr, (Some srv, None))
                 else nextLoop fuel' gcd max rr
             end in
      if index rr =? 0 then
        let rr := with_currentWeight (wrap (currentWeight rr - gcd)) rr in
        if currentWeight rr <=? 0 then
          let rr := with_currentWeight max rr in
          if currentWeight rr =? 0 then Done (rr, (None, Some ErrZeroWeight))
          else step rr
        else step rr
      else step rr
  end.

Definition NextServer (fuel : nat) (rr : RoundRobin)
    : outcome (RoundRobin * (option ptr * option error)) :=
  if (length (servers rr) =? 0)%nat then Done (rr, (None, Some ErrNoServers))
  else nextLoop fuel (weightGcd rr) (maxWeight rr) rr.

Definition ErrNotFound : error := "server not found".

Definition RemoveServer (u : URL) (rr : RoundRobin) : RoundRobin * option error :=
  match findServerByURL rr u with
  | (None, _) => (rr, Some ErrNotFound)
  | (Some e, index) =>
      let rr := with_servers (take (Z.to_nat index) (servers rr)
                              ++ drop (Z.to_nat (index + 1)) (servers rr)) rr in
      let rr := match routing_ (deref rr e) with
                | Some r => with_stickyServers (delete (groupID r) (stickyServers rr)) rr
                | None => rr
                end in
      (resetState rr, None)
  end.

Definition Servers (rr : RoundRobin) : list ptr := servers rr.

Definition ServerWeight (u : URL) (rr : RoundRobin) : Z * bool :=
  match findServerByURL rr u with
  | (Some s, _) => (weight (deref rr s), true)
  | (None, _) => (-1, false)
  end.

Definition ErrNilURL : error := "server URL can't be nil".

(** [*s = v] for the object at address [s]. *)
Definition store (s : ptr) (v : server) (rr : RoundRobin) : RoundRobin :=
  with_heap (<[s := v]> (heap rr)) rr.

(** The address the next stored object gets. *)
Definition alloc (v : server) (rr : RoundRobin) : ptr * RoundRobin :=
  (length (heap rr), with_heap (heap rr ++ [v]) rr).

Definition UpsertServer (u : option URL) (options : list ServerOption)
    (rr : RoundRobin) : RoundRobin * option error :=
  match u with
  | None => (rr, Some ErrNilURL)
  | Some u =>
      match findServerByURL rr u with
      | (Some s, _) =>
          match applyOptions options (deref rr s) with
          | (v, Some err) => (store s v rr, Some err)
          | (v, None) => (resetState (store s v rr), None)
          end
      | (None, _) =>
          match applyOptions options (zero_server (CopyURL u)) with
          | (_, Some err) => (rr, Some err)
          | (srv, None) =>
              let srv := if weight srv =? 0
                         then {| url := url srv; weight := defaultWeight;
                                 pathRewrite := pathRewrite srv;
                                 routing_ := routing_ srv |}
                         else srv in
              let (p, rr) := alloc srv rr in
              match routing_ srv with
              | Some r =>
                  let rr := with_stickyServers (<[groupID r := p]> (stickyServers rr)) rr in
                  if String.eqb (status r) "FULL" || negb (stickyRoutingOnly r)
                  then (resetState (with_servers (servers rr ++ [p]) rr), None)
                  else (rr, None)
              | None => (resetState (with_servers (servers rr ++ [p]) rr), None)
              end
          end
      end
  end.

(** *** Notions the statements below use *)

(** [n] consecutive calls of [NextServer], each with [fuel] turns at most. *)
Fixpoint NextServers (fuel : nat) (n : nat) (rr : RoundRobin)
    : outcome (RoundRobin * list (option ptr * option error)) :=
  match n with
  | O => Done (rr, [])
  | S n' =>
      match NextServer fuel rr with
      | Done (rr', r) =>
          match NextServers fuel n' rr' with
          | Done (rr'', rs) => Done (rr'', r :: rs)
          | Panic msg => Panic msg
          | Fatal msg => Fatal msg
          | OutOfFuel => OutOfFuel
          end
      | Panic msg => Panic msg
      | Fatal msg => Fatal msg
      | OutOfFuel => OutOfFuel
      end
  end.

(** Every address the balancer holds is the address of a stored object. *)
Definition wf (rr : RoundRobin) : Prop :=
  Forall (fun p => (p < length (heap rr))%nat) (servers rr) /\
  map_Forall (fun _ p => (p < length (heap rr))%nat) (stickyServers rr).

(** The weights of the rotation are the non-negative [int]s that [Weight]
    accepts. *)
Definition nonneg_weights (rr : RoundRobin) : Prop :=
  Forall (fun s => 0 <= weight (deref rr s) <= maxInt) (servers rr).

Definition some_positive_weight (rr : RoundRobin) : Prop :=
  Exists (fun s => 0 < weight (deref rr s)) (servers rr).

(** Turns of the loop that are always enough when [NextServer] returns. *)
Definition fuel_bound (rr : RoundRobin) : nat :=
  Z.to_nat (Z.of_nat (length (servers rr)) * (currentWeight rr + 1) + 1).

(** The number of Backends of the rotation that have the URL [u]. *)
Definition count_URL (u : URL) (rr : RoundRobin) : nat :=
  length (List.filter (fun p => sameURL u (url (deref rr p))) (servers rr)).

(** The rotation holds one Backend for a URL at most. *)
Definition unique_URLs (rr : RoundRobin) : Prop :=
  forall u, (count_URL u rr <= 1)%nat.

Definition weightOf (h : list server) (s : ptr) : Z :=
  weight (nth s h (zero_server no_URL)).

(** A state of the loop of [NextServer] over the heap [h] and the rotation
    [l], and a result that is a Backend of [l]. *)
Definition loop_state (h : list server) (l : list ptr) (rr : RoundRobin) : Prop :=
  heap rr = h /\ servers rr = l /\ -1 <= index rr < Z.of_nat (length l).

Definition picks (h : list server) (l : list ptr)
    (x : RoundRobin * (option ptr * option error)) : Prop :=
  exists p, snd x = (Some p, None) /\ p ∈ l /\ loop_state h l (fst x).

(** Turns from index [i] to the position [k], going round. *)
Definition turns_to (l : list ptr) (k : nat) (i : Z) : Z :=
  if i <? Z.of_nat k then Z.of_nat k - i - 1
  else Z.of_nat (length l) - 1 - i + Z.of_nat k.

(** *** Pools and requests of the examples *)

Definition backend (host : string) : URL := mkURL "http" "" "" host "/" "" "" "".

Definition A : URL := backend "a".
Definition B : URL := backend "b".
Definition C : URL := backend "c".

(** A, B, C upserted in that order with weights 1, 2, 3. *)
Definition pool123 : RoundRobin :=
  let rr := New None in
  let rr := fst (UpsertServer (Some A) [Weight 1] rr) in
  let rr := fst (UpsertServer (Some B) [Weight 2] rr) in
  fst (UpsertServer (Some C) [Weight 3] rr).

(** A and B registered, then both set to weight 0. *)
Definition pool00 : RoundRobin :=
  let rr := New None in
  let rr := fst (UpsertServer (Some A) [] rr) in
  let rr := fst (UpsertServer (Some B) [] rr) in
  let rr := fst (UpsertServer (Some A) [Weight 0] rr) in
  fst (UpsertServer (Some B) [Weight 0] rr).

(** [pool00] after a first call of [NextServer]. *)
Definition pool00_called : RoundRobin :=
  match NextServer 1 pool00 with
  | Done (rr, _) => rr
  | _ => pool00
  end.

(** A alone, selected once. *)
Definition poolA_called : RoundRobin :=
  match NextServer 1 (fst (UpsertServer (Some A) [] (New None))) with
  | Done (rr, _) => rr
  | _ => New None
  end.

(** Then an upsert of A that sets its weight to 0 and fails on its second
    option. *)
Definition pool_stuck : RoundRobin :=
  fst (UpsertServer (Some A) [Weight 0; Weight (-1)] poolA_called).

Definition group_only_B : list ServerOption := [EnableJSID "OPEN" 7 [] true].

(** *** The handler *)

(** What [ServeHTTP] does to the response writer and to the next handler. *)
Inductive event : Type :=
| ErrHandlerServe (err : error)        (* r.errHandler.ServeHTTP(w, req, err) *)
| HttpError (body : string) (code : Z) (* http.Error(w, body, code) *)
| SetCookie (c : Cookie)               (* http.SetCookie(w, c) *)
| NextServe (u : URL).                 (* r.next.ServeHTTP(w, &newReq), newReq.URL = u *)

(** The state the handler runs in: the balancer, the request's upstream
    context ([None]: the nil interface [uc] is left with) and the events so
    far, latest last. *)
Record world := mkWorld {
  pool : RoundRobin;
  uc : option upstreamContext;
  written : list event
}.

Definition getPool : Go world RoundRobin := fun w => (Done (pool w), w).

Definition emit (e : event) : Go world unit := fun w =>
  (Done tt, {| pool := pool w; uc := uc w; written := written w ++ [e] |}).

(** [func (uc *upstreamContext) Set(k, v)] *)
Definition upstreamContext_Set (k v : string) (c : upstreamContext) : upstreamContext :=
  match values c with
  | Some m => {| uc_status := uc_status c; values := Some (<[k := v]> m) |}
  | None => c
  end.

(** [func (uc *upstreamContext) Get(k)]: a missing key reads as the empty
    string, as every key of a nil map does. *)
Definition upstreamContext_Get (k : string) (c : upstreamContext) : string :=
  match values c with
  | Some m => default "" (m !! k)
  | None => ""
  end.

Definition NewUpstreamContext : upstreamContext :=
  {| uc_status := 0; values := Some ∅ |}.

(** [uc.Set(k, v)] on the interface variable [uc]. *)
Definition ucSet (k v : string) : Go world unit := fun w =>
  match uc w with
  | None => (Panic nil_dereference, w)
  | Some c => (Done tt, {| pool := pool w; uc := Some (upstreamContext_Set k v c);
                           written := written w |})
  end.

Definition nextServer (fuel : nat) : Go world (option ptr * option error) := fun w =>
  match NextServer fuel (pool w) with
  | Done (rr, r) => (Done r, {| pool := rr; uc := uc w; written := written w |})
  | Panic msg => (Panic msg, w)
  | Fatal msg => (Fatal msg, w)
  | OutOfFuel => (OutOfFuel, w)
  end.

(** The token [jsid.SignedJSIDFromHeader] returns, by what the handler asks
    of it: [sj.Retrieve().GetGroupID()] and [sj.Verify(k)]. *)
Record SignedJSID := mkSignedJSID {
  GetGroupID : N;
  Verify : list Byte.byte -> bool
}.

Section Handler.
(** Functions of other packages, taken as they are. *)
Variable url_Parse : string -> URL + error.
Variable url_String : URL -> string.
Variable SignedJSIDFromHeader : Header -> option SignedJSID * option error.

Fixpoint isBackendAlive (rr : RoundRobin) (needle : URL) (haystack : list ptr)
    : option ptr :=
  match haystack with
  | [] => None
  | s :: rest =>
      if sameURL needle (url (deref rr s)) then Some s
      else isBackendAlive rr needle rest
  end.

Definition GetBackend (s : StickySession) (req : Request) (rr : RoundRobin)
    (servers : list ptr) : option ptr * bool * option error :=
  match Request_Cookie req (cookiename s) with
  | None => (None, false, None)
  | Some cookie =>
      match url_Parse (Value cookie) with
      | inr err => (None, false, Some err)
      | inl s_url =>
          match isBackendAlive rr s_url servers with
          | Some srv => (Some srv, true, None)
          | None => (None, false, None)
          end
      end
  end.

Definition StickBackend (s : StickySession) (backend : server) : Go world unit :=
  emit (SetCookie {| Name := cookiename s; Value := url_String (url backend) |}).

(** Lines 221 to 245: the URL of the request handed on. *)
Definition rewriteURL (srv : server) (reqURL : URL) : URL :=
  let newURL :=
    {| Scheme := Scheme (CopyURL (url srv)); Opaque := Opaque (CopyURL (url srv));
       User := User (CopyURL (url srv)); Host := Host (CopyURL (url srv));
       Path := Path reqURL; RawPath := RawPath reqURL;
       RawQuery := RawQuery reqURL; Fragment := Fragment reqURL |} in
  if pathRewrite srv then
    let srvPath := Path (url srv) in
    let srvPath := if GoStrings.HasSuffix srvPath "/" then srvPath +:+ "/" else srvPath in
    let cleanPath := GoPath.Join [srvPath; Path reqURL] in
    let cleanPath :=
      if GoStrings.HasSuffix (Path reqURL) "/" && negb (GoStrings.HasSuffix cleanPath "/")
      then cleanPath +:+ "/" else cleanPath in
    {| Scheme := Scheme newURL; Opaque := Opaque newURL; User := User newURL;
       Host := Host newURL; Path := cleanPath; RawPath := RawPath newURL;
       RawQuery := RawQuery newURL; Fragment := Fragment newURL |}
  else newURL.

(** Lines 221 to 249, [srv] being the pointer chosen above them. *)
Definition serve (req : Request) (srv : option ptr) : Go world unit :=
  match srv with
  | None => panic nil_dereference
  | Some p =>
      rr ← getPool;
      emit (NextServe (rewriteURL (deref rr p) (req_URL req)));;
      ucSet "upstream" (url_String (url (deref rr p)))
  end.

(** Lines 209 to 219, then the rest. *)
Definition pick (fuel : nat) (req : Request) (srv : option ptr) (stuck : bool)
    : Go world unit :=
  if negb stuck then
    r ← nextServer fuel;
    match r with
    | (_, Some _) => emit (HttpError "503 Service Unavailable." 503)
    | (srv, None) =>
        rr ← getPool;
        match ss rr, srv with
        | Some s, Some p => StickBackend s (deref rr p);; serve req srv
        | Some s, None => panic nil_dereference
        | None, _ => serve req srv
        end
    end
  else serve req srv.

(** [for _, k := range srv.routing.hmacKeys { if sj.Verify(k) { stuck = true } }] *)
Definition verifyKeys (sj : SignedJSID) (keys : list (list Byte.byte)) (stuck : bool)
    : bool :=
  fold_left (fun stuck k => if Verify sj k then true else stuck) keys stuck.

(** Lines 187 to 207, then the rest. *)
Definition groupStick (fuel : nat) (req : Request) (srv : option ptr) (stuck : bool)
    : Go world unit :=
  let '(sj, err) := SignedJSIDFromHeader (req_Header req) in
  match err with
  | Some e => ucSet "jsid-error" e
  | None => mret tt
  end;;
  match sj with
  | Some sj =>
      rr ← getPool;
      let srv := stickyServers rr !! GetGroupID sj in
      stuck ← match srv with
              | Some p =>
                  match routing_ (deref rr p) with
                  | Some r => mret (verifyKeys sj (hmacKeys r) stuck)
                  | None => panic nil_dereference
                  end
              | None => mret stuck
              end;
      (if negb stuck then ucSet "jsid-error" "No corresponding jumpy announce"
       else mret tt);;
      pick fuel req srv stuck
  | None => pick fuel req srv stuck
  end.

Definition ServeHTTP (fuel : nat) (req : Request) : Go world unit :=
  rr ← getPool;
  match ss rr with
  | Some s =>
      match GetBackend s req rr (Servers rr) with
      | (_, _, Some err) => emit (ErrHandlerServe err);; ucSet "error" err
      | (cookieSrv, true, None) => groupStick fuel req cookieSrv true
      | (_, false, None) => groupStick fuel req None false
      end
  | None => groupStick fuel req None false
  end.

(** The handler on a balancer and a request: the final state and how the
    call ended. *)
Definition handle (fuel : nat) (rr : RoundRobin) (req : Request)
    : outcome unit * world :=
  ServeHTTP fuel req {| pool := rr; uc := upstream_ctx req; written := [] |}.

(** The URLs of the requests passed to the next handler. *)
Definition forwarded (w : world) : list URL :=
  omap (fun e => match e with NextServe u => Some u | _ => None end) (written w).
End Handler.

(** *** A sticky pool and a request of the examples *)

Definition url_Parse_example (s : string) : URL + error :=
  if String.eqb s "http://a/" then inl A
  else if String.eqb s "http://b/" then inl B
  else if String.eqb s "http://c/" then inl C
  else inr "parse error".

Definition url_String_example (u : URL) : string :=
  Scheme u +:+ "://" +:+ Host u +:+ Path u.

(** A signed token of group 7 in every header map; it verifies under the
    key [[x01]] only. *)
Definition jsid_example (h : Header) : option SignedJSID * option error :=
  (Some {| GetGroupID := 7;
           Verify := fun k => match k with
                              | [b] => Byte.eqb b Byte.x01
                              | _ => false
                              end |}, None).

Definition no_jsid (h : Header) : option SignedJSID * option error := (None, None).

(** Cookie stickiness on cookie [sess]; A plain, B of group 7 with the key
    [[x01]], in the rotation as well. *)
Definition pool_sticky : RoundRobin :=
  let rr := New (Some (mkStickySession "sess")) in
  let rr := fst (UpsertServer (Some A) [] rr) in
  fst (UpsertServer (Some B) [EnableJSID "OPEN" 7 [[Byte.x01]] false] rr).

(** GET /x?q=1 with the cookie [sess=http://a/]. *)
Definition req_sticky_A : Request :=
  {| req_URL := mkURL "" "" "" "" "/x" "" "q=1" "";
     req_Host := "front"; req_Header := ∅;
     req_Cookies := [mkCookie "sess" "http://a/"];
     req_ContentLength := 0; Proto := "HTTP/1.1"; Close := false;
     upstream_ctx := Some (mkUpstreamContext 0 (Some ∅)) |}.

(** The same with a cookie that is no URL, and the same without upstream
    context. *)
Definition req_bad_cookie : Request :=
  {| req_URL := mkURL "" "" "" "" "/x" "" "q=1" "";
     req_Host := "front"; req_Header := ∅;
     req_Cookies := [mkCookie "sess" "%zz"];
     req_ContentLength := 0; Proto := "HTTP/1.1"; Close := false;
     upstream_ctx := Some (mkUpstreamContext 0 (Some ∅)) |}.

Definition req_no_context : Request :=
  {| req_URL := mkURL "" "" "" "" "/x" "" "q=1" "";
     req_Host := "front"; req_Header := ∅;
     req_Cookies := [mkCookie "sess" "http://a/"];
     req_ContentLength := 0; Proto := "HTTP/1.1"; Close := false;
     upstream_ctx := None |}.

(** A Backend that rewrites paths under [/api/]. *)
Definition srv_api : server :=
  {| url := mkURL "http" "" "" "a" "/api/" "" "" "";
     weight := 1; pathRewrite := true; routing_ := None |}.

Definition url_dots : URL := mkURL "" "" "" "" "/a/./b/../c//d/" "" "q=1" "".

End roundrobin.

Module forward.

(** Modelled from the spec: the header names of the package, whose file is
    not among the sources; section 4.5 names the two headers of the
    detection, section 6 the hop-by-hop set. *)
Definition Connection : string := "Connection".
Definition Upgrade : string := "Upgrade".
Definition ContentType : string := "Content-Type".
Definition ContentLength : string := "Content-Length".
Definition HopHeaders : list string :=
  ["Connection"; "Keep-Alive"; "Proxy-Authenticate"; "Proxy-Authorization";
   "Te"; "Trailers"; "Transfer-Encoding"; "Upgrade"].

(** *** WebSocket detection *)

Section Detection.
(** [strings.ToLower] and [strings.TrimSpace] *)
Variables ToLower TrimSpace : string -> string.

Fixpoint containsItem (value : string) (items : list string) : bool :=
  match items with
  | [] => false
  | item :: rest =>
      if String.eqb value (ToLower (TrimSpace item)) then true
      else containsItem value rest
  end.

Definition containsHeader (req : Request) (name value : string) : bool :=
  containsItem value (GoStrings.Split "," (Header_Get (req_Header req) name)).

Definition isWebsocketRequest (req : Request) : bool :=
  containsHeader req Connection "upgrade" && containsHeader req Upgrade "websocket".
End Detection.

(** *** Metrics *)

Inductive metric : Type :=
| Counter (count : Z)
| IntegerHistogram (samples : list Z).

Definition Tags := gmap string string.

(** [t.AddTags(extra)]: a copy of [t] with the entries of [extra] set. *)
Definition AddTags (t extra : Tags) : Tags := extra ∪ t.

(** A registered metric is known by its name and tags; the registry is the
    store of the metric objects, and a field of the context that holds a
    metric holds its key. *)
Definition metricKey : Type := string * Tags.
Definition TaggedRegistry := gmap metricKey metric.

Inductive field : Type :=
| httpRead | httpWritten | httpConnectionCounter | httpConnectionOpen
| httpResponseTime | timeWindowedHttpResponseTime
| httpReturnCode100 | httpReturnCode200 | httpReturnCode300
| httpReturnCode400 | httpReturnCode500
| wsRead | wsWritten | wsConnectionCounter | wsConnectionOpen
| wsSessionTime.

#[export] Instance field_eq_dec : EqDecision field.
Proof. solve_decision. Defined.

(** The struct [metricsContext]; [metricOf f] is the field [f], [None] while
    it is nil.  Of the versions of the context among the sources, the one
    embedded is the one with the fields that the serve paths use: the
    connection counters and a response counter for each class of status
    codes, registered by [httpInit]. *)
Record metricsContext := mkMetricsContext {
  tags : Tags;
  httpStarted : bool;
  wsStarted : bool;
  metricOf : field -> option metricKey
}.

Definition NewMetricsContext (tags : Tags) : metricsContext :=
  {| tags := tags; httpStarted := false; wsStarted := false;
     metricOf := fun _ => None |}.

(** *** The forwarder *)

Record Conn := mkConn { conn_name : string; conn_writeErr : option error }.

Definition RoundTripper : Type := Request -> Response + error.
Definition Dialer : Type := string -> string -> Conn + error.
Definition ReqRewriter : Type := Request -> Request.

Inductive ErrorHandlerT : Type := DefaultHandler | OtherHandler (name : string).
Inductive LoggerT : Type := NullLogger | OtherLogger (name : string).

Record httpForwarder := mkHttpForwarder {
  roundTripper : option RoundTripper;
  rewriter : option ReqRewriter;
  passHost : bool;
  streamResponse : bool
}.

Record websocketForwarder := mkWebsocketForwarder {
  dial : option Dialer;
  ws_rewriter : option ReqRewriter
}.

(** [bufferPool] hands out 32 KiB buffers for the copy and has no other
    effect; it is not represented. *)
Record handlerContext := mkHandlerContext {
  errHandler : option ErrorHandlerT;
  log : option LoggerT;
  metrics : option metricsContext
}.

Record Forwarder := mkForwarder {
  http_ : httpForwarder;
  websocket_ : websocketForwarder;
  ctx_ : handlerContext
}.

(** [type optSetter func(f *Forwarder) error]: a setter changes the
    forwarder it is given and may fail.  The nine functions below build the
    setters of the package, none of which fails; [New] takes any functions of
    the type.  An interface or function value handed to an option may be nil
    ([None]).  The registry that [Meters] is given is the one registry of
    [world]. *)
Definition optSetter : Type := Forwarder -> Forwarder * option error.

Definition PassHostHeader (b : bool) : optSetter := fun f =>
  let h := http_ f in
  (mkForwarder (mkHttpForwarder (roundTripper h) (rewriter h) b (streamResponse h))
               (websocket_ f) (ctx_ f), None).

Definition Meters (tags : Tags) : optSetter := fun f =>
  let c := ctx_ f in
  (mkForwarder (http_ f) (websocket_ f)
     (mkHandlerContext (errHandler c) (log c) (Some (NewMetricsContext tags))), None).

Definition StreamResponse (b : bool) : optSetter := fun f =>
  let h := http_ f in
  (mkForwarder (mkHttpForwarder (roundTripper h) (rewriter h) (passHost h) b)
               (websocket_ f) (ctx_ f), None).

Definition RoundTripper_ (r : option RoundTripper) : optSetter := fun f =>
  let h := http_ f in
  (mkForwarder (mkHttpForwarder r (rewriter h) (passHost h) (streamResponse h))
               (websocket_ f) (ctx_ f), None).

Definition WebsocketDial (dial : option Dialer) : optSetter := fun f =>
  (mkForwarder (http_ f) (mkWebsocketForwarder dial (ws_rewriter (websocket_ f)))
               (ctx_ f), None).

Definition Rewriter (r : option ReqRewriter) : optSetter := fun f =>
  let h := http_ f in
  (mkForwarder (mkHttpForwarder (roundTripper h) r (passHost h) (streamResponse h))
               (websocket_ f) (ctx_ f), None).

Definition WebsocketRewriter (r : option ReqRewriter) : optSetter := fun f =>
  (mkForwarder (http_ f) (mkWebsocketForwarder (dial (websocket_ f)) r) (ctx_ f), None).

Definition ErrorHandler (h : option ErrorHandlerT) : optSetter := fun f =>
  let c := ctx_ f in
  (mkForwarder (http_ f) (websocket_ f) (mkHandlerContext h (log c) (metrics c)), None).

Definition Logger (l : option LoggerT) : optSetter := fun f =>
  let c := ctx_ f in
  (mkForwarder (http_ f) (websocket_ f) (mkHandlerContext (errHandler c) l (metrics c)),
   None).

(** [for _, s := range setters { if err := s(f); err != nil { return nil, err } }] *)
Fixpoint applySetters (setters : list optSetter) (f : Forwarder)
    : Forwarder * option error :=
  match setters with
  | [] => (f, None)
  | s :: rest =>
      match s f with
      | (f', Some err) => (f', Some err)
      | (f', None) => applySetters rest f'
      end
  end.

Inductive event : Type :=
| Logf (level : string)
| ErrHandlerServe (err : option error)
| RoundTrip (outReq : Request)
| WriteHeader (h : Header) (code : Z)
| WriteBody (flush : bool) (bytes : list Byte.byte)
| BodyClose
| DialTo (network address : string)
| ConnWrite (c : string) (outReq : Request)
| ConnClose (c : string)
| GoReplicate (dst src : string) (copied : field)
| GoWaiter.

(** The state a request is served in: the forwarder (its context holds the
    metrics object), the registry, the header map of the response writer
    and the events so far, latest last. *)
Record world := mkWorld {
  fwd : Forwarder;
  registry : TaggedRegistry;
  respHeader : Header;
  written : list event
}.

(** What the response writer can do beyond writing:
    [None] when it is no [http.Hijacker], else what [Hijack] returns. *)
Record ResponseWriter := mkResponseWriter { Hijack : option (Conn + error) }.

Section Serve.
(** Other packages and the clock, taken as they are. *)
Variables ToLower TrimSpace : string -> string.
Variable DefaultTransport : RoundTripper.
Variable net_Dial : Dialer.
Variable os_Hostname : string + error.
Variable HeaderRewriter : bool -> string -> ReqRewriter.
Variable GetHeaderMediaType : Header -> string -> string + error.
(** [time.Now().Sub(start).Nanoseconds()] at the deferred calls *)
Variable elapsed : Z.

Definition New (setters : list optSetter) : option Forwarder * option error :=
  let f := {| http_ := mkHttpForwarder None None false false;
              websocket_ := mkWebsocketForwarder None None;
              ctx_ := mkHandlerContext None None None |} in
  match applySetters setters f with
  | (_, Some err) => (None, Some err)
  | (f, None) =>
      let h := http_ f in
      let ws := websocket_ f in
      let c := ctx_ f in
      let rt := match roundTripper h with None => Some DefaultTransport | r => r end in
      let d := match dial ws with None => Some net_Dial | d => d end in
      let rw := match rewriter h with
                | None =>
                    let hn := match os_Hostname with inl hn => hn | inr _ => "localhost" end in
                    Some (HeaderRewriter true hn)
                | r => r
                end in
      let l := match log c with None => Some NullLogger | l => l end in
      let eh := match errHandler c with None => Some DefaultHandler | e => e end in
      (Some (mkForwarder (mkHttpForwarder rt rw (passHost h) (streamResponse h))
                         (mkWebsocketForwarder d (ws_rewriter ws))
                         (mkHandlerContext eh l (metrics c))), None)
  end.

Definition emit (e : event) : Go world unit := fun w =>
  (Done tt, mkWorld (fwd w) (registry w) (respHeader w) (written w ++ [e])).

Definition getForwarder : Go world Forwarder := fun w => (Done (fwd w), w).

(** [*ctx.metrics]: the dereference every use of a field of the metrics
    context starts with. *)
Definition getMetrics : Go world metricsContext := fun w =>
  match metrics (ctx_ (fwd w)) with
  | None => (Panic nil_dereference, w)
  | Some m => (Done m, w)
  end.

Definition setMetrics (m : metricsContext) : Go world unit := fun w =>
  (Done tt,
   mkWorld (mkForwarder (http_ (fwd w)) (websocket_ (fwd w))
              (mkHandlerContext (errHandler (ctx_ (fwd w))) (log (ctx_ (fwd w))) (Some m)))
           (registry w) (respHeader w) (written w)).

Definition setField (f : field) (k : metricKey) : Go world unit :=
  m ← getMetrics;
  setMetrics {| tags := tags m; httpStarted := httpStarted m; wsStarted := wsStarted m;
                metricOf := fun g => if decide (g = f) then Some k else metricOf m g |}.

Definition sameKind (a b : metric) : bool :=
  match a, b with
  | Counter _, Counter _ => true
  | IntegerHistogram _, IntegerHistogram _ => true
  | _, _ => false
  end.

(** [x, ok := ctx.registry.GetOrRegister(name, tags, new).(T);
     if !ok { log.Fatalf(...) }; ctx.f = x] *)
Definition register (f : field) (name : string) (t : Tags) (new : metric)
    : Go world unit :=
  fun w =>
  match registry w !! (name, t) with
  | Some old =>
      if sameKind old new then setField f (name, t) w
      else (Fatal "Invalid type registered", w)
  | None =>
      setField f (name, t)
        (mkWorld (fwd w) (<[(name, t) := new]> (registry w)) (respHeader w) (written w))
  end.

Definition httpInit : Go world unit :=
  m ← getMetrics;
  if httpStarted m then mret tt
  else
    setMetrics {| tags := tags m; httpStarted := true; wsStarted := wsStarted m;
                  metricOf := metricOf m |};;
    let httpTags := AddTags (tags m) {["conn_type" := "http"]} in
    register httpRead "bytes" (AddTags httpTags {["direction" := "in"]}) (Counter 0);;
    register httpWritten "bytes" (AddTags httpTags {["direction" := "out"]}) (Counter 0);;
    register httpResponseTime "response.time.ns" httpTags (IntegerHistogram []);;
    register httpConnectionCounter "connection.count" httpTags (Counter 0);;
    register httpConnectionOpen "connection.open" httpTags (Counter 0);;
    register httpReturnCode100 "response.count" {["httpcode" := "1xx"]} (Counter 0);;
    register httpReturnCode200 "response.count" {["httpcode" := "2xx"]} (Counter 0);;
    register httpReturnCode300 "response.count" {["httpcode" := "3xx"]} (Counter 0);;
    register httpReturnCode400 "response.count" {["httpcode" := "4xx"]} (Counter 0);;
    register httpReturnCode500 "response.count" {["httpcode" := "5xx"]} (Counter 0);;
    (** Modelled from the spec: section 4.4 step 8 records the response
        time in two histograms; the registration of the time-windowed one
        is in none of the versions of the context among the sources. *)
    register timeWindowedHttpResponseTime "response.time.ns"
             (AddTags httpTags {["window" := "true"]}) (IntegerHistogram []).

Definition wsInit : Go world unit :=
  m ← getMetrics;
  if wsStarted m then mret tt
  else
    setMetrics {| tags := tags m; httpStarted := httpStarted m; wsStarted := true;
                  metricOf := metricOf m |};;
    let wsTags := AddTags (tags m) {["conn_type" := "websocket"]} in
    register wsRead "bytes" (AddTags wsTags {["direction" := "in"]}) (Counter 0);;
    register wsWritten "bytes" (AddTags wsTags {["direction" := "out"]}) (Counter 0);;
    register wsSessionTime "session.time.ns" wsTags (IntegerHistogram []);;
    register wsConnectionCounter "connection.count" wsTags (Counter 0);;
    register wsConnectionOpen "connection.open" wsTags (Counter 0).

(** A change of the metric object registered under [k]. *)
Definition alterMetric (k : metricKey) (g : metric -> metric) : Go world unit := fun w =>
  (Done tt, mkWorld (fwd w) (alter g k (registry w)) (respHeader w) (written w)).

(** [ctx.metrics.f.Inc(n)] (and [Dec(n)] for a negative [n]) *)
Definition counterInc (f : field) (n : Z) : Go world unit :=
  m ← getMetrics;
  match metricOf m f with
  | None => panic nil_dereference
  | Some k =>
      alterMetric k (fun x => match x with
                              | Counter c => Counter (wrap (c + n))
                              | other => other
                              end)
  end.

(** [ctx.metrics.f.Update(v)] *)
Definition histogramUpdate (f : field) (v : Z) : Go world unit :=
  m ← getMetrics;
  match metricOf m f with
  | None => panic nil_dereference
  | Some k =>
      alterMetric k (fun x => match x with
                              | IntegerHistogram l => IntegerHistogram (l ++ [v])
                              | other => other
                              end)
  end.

Definition IncHttpReturnCode (code : Z) : Go world unit :=
  let highCode := (Z.quot code 100) mod 256 in
  _ ← getMetrics;
  if highCode =? 1 then counterInc httpReturnCode100 1
  else if highCode =? 2 then counterInc httpReturnCode200 1
  else if highCode =? 3 then counterInc httpReturnCode300 1
  else if highCode =? 4 then counterInc httpReturnCode400 1
  else if highCode =? 5 then counterInc httpReturnCode500 1
  else mret tt.

(** [utils.CopyHeaders(dst, src)]: every value of [src] is added to
    [dst]; [utils.RemoveHeaders(h, names...)] deletes the names. *)
Definition CopyHeaders (dst src : Header) : Header :=
  union_with (fun d s => Some (d ++ s)) dst src.

Definition RemoveHeaders (h : Header) (names : list string) : Header :=
  fold_left (fun h name => delete name h) names h.

Definition setRespHeader (h : Header) : Go world unit := fun w =>
  (Done tt, mkWorld (fwd w) (registry w) h (written w)).

Definition getRespHeader : Go world Header := fun w => (Done (respHeader w), w).

Definition http_copyRequest (f : httpForwarder) (req : Request) (u : URL) : Request :=
  let outURL :=
    {| Scheme := Scheme u; Opaque := ""; User := User (CopyURL (req_URL req));
       Host := Host u; Path := Path u; RawPath := RawPath u;
       RawQuery := RawQuery u; Fragment := Fragment (CopyURL (req_URL req)) |} in
  let outReq :=
    {| req_URL := outURL;
       req_Host := if negb (passHost f) then Host u else req_Host req;
       req_Header := CopyHeaders ∅ (req_Header req);
       req_Cookies := req_Cookies req;
       req_ContentLength := req_ContentLength req;
       Proto := "HTTP/1.1"; Close := false;
       upstream_ctx := upstream_ctx req |} in
  match rewriter f with
  | Some rw => rw outReq
  | None => outReq
  end.

(** [httpForwarder.serveHTTP] *)
Definition http_serveHTTP (req : Request) : Go world unit :=
  httpInit;;
  counterInc httpRead (req_ContentLength req);;
  counterInc httpConnectionCounter 1;;
  counterInc httpConnectionOpen 1;;
  defer (counterInc httpConnectionOpen (-1)) (
    f ← getForwarder;
    match roundTripper (http_ f) with
    | None => panic nil_dereference
    | Some rt =>
        let outReq := http_copyRequest (http_ f) req (req_URL req) in
        emit (RoundTrip outReq);;
        match rt outReq with
        | inr err => emit (Logf "error");; emit (ErrHandlerServe (Some err))
        | inl response =>
            h ← getRespHeader;
            setRespHeader (RemoveHeaders (CopyHeaders h (resp_Header response)) HopHeaders);;
            h ← getRespHeader;
            emit (WriteHeader h (StatusCode response));;
            let stream :=
              if streamResponse (http_ f) then true
              else match GetHeaderMediaType (resp_Header response) ContentType with
                   | inl contentType => String.eqb contentType "text/event-stream"
                   | inr _ => false
                   end in
            emit (WriteBody stream (Body response));;
            let written := Z.of_nat (length (Body response)) in
            counterInc httpWritten written;;
            emit (Logf "info");;
            defer (emit BodyClose) (
            defer (histogramUpdate httpResponseTime elapsed) (
            defer (histogramUpdate timeWindowedHttpResponseTime elapsed) (
            defer (IncHttpReturnCode (StatusCode response)) (
              match BodyErr response with
              | Some _ => emit (Logf "error")
              | None =>
                  if negb (written =? 0) then
                    h ← getRespHeader;
                    setRespHeader (<[ContentLength := [pretty written]]> h)
                  else mret tt
              end))))
        end
    end).

Definition ws_copyRequest (f : websocketForwarder) (req : Request) : Request :=
  let u := req_URL req in
  let outURL :=
    {| Scheme := Scheme u; Opaque := ""; User := User (CopyURL u);
       Host := Host u; Path := Path u; RawPath := RawPath u;
       RawQuery := RawQuery u; Fragment := Fragment (CopyURL u) |} in
  let outReq :=
    {| req_URL := outURL; req_Host := req_Host req;
       req_Header := CopyHeaders ∅ (req_Header req);
       req_Cookies := req_Cookies req;
       req_ContentLength := req_ContentLength req;
       Proto := "HTTP/1.1"; Close := false;
       upstream_ctx := upstream_ctx req |} in
  match ws_rewriter f with
  | Some rw => rw outReq
  | None => outReq
  end.

(** [websocketForwarder.serveHTTP], up to the start of the two
    [replicate] goroutines and of the one that waits for them; what
    these do is outside the embedding. *)
Definition ws_serveHTTP (w : ResponseWriter) (req : Request) : Go world unit :=
  wsInit;;
  counterInc wsConnectionCounter 1;;
  f ← getForwarder;
  let outReq := ws_copyRequest (websocket_ f) req in
  let host := Host (req_URL outReq) in
  let host :=
    if negb (GoStrings.Contains host ":") then
      if String.eqb (Scheme (req_URL outReq)) "wss" then host +:+ ":443"
      else host +:+ ":80"
    else host in
  match dial (websocket_ f) with
  | None => panic nil_dereference
  | Some d =>
      emit (DialTo "tcp" host);;
      match d "tcp" host with
      | inr err => emit (Logf "error");; emit (ErrHandlerServe (Some err))
      | inl targetConn =>
          match Hijack w with
          | None => emit (Logf "error");; emit (ErrHandlerServe None)
          | Some (inr err) =>
              emit (Logf "error");; emit (ErrHandlerServe (Some err));;
              emit (ConnClose (conn_name targetConn))
          | Some (inl underlyingConn) =>
              emit (ConnWrite (conn_name targetConn) outReq);;
              match conn_writeErr targetConn with
              | Some err =>
                  emit (Logf "error");; emit (ErrHandlerServe (Some err));;
                  emit (ConnClose (conn_name underlyingConn));;
                  emit (ConnClose (conn_name targetConn))
              | None =>
                  m ← getMetrics;
                  emit (GoReplicate (conn_name targetConn) (conn_name underlyingConn) wsRead);;
                  emit (GoReplicate (conn_name underlyingConn) (conn_name targetConn) wsWritten);;
                  counterInc wsConnectionOpen 1;;
                  emit GoWaiter
              end
          end
      end
  end.

(** [Forwarder.ServeHTTP] *)
Definition ServeHTTP (w : ResponseWriter) (req : Request) : Go world unit :=
  if isWebsocketRequest ToLower TrimSpace req then ws_serveHTTP w req
  else http_serveHTTP req.

(** Serving one request through [f], from a registry and an empty
    response. *)
Definition handle (f : Forwarder) (reg : TaggedRegistry) (w : ResponseWriter)
    (req : Request) : outcome unit * world :=
  ServeHTTP w req (mkWorld f reg ∅ []).
End Serve.

(** *** Notions the statements below use *)

(** [item] is one of the items of [value] between commas: it holds no
    comma, starts at the start of the value or after a comma, and ends at
    the end of the value or before a comma. *)
Definition comma_item (value item : string) : Prop :=
  GoStrings.has_byte "," item = false /\
  exists before after,
    value = before +:+ item +:+ after /\
    (before = "" \/ exists b, before = b +:+ ",") /\
    (after = "" \/ exists a, after = "," +:+ a).

(** The setters that the options of the package other than [Meters]
    build, and those that all nine build. *)
Inductive otherOption : optSetter -> Prop :=
| other_PassHostHeader b : otherOption (PassHostHeader b)
| other_StreamResponse b : otherOption (StreamResponse b)
| other_RoundTripper r : otherOption (RoundTripper_ r)
| other_WebsocketDial d : otherOption (WebsocketDial d)
| other_Rewriter r : otherOption (Rewriter r)
| other_WebsocketRewriter r : otherOption (WebsocketRewriter r)
| other_ErrorHandler h : otherOption (ErrorHandler h)
| other_Logger l : otherOption (Logger l).

Inductive packageOption : optSetter -> Prop :=
| package_Meters tags : packageOption (Meters tags)
| package_other s : otherOption s -> packageOption s.

(** Setters built by the options of the package, none of them by [Meters]. *)
Definition withoutMeters (setters : list optSetter) : Prop :=
  Forall otherOption setters.

(** The forwarder [New] starts from. *)
Definition emptyForwarder : Forwarder :=
  {| http_ := mkHttpForwarder None None false false;
     websocket_ := mkWebsocketForwarder None None;
     ctx_ := mkHandlerContext None None None |}.

(** A setter, of the package or not, that leaves the metrics context of
    the forwarder as it finds it. *)
Definition keepsMetrics (s : optSetter) : Prop :=
  forall f, metrics (ctx_ (fst (s f))) = metrics (ctx_ f).

(** The kind of metric the package registers under a name: a histogram
    for the two durations, a counter for the rest. *)
Definition kindFor (name : string) : metric :=
  if String.eqb name "response.time.ns" || String.eqb name "session.time.ns"
  then IntegerHistogram [] else Counter 0.

(** A registry in which every metric has the kind of its name. *)
Definition kinds_ok (reg : TaggedRegistry) : Prop :=
  map_Forall (fun k x => sameKind x (kindFor (fst k)) = true) reg.

Definition isWs (f : field) : bool :=
  match f with
  | wsRead | wsWritten | wsConnectionCounter | wsConnectionOpen | wsSessionTime => true
  | _ => false
  end.

(** The ten fields that [httpInit] sets in the source; the field of the
    time-windowed histogram is not one of them. *)
Definition isHttp (f : field) : bool :=
  match f with
  | httpRead | httpWritten | httpConnectionCounter | httpConnectionOpen
  | httpResponseTime | httpReturnCode100 | httpReturnCode200 | httpReturnCode300
  | httpReturnCode400 | httpReturnCode500 => true
  | _ => false
  end.

(** The name and tags [httpInit] and [wsInit] register a field with, in a
    context of tags [t]. *)
Definition fieldKey (t : Tags) (f : field) : metricKey :=
  let httpTags := AddTags t {["conn_type" := "http"]} in
  let wsTags := AddTags t {["conn_type" := "websocket"]} in
  match f with
  | httpRead => ("bytes", AddTags httpTags {["direction" := "in"]})
  | httpWritten => ("bytes", AddTags httpTags {["direction" := "out"]})
  | httpResponseTime => ("response.time.ns", httpTags)
  | timeWindowedHttpResponseTime =>
      ("response.time.ns", AddTags httpTags {["window" := "true"]})
  | httpConnectionCounter => ("connection.count", httpTags)
  | httpConnectionOpen => ("connection.open", httpTags)
  | httpReturnCode100 => ("response.count", {["httpcode" := "1xx"]})
  | httpReturnCode200 => ("response.count", {["httpcode" := "2xx"]})
  | httpReturnCode300 => ("response.count", {["httpcode" := "3xx"]})
  | httpReturnCode400 => ("response.count", {["httpcode" := "4xx"]})
  | httpReturnCode500 => ("response.count", {["httpcode" := "5xx"]})
  | wsRead => ("bytes", AddTags wsTags {["direction" := "in"]})
  | wsWritten => ("bytes", AddTags wsTags {["direction" := "out"]})
  | wsSessionTime => ("session.time.ns", wsTags)
  | wsConnectionCounter => ("connection.count", wsTags)
  | wsConnectionOpen => ("connection.open", wsTags)
  end.


(** [w'] is [w] with more metrics registered and another metrics context:
    the collaborators, the response and the events are the same, and the
    registry holds what it held. *)
Record extends (w w' : world) : Prop := mkExtends {
  ext_http : http_ (fwd w') = http_ (fwd w);
  ext_websocket : websocket_ (fwd w') = websocket_ (fwd w);
  ext_errHandler : errHandler (ctx_ (fwd w')) = errHandler (ctx_ (fwd w));
  ext_log : log (ctx_ (fwd w')) = log (ctx_ (fwd w));
  ext_respHeader : respHeader w' = respHeader w;
  ext_written : written w' = written w;
  ext_registry : registry w ⊆ registry w'
}.

(** *** Requests and collaborators of the examples *)

Definition target : URL := mkURL "http" "" "" "backend:8080" "/x" "" "q=1" "".

Definition req_plain : Request :=
  mkRequest target "front" ∅ [] 10 "HTTP/1.0" true None.

(** [Connection: Upgrade, keep-alive] and [Upgrade: websocket] *)
Definition req_ws : Request :=
  mkRequest target "front"
    {[ "Connection" := ["Upgrade, keep-alive"]; "Upgrade" := ["websocket"] ]}
    [] 0 "HTTP/1.1" false None.

Definition transport_down : RoundTripper := fun _ => inr "connection refused".
Definition dial_down : Dialer := fun _ _ => inr "connection refused".
Definition rewriter_id : bool -> string -> ReqRewriter := fun _ _ r => r.
Definition mediaType_first : Header -> string -> string + error :=
  fun h k => inl (Header_Get h k).


(** A setter of a caller that refuses, and one that does nothing. *)
Definition setter_refusing : optSetter := fun f => (f, Some "refused").
Definition setter_idle : optSetter := fun f => (f, None).

(** A forwarder with a metrics context of no tags, whose transport and
    dialer fail, and the world of its first request. *)
Definition fwd_metered : Forwarder :=
  mkForwarder (mkHttpForwarder (Some transport_down) None false false)
              (mkWebsocketForwarder (Some dial_down) None)
              (mkHandlerContext (Some DefaultHandler) (Some NullLogger)
                                (Some (NewMetricsContext ∅))).

Definition world_metered : world := mkWorld fwd_metered ∅ ∅ [].

End forward.
(** * Part II: properties *)

Lemma wrap_small z : is_int z -> wrap z = z.
Proof.
  unfold is_int, minInt, maxInt, wrap. intros H.
  rewrite Z.mod_small; lia.
Qed.


(** ** Strings and paths *)

Module strings_spec.
Import GoStrings.

Lemma append_nil_l (b : string) : "" +:+ b = b.
Proof. reflexivity. Qed.

Lemma append_cons x (a b : string) : String x a +:+ b = String x (a +:+ b).
Proof. reflexivity. Qed.

Ltac sapp := rewrite ?append_cons, ?append_nil_l.

Lemma append_assoc (a b c : string) : (a +:+ b) +:+ c = a +:+ (b +:+ c).
Proof. induction a as [|x a IH]; sapp; [done|]. by f_equal. Qed.

Lemma append_nil_r (a : string) : a +:+ "" = a.
Proof. induction a as [|x a IH]; sapp; [done|]. by f_equal. Qed.

Lemma append_eq_nil (a b : string) : a +:+ b = "" -> a = "" /\ b = "".
Proof. destruct a; sapp; [done|]. discriminate. Qed.

Lemma Split_nonempty sep s : Split sep s <> [].
Proof.
  destruct s as [|a s]; cbn; [done|].
  destruct (Ascii.eqb a sep); [done|]. by destruct (Split sep s).
Qed.

(** Cutting at a separator cuts each side of it. *)
Lemma Split_app sep (a b : string) :
  Split sep (a +:+ String sep b) = Split sep a ++ Split sep b.
Proof.
  induction a as [|x a IH]; sapp; cbn [Split].
  - by rewrite Ascii.eqb_refl.
  - rewrite IH. destruct (Ascii.eqb x sep); [done|].
    pose proof (Split_nonempty sep a). by destruct (Split sep a).
Qed.

(** No item of a split holds the separator. *)
Lemma Split_no_sep sep s : Forall (fun item => has_byte sep item = false) (Split sep s).
Proof.
  induction s as [|a s IH]; cbn; [by repeat constructor|].
  destruct (Ascii.eqb a sep) eqn:E; [by constructor|].
  destruct (Split sep s) as [|item items]; [repeat constructor; cbn; by rewrite E|].
  apply Forall_cons in IH as [H1 H2]. constructor; [|done]. cbn. by rewrite E.
Qed.

(** The items of a split, joined by the separator, are the string. *)
Lemma Join_Split sep s : Join (Split sep s) (String sep "") = s.
Proof.
  induction s as [|a s IH]; [done|]. cbn [Split].
  pose proof (Split_nonempty sep s) as Hne.
  destruct (Ascii.eqb_spec a sep) as [->|Hna];
    destruct (Split sep s) as [|item items] eqn:E; try done.
  - cbn [Join]. sapp. by rewrite <- IH.
  - rewrite <- IH. destruct items; cbn [Join]; by sapp.
Qed.

Lemma HasSuffix_append s suffix : HasSuffix (s +:+ suffix) suffix = true.
Proof.
  induction s as [|a s IH]; sapp.
  - destruct suffix; cbn [HasSuffix]; by rewrite String.eqb_refl.
  - cbn [HasSuffix]. rewrite IH. by rewrite orb_true_r.
Qed.

Lemma HasSuffix_nonempty s suffix : suffix <> "" -> HasSuffix s suffix = true -> s <> "".
Proof. intros Hne H ->. cbn in H. destruct suffix; [done|]. by cbn in H. Qed.

(** [HasSuffix] is its specification: the string ends with the suffix. *)
Lemma HasSuffix_spec s suffix : HasSuffix s suffix = true <-> exists a, s = a +:+ suffix.
Proof.
  split.
  - induction s as [|x s IH]; cbn [HasSuffix].
    + rewrite orb_false_r. intros H. apply String.eqb_eq in H. by exists "".
    + intros H. apply orb_true_iff in H as [H|H].
      * apply String.eqb_eq in H. by exists "".
      * destruct (IH H) as [a ->]. by exists (String x a).
  - intros [a ->]. apply HasSuffix_append.
Qed.

End strings_spec.

Module path_spec.
Import GoStrings GoPath strings_spec.

Lemma rev_replicate {X} n (x : X) : rev (replicate n x) = replicate n x.
Proof.
  induction n as [|n IH]; [done|]. cbn [replicate rev]. rewrite IH.
  clear IH. induction n as [|n IH]; [done|]. cbn. by rewrite IH.
Qed.

Lemma cleanStep_kept rooted out elem :
  has_byte "/" elem = false -> kept rooted out -> kept rooted (cleanStep rooted out elem).
Proof.
  intros Hs (n & names & -> & Hnames & Hroot). unfold cleanStep.
  destruct (String.eqb_spec elem "") as [|Hne]; [by exists n, names|].
  destruct (String.eqb_spec elem ".") as [|Hnd]; [by exists n, names|]. cbn [orb].
  destruct (String.eqb_spec elem dotdot) as [->|Hndd].
  - destruct names as [|name names]; cbn [app].
    + destruct n as [|n]; cbn [replicate].
      * destruct rooted; [by exists 0%nat, []|]. by exists 1%nat, [].
      * rewrite String.eqb_refl. destruct rooted; [by specialize (Hroot eq_refl)|].
        by exists (S (S n)), [].
    + apply Forall_cons in Hnames as [Hname Hnames].
      destruct (String.eqb_spec name dotdot) as [->|_]; [by destruct Hname as (_ & _ & ? & _)|].
      by exists n, names.
  - exists n, (elem :: names). split; [done|]. split; [|done].
    constructor; [|done]. by repeat split.
Qed.

Lemma fold_cleanStep_kept rooted elems : forall out,
  Forall (fun e => has_byte "/" e = false) elems -> kept rooted out ->
  kept rooted (fold_left (cleanStep rooted) elems out).
Proof.
  induction elems as [|e elems IH]; intros out He Hout; [done|].
  apply Forall_cons in He as [He1 He2]. cbn [fold_left].
  apply IH; [done|]. by apply cleanStep_kept.
Qed.

(** A cleaned path is in normal form. *)
Lemma Clean_normal path :
  path <> "" ->
  exists elems, normal_elems (HasPrefix path "/") elems /\
                Clean path = render (HasPrefix path "/") elems.
Proof.
  intros Hne. unfold Clean. destruct (String.eqb_spec path "") as [|_]; [done|].
  destruct (fold_cleanStep_kept (HasPrefix path "/") (Split "/" path) [])
    as (n & names & Hout & Hnames & Hroot).
  { apply Split_no_sep. }
  { by exists 0%nat, []. }
  exists (rev (fold_left (cleanStep (HasPrefix path "/")) (Split "/" path) [])).
  split.
  - exists n, (rev names). rewrite Hout, rev_app_distr, rev_replicate.
    split; [done|]. split; [|done].
    apply Forall_forall. intros e He. rewrite Forall_forall in Hnames.
    apply Hnames. apply list_elem_of_In. apply in_rev. by apply list_elem_of_In.
  - unfold render. destruct (HasPrefix path "/"); [done|].
    destruct (rev _) as [|e l] eqn:E; [done|].
    destruct (String.eqb_spec (GoStrings.Join (e :: l) "/") "") as [Hj|]; [|done].
    exfalso. assert (He : e = "").
    { destruct l; cbn [GoStrings.Join] in Hj; [done|]. by apply append_eq_nil in Hj as [? _]. }
    assert (Hin : In e (rev (fold_left (cleanStep false) (Split "/" path) []))) by (rewrite E; left; done).
    apply in_rev in Hin. rewrite Hout in Hin. apply in_app_or in Hin as [Hin|Hin].
    + rewrite Forall_forall in Hnames. apply list_elem_of_In, Hnames in Hin.
      by destruct Hin as (? & _).
    + apply list_elem_of_In, elem_of_replicate in Hin as [Hin _]. by subst.
Qed.

(** [Join] of two elements. *)
Lemma Join_two a b :
  GoPath.Join [a; b] =
  if String.eqb a "" then (if String.eqb b "" then "" else Clean b)
  else Clean (a +:+ "/" +:+ b).
Proof.
  unfold GoPath.Join. cbn [fold_left]. rewrite String.eqb_refl. cbn [negb orb].
  destruct a as [|x a]; cbn [String.eqb negb orb String.length Nat.add].
  - sapp. destruct b as [|y b]; cbn [String.eqb negb String.length Nat.eqb]; done.
  - sapp. cbn [String.eqb negb orb]. by rewrite append_assoc.
Qed.

(** [Clean] takes a doubled slash for one. *)
Lemma Clean_double_slash a b :
  a <> "" -> Clean (a +:+ "/" +:+ "/" +:+ b) = Clean (a +:+ "/" +:+ b).
Proof.
  intros Ha. destruct a as [|x a]; [done|].
  unfold Clean. sapp. cbn [String.eqb].
  change ("/" +:+ "/" +:+ b) with (String "/" (String "/" b)).
  change ("/" +:+ b) with (String "/" b).
  assert (Hp : forall s s', HasPrefix (String x s) "/" = HasPrefix (String x s') "/").
  { intros s s'. unfold HasPrefix. cbn [String.prefix].
    destruct (ascii_dec "/"%char x); [|done]. by destruct s, s'. }
  rewrite (Hp (a +:+ String "/" (String "/" b)) (a +:+ String "/" b)).
  rewrite <- !append_cons, !Split_app.
  rewrite !fold_left_app.
  change (Split "/" (String "/" b)) with ("" :: Split "/" b).
  cbn [fold_left]. unfold cleanStep at 2. cbn [String.eqb orb]. done.
Qed.

End path_spec.
Module roundrobin_spec.
Import roundrobin.

(** ** The arithmetic of the selection *)

Lemma gcd_loop_Zgcd fuel : forall a b,
  0 <= a -> 0 <= b -> b < Z.of_nat fuel -> gcd_loop fuel a b = Z.gcd a b.
Proof.
  induction fuel as [|fuel IH]; intros a b Ha Hb Hf; [lia|].
  cbn [gcd_loop]. destruct (Z.eqb_spec b 0) as [->|Hne].
  - rewrite Z.gcd_0_r. lia.
  - assert (Hr : Z.rem a b = a mod b) by (apply Z.rem_mod_nonneg; lia).
    pose proof (Z.mod_pos_bound a b ltac:(lia)) as Hm.
    rewrite Hr, IH by lia.
    rewrite Z.gcd_comm, Z.gcd_mod by lia. apply Z.gcd_comm.
Qed.

(** On non-negative weights the loop of [gcd] computes the greatest common
    divisor. *)
Lemma gcd_Zgcd a b : 0 <= a -> 0 <= b -> gcd a b = Z.gcd a b.
Proof. intros Ha Hb. unfold gcd. apply gcd_loop_Zgcd; lia. Qed.

Section Weights.
Variable rr : RoundRobin.
Local Abbreviation W s := (weight (deref rr s)).

Lemma max_fold_ge (l : list ptr) : forall acc,
  acc <= fold_left (fun max s => if max <? W s then W s else max) l acc /\
  forall s, s ∈ l -> W s <= fold_left (fun max s => if max <? W s then W s else max) l acc.
Proof.
  induction l as [|x l IH]; intros acc; cbn [fold_left].
  - split; [lia|]. intros s Hs. inversion Hs.
  - destruct (IH (if acc <? W x then W x else acc)) as [H1 H2].
    split.
    + destruct (Z.ltb_spec acc (W x)); lia.
    + intros s Hs. apply elem_of_cons in Hs as [->|Hs]; [|auto].
      destruct (Z.ltb_spec acc (W x)); lia.
Qed.

Lemma max_fold_attained (l : list ptr) : forall acc,
  acc < fold_left (fun max s => if max <? W s then W s else max) l acc ->
  exists s, s ∈ l /\ W s = fold_left (fun max s => if max <? W s then W s else max) l acc.
Proof.
  induction l as [|x l IH]; intros acc; cbn [fold_left]; [lia|].
  intros Hlt.
  set (acc' := if acc <? W x then W x else acc) in *.
  destruct (Z.eq_dec acc' (fold_left (fun max s => if max <? W s then W s else max) l acc'))
    as [Heq|Hne].
  - exists x. split; [left|]. rewrite <- Heq. subst acc'.
    destruct (Z.ltb_spec acc (W x)); lia.
  - destruct (IH acc') as (s & Hs & Hw).
    + pose proof (proj1 (max_fold_ge l acc')). lia.
    + exists s. split; [by right|done].
Qed.

Lemma maxWeight_ge s : s ∈ servers rr -> W s <= maxWeight rr.
Proof. intros Hs. by apply (max_fold_ge (servers rr) (-1)). Qed.

Lemma maxWeight_attained :
  0 <= maxWeight rr -> exists s, s ∈ servers rr /\ W s = maxWeight rr.
Proof.
  intros H. apply (max_fold_attained (servers rr) (-1)).
  change (-1 < maxWeight rr). lia.
Qed.

Lemma gcd_fold_nonneg (l : list ptr) : forall acc,
  0 <= acc -> (forall s, s ∈ l -> 0 <= W s) ->
  fold_left (fun divisor s => if divisor =? -1 then W s else gcd divisor (W s)) l acc
  = fold_left (fun d s => Z.gcd d (W s)) l acc.
Proof.
  induction l as [|x l IH]; intros acc Hacc Hl; [done|].
  cbn [fold_left]. destruct (Z.eqb_spec acc (-1)); [lia|].
  rewrite gcd_Zgcd by (try apply Hl; first [lia | left]).
  apply IH; [apply Z.gcd_nonneg|]. intros s Hs. apply Hl. by right.
Qed.

Lemma Zgcd_fold_props (l : list ptr) : forall acc,
  0 <= acc ->
  let g := fold_left (fun d s => Z.gcd d (W s)) l acc in
  0 <= g /\ (g | acc) /\ (forall s, s ∈ l -> (g | W s)) /\
  (acc = 0 -> (forall s, s ∈ l -> W s = 0) -> g = 0).
Proof.
  induction l as [|x l IH]; intros acc Hacc; cbn [fold_left].
  - repeat split; [lia| |intros s Hs; inversion Hs|auto]. apply Z.divide_refl.
  - destruct (IH (Z.gcd acc (W x)) (Z.gcd_nonneg _ _)) as (H1 & H2 & H3 & H4).
    repeat split; [done| | |].
    + eapply Z.divide_trans; [exact H2|apply Z.gcd_divide_l].
    + intros s Hs. apply elem_of_cons in Hs as [->|Hs]; [|auto].
      eapply Z.divide_trans; [exact H2|apply Z.gcd_divide_r].
    + intros -> Hz. apply H4.
      * rewrite (Hz x) by left. reflexivity.
      * intros s Hs. apply Hz. by right.
Qed.

(** [weightGcd] divides every weight, and is 0 only on a rotation of
    weights 0. *)
Lemma weightGcd_props :
  servers rr <> [] -> (forall s, s ∈ servers rr -> 0 <= W s) ->
  0 <= weightGcd rr /\ (forall s, s ∈ servers rr -> (weightGcd rr | W s)) /\
  ((forall s, s ∈ servers rr -> W s = 0) -> weightGcd rr = 0).
Proof.
  unfold weightGcd.
  destruct (servers rr) as [|x l]; [done|]. intros _ Hnn.
  cbn [fold_left]. change (-1 =? -1) with true. cbv iota.
  rewrite gcd_fold_nonneg; [|apply Hnn; left|intros s Hs; apply Hnn; by right].
  destruct (Zgcd_fold_props l (W x)) as (H1 & H2 & H3 & H4); [apply Hnn; left|].
  repeat split; [done| |].
  - intros s Hs. apply elem_of_cons in Hs as [->|Hs]; auto.
  - intros Hz. apply H4; [apply Hz; left|]. intros s Hs. apply Hz. by right.
Qed.
End Weights.

Lemma rem_next i N : -1 <= i < N -> 0 < N ->
  Z.rem (i + 1) N = if i + 1 =? N then 0 else i + 1.
Proof.
  intros Hi HN. destruct (Z.eqb_spec (i + 1) N) as [->|Hne].
  - apply Z.rem_same. lia.
  - apply Z.rem_small. lia.
Qed.

(** ** The loop of [NextServer] *)

Section Loop.
Variables (h : list server) (l : list ptr) (G M : Z).
Local Abbreviation N := (Z.of_nat (length l)).
Local Abbreviation W := (weightOf h).
Hypothesis HN : 0 < N <= maxInt.
Hypothesis Hnn : forall s, s ∈ l -> 0 <= W s.
Hypothesis HMint : M <= maxInt.
Hypothesis HG : 0 <= G <= M.

(** One turn of the loop, after its assignments. *)
Lemma nextLoop_turn n rr :
  loop_state h l rr -> minInt + M <= currentWeight rr <= maxInt ->
  let i' := if index rr + 1 =? N then 0 else index rr + 1 in
  let c' := if i' =? 0
            then (if currentWeight rr - G <=? 0 then M else currentWeight rr - G)
            else currentWeight rr in
  nextLoop (S n) G M rr =
    if (i' =? 0) && (c' =? 0)
    then Done (with_currentWeight c' (with_index i' rr), (None, Some ErrZeroWeight))
    else match l !! Z.to_nat i' with
         | Some srv =>
             if c' <=? W srv
             then Done (with_currentWeight c' (with_index i' rr), (Some srv, None))
             else nextLoop n G M (with_currentWeight c' (with_index i' rr))
         | None => Panic index_out_of_range
         end.
Proof.
  intros (Hh & Hl & Hi) Hc. cbn zeta.
  cbn [nextLoop]. rewrite Hl.
  rewrite wrap_small by (unfold is_int, minInt, maxInt in *; lia).
  rewrite rem_next by lia.
  set (i' := if index rr + 1 =? N then 0 else index rr + 1).
  assert (Hi' : 0 <= i') by (subst i'; destruct (Z.eqb_spec (index rr + 1) N); lia).
  cbn [index with_index currentWeight with_currentWeight servers heap].
  rewrite wrap_small by (unfold is_int, minInt, maxInt in *; lia).
  unfold deref. cbn [heap with_index with_currentWeight]. rewrite Hh, Hl.
  assert (Hlt : (i' <? 0) = false) by (apply Z.ltb_ge; lia). rewrite Hlt.
  unfold weightOf.
  destruct (Z.eqb_spec i' 0) as [H0|H0]; cbn [andb].
  - destruct (Z.leb_spec (currentWeight rr - G) 0).
    + destruct (Z.eqb_spec M 0); [done|].
      destruct (l !! Z.to_nat i') as [p|]; [|done].
      destruct (Z.leb_spec M (weight (nth p h (zero_server no_URL)))); done.
    + assert (Hne : (currentWeight rr - G =? 0) = false) by (apply Z.eqb_neq; lia).
      rewrite Hne. destruct (l !! Z.to_nat i') as [p|]; [|done].
      destruct (Z.leb_spec (currentWeight rr - G) (weight (nth p h (zero_server no_URL)))); done.
  - destruct (l !! Z.to_nat i') as [p|]; [|done].
    destruct (Z.leb_spec (currentWeight rr) (weight (nth p h (zero_server no_URL)))); done.
Qed.

Lemma lookup_turn i : 0 <= i < N -> exists srv, l !! Z.to_nat i = Some srv /\ srv ∈ l.
Proof.
  intros Hi. destruct (lookup_lt_is_Some_2 l (Z.to_nat i)) as [srv Hs]; [lia|].
  exists srv. split; [done|]. by eapply list_elem_of_lookup_2.
Qed.

(** A rotation of weights 0 with the accumulator at 0: one turn. *)
Lemma loop_zero n rr :
  M = 0 -> G = 0 -> loop_state h l rr -> currentWeight rr = 0 ->
  exists x, nextLoop (S n) G M rr = Done x /\
    (picks h l x \/ snd x = (None, Some ErrZeroWeight)).
Proof.
  intros HM0 HG0 Hgood Hc. pose proof Hgood as (Hh & Hl & Hi).
  rewrite nextLoop_turn by (unfold minInt, maxInt in *; first [done | lia]).
  set (i' := if index rr + 1 =? N then 0 else index rr + 1).
  assert (Hi' : 0 <= i' < N) by (subst i'; destruct (Z.eqb_spec (index rr + 1) N); lia).
  destruct (lookup_turn i' Hi') as (srv & Hsrv & Hin). rewrite Hsrv.
  rewrite Hc, HG0, HM0. change (0 - 0 <=? 0) with true. cbv iota.
  replace (if i' =? 0 then 0 else 0) with 0 by (by destruct (i' =? 0)).
  destruct (Z.eqb_spec i' 0) as [E|E]; cbn [andb Z.eqb].
  - eexists. split; [done|]. by right.
  - pose proof (Hnn srv Hin) as Hw. destruct (Z.leb_spec 0 (W srv)); [|lia].
    eexists. split; [done|]. left. exists srv. split; [done|]. split; [done|].
    repeat split; cbn; first [done | lia].
Qed.

Variables (k : nat) (sk : ptr).
Hypothesis Hk : l !! k = Some sk.
Hypothesis HWk : W sk = M.
Hypothesis HMpos : 0 < M.

(** With the accumulator at most the largest weight, the Backend of that
    weight is reached within one round. *)
Lemma loop_low n : forall rr,
  loop_state h l rr -> 0 <= currentWeight rr <= M ->
  turns_to l k (index rr) < Z.of_nat n ->
  exists x, nextLoop n G M rr = Done x /\ picks h l x.
Proof.
  assert (HkN : Z.of_nat k < N) by (apply lookup_lt_Some in Hk; lia).
  induction n as [|n IH]; intros rr Hgood Hc Hd.
  { unfold turns_to in Hd. destruct (Z.ltb_spec (index rr) (Z.of_nat k));
      destruct Hgood as (_ & _ & ?); lia. }
  pose proof Hgood as (Hh & Hl & Hi).
  rewrite nextLoop_turn by (unfold minInt, maxInt in *; first [done | lia]).
  set (i' := if index rr + 1 =? N then 0 else index rr + 1).
  set (c' := if i' =? 0
             then (if currentWeight rr - G <=? 0 then M else currentWeight rr - G)
             else currentWeight rr).
  assert (Hi' : 0 <= i' < N) by (subst i'; destruct (Z.eqb_spec (index rr + 1) N); lia).
  assert (Hc' : 0 <= c' <= M /\ (i' = 0 -> 0 < c')).
  { subst c'. destruct (Z.eqb_spec i' 0); [|lia].
    destruct (Z.leb_spec (currentWeight rr - G) 0); lia. }
  assert (Hb : (i' =? 0) && (c' =? 0) = false).
  { destruct (Z.eqb_spec i' 0); [|done]. destruct (Z.eqb_spec c' 0); [lia|done]. }
  rewrite Hb. destruct (lookup_turn i' Hi') as (srv & Hsrv & Hin). rewrite Hsrv.
  assert (Hgood' : loop_state h l (with_currentWeight c' (with_index i' rr)))
    by (repeat split; cbn; lia || done).
  destruct (Z.leb_spec c' (W srv)) as [Hle|Hgt].
  - eexists. split; [done|]. exists srv. split; [done|]. split; [done|]. exact Hgood'.
  - assert (Hne : i' <> Z.of_nat k).
    { intros E. rewrite E, Nat2Z.id, Hk in Hsrv. injection Hsrv as <-. lia. }
    destruct (IH (with_currentWeight c' (with_index i' rr))) as (x & Hx & Hp); [done|cbn; lia| |].
    + cbn. unfold turns_to in *. subst i'.
      destruct (Z.eqb_spec (index rr + 1) N); destruct (Z.ltb_spec (index rr) (Z.of_nat k));
      match goal with |- context [?a <? ?b] => destruct (Z.ltb_spec a b) end; lia.
    + exists x. split; done.
Qed.

Hypothesis HG1 : 1 <= G.

(** Above the largest weight the accumulator comes down by [G] a round. *)
Lemma loop_high n : forall rr,
  loop_state h l rr -> M < currentWeight rr <= maxInt ->
  N * (currentWeight rr - M) + (N - 1 - index rr) + N < Z.of_nat n ->
  exists x, nextLoop n G M rr = Done x /\ picks h l x.
Proof.
  assert (HkN : Z.of_nat k < N) by (apply lookup_lt_Some in Hk; lia).
  induction n as [|n IH]; intros rr Hgood Hc Hd.
  { destruct Hgood as (_ & _ & ?). nia. }
  pose proof Hgood as (Hh & Hl & Hi).
  rewrite nextLoop_turn by (unfold minInt, maxInt in *; first [done | lia]).
  set (i' := if index rr + 1 =? N then 0 else index rr + 1).
  set (c' := if i' =? 0
             then (if currentWeight rr - G <=? 0 then M else currentWeight rr - G)
             else currentWeight rr).
  assert (Hi' : 0 <= i' < N) by (subst i'; destruct (Z.eqb_spec (index rr + 1) N); lia).
  assert (Hc' : 0 < c' <= maxInt /\ (i' = 0 -> c' = currentWeight rr - G)
                /\ (i' <> 0 -> c' = currentWeight rr)).
  { subst c'. destruct (Z.eqb_spec i' 0); [|lia].
    destruct (Z.leb_spec (currentWeight rr - G) 0); lia. }
  assert (Hb : (i' =? 0) && (c' =? 0) = false).
  { destruct (Z.eqb_spec i' 0); [|done]. destruct (Z.eqb_spec c' 0); [lia|done]. }
  rewrite Hb. destruct (lookup_turn i' Hi') as (srv & Hsrv & Hin). rewrite Hsrv.
  assert (Hgood' : loop_state h l (with_currentWeight c' (with_index i' rr)))
    by (repeat split; cbn; lia || done).
  destruct (Z.leb_spec c' (W srv)) as [Hle|Hgt].
  { eexists. split; [done|]. exists srv. split; [done|]. split; [done|]. exact Hgood'. }
  destruct (Z.le_gt_cases c' M) as [Hlow|Hhigh].
  - apply loop_low; [done|cbn; lia|]. cbn. unfold turns_to.
    destruct (Z.ltb_spec i' (Z.of_nat k)); nia.
  - apply IH; [done|cbn; lia|]. cbn.
    destruct (Z.eq_dec i' 0) as [E|E].
    + destruct Hc' as (_ & Hc' & _). rewrite (Hc' E), E. nia.
    + destruct Hc' as (_ & _ & Hc'). rewrite (Hc' E).
      subst i'. destruct (Z.eqb_spec (index rr + 1) N); [done|]. lia.
Qed.
End Loop.

(** More turns do not change a result. *)
Lemma nextLoop_mono n : forall m G M rr x,
  (n <= m)%nat -> nextLoop n G M rr = Done x -> nextLoop m G M rr = Done x.
Proof.
  induction n as [|n IH]; intros m G M rr x Hle H; [discriminate|].
  destruct m as [|m]; [lia|].
  cbn [nextLoop] in *.
  repeat case_match; try done; (eapply IH; [lia|eassumption]).
Qed.

Lemma NextServer_mono n m rr x :
  (n <= m)%nat -> NextServer n rr = Done x -> NextServer m rr = Done x.
Proof.
  unfold NextServer. intros Hle. case_match; [done|]. by apply nextLoop_mono.
Qed.

(** The loop sees the index through [(index + 1) % len] only. *)
Lemma nextLoop_index n G M rr :
  -1 <= index rr < maxInt -> servers rr <> [] ->
  nextLoop n G M rr =
  nextLoop n G M
    (with_index (Z.rem (index rr + 1) (Z.of_nat (length (servers rr))) - 1) rr).
Proof.
  intros Hi Hne. destruct n as [|n]; [done|].
  assert (HN : 0 < Z.of_nat (length (servers rr))) by (destruct (servers rr); [done|cbn; lia]).
  cbn [nextLoop].
  cbn [index with_index servers].
  rewrite (wrap_small (index rr + 1)) by (unfold is_int, minInt, maxInt in *; lia).
  replace (Z.rem (index rr + 1) (Z.of_nat (length (servers rr))) - 1 + 1)
    with (Z.rem (index rr + 1) (Z.of_nat (length (servers rr)))) by lia.
  pose proof (Z.rem_bound_pos (index rr + 1) (Z.of_nat (length (servers rr))) ltac:(lia) HN).
  pose proof (Z.rem_le (index rr + 1) (Z.of_nat (length (servers rr))) ltac:(lia) HN).
  rewrite (wrap_small (Z.rem _ _)) by (unfold is_int, minInt, maxInt in *; lia).
  rewrite Z.rem_rem by lia.
  reflexivity.
Qed.

(** ** Termination of [NextServer] *)

(** Where [NextServer] terminates: on a rotation of non-negative weights, from an iterator
    state with index at least -1 and a non-negative accumulator, both
    within the range of [int], [NextServer] returns whenever some weight is
    positive or the accumulator is 0: with [fuel_bound] turns of its loop or
    more it gives one and the same result, which is a Backend of the
    rotation or one of the two errors. *)
Theorem NextServer_terminates (rr : RoundRobin) :
  nonneg_weights rr ->
  Z.of_nat (length (servers rr)) <= maxInt ->
  -1 <= index rr < maxInt ->
  0 <= currentWeight rr <= maxInt ->
  some_positive_weight rr \/ currentWeight rr = 0 ->
  exists rr' r,
    (forall fuel, (fuel_bound rr <= fuel)%nat -> NextServer fuel rr = Done (rr', r)) /\
    ((exists p, r = (Some p, None) /\ p ∈ servers rr) \/
     r = (None, Some ErrZeroWeight) \/ r = (None, Some ErrNoServers)).
Proof.
  intros Hnn HN Hi Hc Hor.
  destruct (servers rr) as [|s0 l0] eqn:El.
  { exists rr, (None, Some ErrNoServers). split; [|by right; right].
    intros fuel _. unfold NextServer. by rewrite El. }
  assert (Hne : servers rr <> []) by (by rewrite El).
  assert (HN0 : 0 < Z.of_nat (length (servers rr))) by (rewrite El; cbn; lia).
  rewrite <- El in *. clear El s0 l0.
  set (N := Z.of_nat (length (servers rr))) in *.
  set (i0 := Z.rem (index rr + 1) N - 1).
  pose proof (Z.rem_bound_pos (index rr + 1) N ltac:(lia) HN0) as Hrem.
  assert (Hst : loop_state (heap rr) (servers rr) (with_index i0 rr)).
  { repeat split; cbn; subst i0; fold N; lia. }
  unfold nonneg_weights in Hnn. rewrite Forall_forall in Hnn.
  assert (Hb1 : Z.of_nat (fuel_bound rr) = N * (currentWeight rr + 1) + 1).
  { unfold fuel_bound. fold N. rewrite Z2Nat.id; nia. }
  assert (Hloop : exists x,
    nextLoop (fuel_bound rr) (weightGcd rr) (maxWeight rr) (with_index i0 rr) = Done x /\
    (picks (heap rr) (servers rr) x \/ snd x = (None, Some ErrZeroWeight))).
  { destruct (weightGcd_props rr Hne) as (HG0 & HGdiv & HGzero).
    { intros s Hs. apply Hnn in Hs. lia. }
    destruct (decide (some_positive_weight rr)) as [Hpos|Hnpos].
    - unfold some_positive_weight in Hpos. apply Exists_exists in Hpos as (s & Hs & Hws).
      pose proof (maxWeight_ge rr s Hs) as HMs.
      destruct (maxWeight_attained rr ltac:(lia)) as (sk & Hsk & HWk).
      apply list_elem_of_lookup_1 in Hsk as Hk. destruct Hk as [k Hk].
      assert (HG1 : 1 <= weightGcd rr <= maxWeight rr).
      { pose proof (HGdiv s Hs) as Hd.
        assert (weightGcd rr <> 0) by (intros E; rewrite E in Hd; apply Z.divide_0_l in Hd; lia).
        apply Z.divide_pos_le in Hd; lia. }
      assert (HMint : maxWeight rr <= maxInt) by (rewrite <- HWk; apply Hnn in Hsk; lia).
      assert (Hi0 : -1 <= i0 < N) by (subst i0; lia).
      apply lookup_lt_Some in Hk as HkN.
      destruct (Z.le_gt_cases (currentWeight rr) (maxWeight rr)) as [Hlow|Hhigh].
      + destruct (loop_low (heap rr) (servers rr) (weightGcd rr) (maxWeight rr)
                    ltac:(fold N; lia) HMint ltac:(lia) k sk Hk HWk ltac:(lia)
                    (fuel_bound rr) (with_index i0 rr) Hst ltac:(cbn; lia))
          as (x & Hx & Hp).
        * cbn. rewrite Hb1. unfold turns_to. fold N.
          destruct (Z.ltb_spec i0 (Z.of_nat k)); nia.
        * exists x. split; [done|by left].
      + destruct (loop_high (heap rr) (servers rr) (weightGcd rr) (maxWeight rr)
                    ltac:(fold N; lia) HMint ltac:(lia) k sk Hk HWk ltac:(lia) ltac:(lia)
                    (fuel_bound rr) (with_index i0 rr) Hst ltac:(cbn; lia))
          as (x & Hx & Hp).
        * cbn. rewrite Hb1. fold N. nia.
        * exists x. split; [done|by left].
    - destruct Hor as [Hpos|Hc0]; [done|].
      assert (Hz : forall s, s ∈ servers rr -> weight (deref rr s) = 0).
      { intros s Hs. pose proof (Hnn s Hs).
        destruct (Z.eq_dec (weight (deref rr s)) 0) as [|Hw]; [done|].
        exfalso. apply Hnpos. apply Exists_exists. exists s. split; [done|lia]. }
      assert (HM0 : maxWeight rr = 0).
      { destruct (servers rr) as [|s l] eqn:El; [done|].
        assert (Hs : s ∈ servers rr) by (rewrite El; left).
        rewrite <- El in *.
        pose proof (maxWeight_ge rr s Hs) as Hge. rewrite (Hz s Hs) in Hge.
        destruct (maxWeight_attained rr Hge) as (s' & Hs' & Hw').
        rewrite <- Hw'. by apply Hz. }
      assert (Hfb : exists n, fuel_bound rr = S n).
      { exists (Z.to_nat (N * (currentWeight rr + 1))). unfold fuel_bound. fold N.
        rewrite Z2Nat.inj_add by nia. cbn. lia. }
      destruct Hfb as [n ->].
      apply (loop_zero (heap rr) (servers rr)); [fold N; lia| | |done|by apply HGzero|done|done].
      + intros s Hs. unfold weightOf. fold (deref rr s). rewrite (Hz s Hs). lia.
      + rewrite HGzero, HM0 by done. lia. }
  destruct Hloop as ([rr' r] & Hx & Hres).
  exists rr', r. split.
  - intros fuel Hfuel. unfold NextServer.
    assert ((length (servers rr) =? 0)%nat = false) as -> by (by destruct (servers rr)).
    rewrite nextLoop_index by done. fold N. fold i0.
    by eapply nextLoop_mono.
  - destruct Hres as [(p & Hp & Hin & _)|Hres].
    + left. exists p. by split.
    + right; left. done.
Qed.

(** The theorem at the rotation of weights 1, 2, 3, freshly reset. *)
Lemma NextServer_terminates_witness :
  exists rr' r,
    (forall fuel, (fuel_bound pool123 <= fuel)%nat -> NextServer fuel pool123 = Done (rr', r)) /\
    ((exists p, r = (Some p, None) /\ p ∈ servers pool123) \/
     r = (None, Some ErrZeroWeight) \/ r = (None, Some ErrNoServers)).
Proof.
  apply (NextServer_terminates pool123).
  - unfold nonneg_weights. apply (bool_decide_unpack _). vm_compute. reflexivity.
  - vm_compute. discriminate.
  - split; vm_compute; [discriminate|reflexivity].
  - split; vm_compute; discriminate.
  - left. unfold some_positive_weight. apply (bool_decide_unpack _). vm_compute. reflexivity.
Defined.

(** A rotation of weights 0 with a positive accumulator: a turn of the loop
    moves the index and nothing else, and the loop goes on. *)
Lemma nextLoop_spins (h : list server) (l : list ptr) :
  0 < Z.of_nat (length l) <= maxInt ->
  (forall s, s ∈ l -> weightOf h s = 0) ->
  forall fuel rr,
    loop_state h l rr -> 0 < currentWeight rr <= maxInt ->
    nextLoop fuel 0 0 rr = OutOfFuel.
Proof.
  intros HN Hz. induction fuel as [|fuel IH]; intros rr Hst Hc; [done|].
  pose proof Hst as (Hh & Hl & Hi).
  rewrite (nextLoop_turn h l 0 0 HN ltac:(lia) fuel rr Hst
             ltac:(unfold minInt, maxInt in *; lia)).
  set (i' := if index rr + 1 =? Z.of_nat (length l) then 0 else index rr + 1).
  assert (Hi' : 0 <= i' < Z.of_nat (length l))
    by (subst i'; destruct (Z.eqb_spec (index rr + 1) (Z.of_nat (length l))); lia).
  assert (Hc' : (if i' =? 0
                 then (if currentWeight rr - 0 <=? 0 then 0 else currentWeight rr - 0)
                 else currentWeight rr) = currentWeight rr).
  { destruct (i' =? 0); [|done].
    destruct (Z.leb_spec (currentWeight rr - 0) 0); lia. }
  rewrite Hc'.
  assert (Hne : (currentWeight rr =? 0) = false) by (apply Z.eqb_neq; lia).
  rewrite Hne, andb_false_r.
  destruct (lookup_turn l i' Hi') as (srv & Hsrv & Hin). rewrite Hsrv.
  rewrite (Hz srv Hin).
  destruct (Z.leb_spec (currentWeight rr) 0); [lia|].
  apply IH; [|done]. repeat split; cbn; first [done | lia].
Qed.

(** C9: a rotation that is not empty, of weights 0, with a positive
    accumulator.  The weights are non-negative and the iterator state is
    one the program reaches, and [NextServer] never returns: whatever the
    number of turns allowed, its loop uses them all, neither giving a
    Backend nor reaching its zero-weight error. *)
Theorem NextServer_stuck (rr : RoundRobin) :
  servers rr <> [] ->
  Z.of_nat (length (servers rr)) <= maxInt ->
  Forall (fun s => weight (deref rr s) = 0) (servers rr) ->
  -1 <= index rr < Z.of_nat (length (servers rr)) ->
  0 < currentWeight rr <= maxInt ->
  nonneg_weights rr /\
  (forall fuel, NextServer fuel rr = OutOfFuel) /\
  ~ (exists fuel x, NextServer fuel rr = Done x).
Proof.
  intros Hne HN Hz Hi Hc. rewrite Forall_forall in Hz.
  assert (Hnn : nonneg_weights rr).
  { unfold nonneg_weights. apply Forall_forall. intros s Hs. rewrite (Hz s Hs).
    unfold maxInt. lia. }
  assert (Hspin : forall fuel, NextServer fuel rr = OutOfFuel).
  { intros fuel. unfold NextServer.
    assert ((length (servers rr) =? 0)%nat = false) as -> by (by destruct (servers rr)).
    destruct (weightGcd_props rr Hne) as (_ & _ & HGzero).
    { intros s Hs. rewrite (Hz s Hs). lia. }
    assert (HM0 : maxWeight rr = 0).
    { destruct (servers rr) as [|s l] eqn:El; [done|].
      assert (Hs : s ∈ servers rr) by (rewrite El; left).
      rewrite <- El in *.
      pose proof (maxWeight_ge rr s Hs) as Hge. rewrite (Hz s Hs) in Hge.
      destruct (maxWeight_attained rr Hge) as (s' & Hs' & Hw').
      rewrite <- Hw'. by apply Hz. }
    rewrite HGzero by done. rewrite HM0.
    apply (nextLoop_spins (heap rr) (servers rr)); [|by intros s Hs; apply Hz|done|done].
    split; [|done]. destruct (servers rr); [done|cbn; lia]. }
  split; [done|]. split; [done|].
  intros (fuel & x & H). by rewrite Hspin in H.
Qed.

(** The theorem at the single Backend A, selected once (index 0,
    accumulator 1), then set to weight 0 by an upsert that fails on a later
    option and so resets nothing: four calls of the exported functions. *)
Lemma NextServer_stuck_witness :
  pool_stuck
  = fst (UpsertServer (Some A) [Weight 0; Weight (-1)]
           (match NextServer 1 (fst (UpsertServer (Some A) [] (New None))) with
            | Done (rr, _) => rr
            | _ => New None
            end)) /\
  snd (UpsertServer (Some A) [Weight 0; Weight (-1)] poolA_called)
  = Some ErrNegativeWeight /\
  servers pool_stuck = [0%nat] /\ weight (deref pool_stuck 0%nat) = 0 /\
  index pool_stuck = 0 /\ currentWeight pool_stuck = 1 /\
  nonneg_weights pool_stuck /\
  (forall fuel, NextServer fuel pool_stuck = OutOfFuel) /\
  ~ (exists fuel x, NextServer fuel pool_stuck = Done x).
Proof.
  do 6 (split; [reflexivity|]).
  apply (NextServer_stuck pool_stuck).
  - vm_compute. discriminate.
  - vm_compute. discriminate.
  - apply (bool_decide_unpack _). vm_compute. reflexivity.
  - split; vm_compute; [discriminate|reflexivity].
  - split; vm_compute; [reflexivity|discriminate].
Defined.

(** ** The schedule *)

Lemma NextServers_mono n fuel fuel' : forall rr x,
  (fuel <= fuel')%nat -> NextServers fuel n rr = Done x -> NextServers fuel' n rr = Done x.
Proof.
  induction n as [|n IH]; intros rr x Hle H; [done|].
  cbn [NextServers] in *.
  destruct (NextServer fuel rr) as [[rr1 r]| | |] eqn:E1; try done.
  rewrite (NextServer_mono _ _ _ _ Hle E1).
  destruct (NextServers fuel n rr1) as [[rr2 rs]| | |] eqn:E2; try done.
  by rewrite (IH _ _ Hle E2).
Qed.

(** C2: the rotation A, B, C upserted in that order with weights 1, 2, 3 is
    freshly reset, and six consecutive calls of [NextServer], each given at
    least three turns of its loop, succeed and return C, B, C, A, B, C:
    A once, B twice, C three times. *)
Theorem NextServer_weights_1_2_3 :
  index pool123 = -1 /\ currentWeight pool123 = 0 /\
  map (fun p => (url (deref pool123 p), weight (deref pool123 p))) (servers pool123)
    = [(A, 1); (B, 2); (C, 3)] /\
  forall fuel, (3 <= fuel)%nat ->
    exists rr' picked,
      NextServers fuel 6 pool123 = Done (rr', map (fun p => (Some p, None)) picked) /\
      map (fun p => url (deref pool123 p)) picked = [C; B; C; A; B; C] /\
      map (fun p => weight (deref pool123 p)) picked = [3; 2; 3; 1; 2; 3] /\
      length (List.filter (fun p => sameURL A (url (deref pool123 p))) picked) = 1%nat /\
      length (List.filter (fun p => sameURL B (url (deref pool123 p))) picked) = 2%nat /\
      length (List.filter (fun p => sameURL C (url (deref pool123 p))) picked) = 3%nat.
Proof.
  split; [reflexivity|]. split; [reflexivity|]. split; [vm_compute; reflexivity|].
  intros fuel Hfuel.
  assert (H3 : exists rr', NextServers 3 6 pool123
             = Done (rr', map (fun p => (Some p, None)) [2; 1; 2; 0; 1; 2]%nat)).
  { eexists. vm_compute. reflexivity. }
  destruct H3 as [rr' H3].
  exists rr', [2; 1; 2; 0; 1; 2]%nat.
  split; [by apply (NextServers_mono 6 3 fuel)|].
  repeat split; vm_compute; reflexivity.
Qed.

(** C3 (the code at the failing input): A and B both carry weight 0.  From
    the reset state [NextServer] fails with the zero-weight error and leaves
    index 0 and accumulator 0; the next call returns B, without error. *)
Theorem NextServer_zero_weights_second_call :
  map (fun p => (url (deref pool00 p), weight (deref pool00 p))) (servers pool00)
    = [(A, 0); (B, 0)] /\
  (forall fuel, (1 <= fuel)%nat ->
     NextServer fuel pool00 = Done (pool00_called, (None, Some ErrZeroWeight))) /\
  map (fun p => (url (deref pool00_called p), weight (deref pool00_called p)))
      (servers pool00_called) = [(A, 0); (B, 0)] /\
  index pool00_called = 0 /\ currentWeight pool00_called = 0 /\
  (forall fuel, (1 <= fuel)%nat ->
     exists rr', NextServer fuel pool00_called = Done (rr', (Some 1%nat, None))) /\
  url (deref pool00_called 1%nat) = B.
Proof.
  split; [vm_compute; reflexivity|]. split.
  { intros fuel Hfuel. apply (NextServer_mono 1 fuel); [done|]. vm_compute. reflexivity. }
  split; [vm_compute; reflexivity|]. split; [reflexivity|]. split; [reflexivity|]. split.
  { intros fuel Hfuel.
    assert (H1 : exists rr', NextServer 1 pool00_called = Done (rr', (Some 1%nat, None)))
      by (eexists; vm_compute; reflexivity).
    destruct H1 as [rr' H1]. exists rr'. by apply (NextServer_mono 1 fuel). }
  vm_compute. reflexivity.
Qed.

(** C6 (the code at the failing input): on the empty pool, upserting A with
    [Weight(0)] succeeds and registers it with weight 1, as an upsert
    without option does; [Weight(0)] on the Backend once registered sets
    its weight to 0. *)
Theorem UpsertServer_Weight_0 :
  UpsertServer (Some A) [Weight 0] (New None)
    = UpsertServer (Some A) [] (New None) /\
  snd (UpsertServer (Some A) [Weight 0] (New None)) = None /\
  ServerWeight A (fst (UpsertServer (Some A) [Weight 0] (New None))) = (1, true) /\
  ServerWeight A (fst (UpsertServer (Some A) [Weight 0]
                         (fst (UpsertServer (Some A) [] (New None))))) = (0, true).
Proof. repeat split; vm_compute; reflexivity. Qed.

(** ** Upsert and remove *)

Lemma sameURL_refl u : sameURL u u = true.
Proof. unfold sameURL. by rewrite !String.eqb_refl. Qed.

Lemma callOption_url o s : url (fst (callOption o s)) = url s.
Proof. destruct o; cbn; [case_match|..]; done. Qed.

(** No option changes the URL of a server. *)
Lemma applyOptions_url opts : forall s, url (fst (applyOptions opts s)) = url s.
Proof.
  induction opts as [|o opts IH]; intros s; [done|].
  cbn [applyOptions]. pose proof (callOption_url o s) as Ho.
  destruct (callOption o s) as [s' [e|]]; cbn in *; [done|].
  by rewrite IH.
Qed.

Lemma deref_alloc_old rr v p :
  (p < length (heap rr))%nat -> deref (with_heap (heap rr ++ [v]) rr) p = deref rr p.
Proof. intros Hp. unfold deref. cbn. by apply app_nth1. Qed.

Lemma deref_alloc_new rr v : deref (with_heap (heap rr ++ [v]) rr) (length (heap rr)) = v.
Proof. unfold deref. cbn. by rewrite nth_middle. Qed.

Lemma url_deref_store rr p v q :
  url v = url (deref rr p) -> url (deref (store p v rr) q) = url (deref rr q).
Proof.
  intros Hv. unfold deref, store. cbn.
  rewrite !nth_lookup.
  destruct (decide (q = p)) as [->|Hne].
  - destruct (decide (p < length (heap rr))%nat) as [Hlt|Hge].
    + rewrite list_lookup_insert_eq by done. cbn.
      unfold deref in Hv. by rewrite nth_lookup in Hv.
    + by rewrite list_insert_ge by lia.
  - by rewrite list_lookup_insert_ne.
Qed.

(** The search looks at the URLs of the rotation only. *)
Lemma findFrom_ext rr rr' u l : forall i,
  Forall (fun p => url (deref rr p) = url (deref rr' p)) l ->
  findFrom rr u i l = findFrom rr' u i l.
Proof.
  induction l as [|p l IH]; intros i Hl; [done|].
  apply Forall_cons in Hl as [Hp Hl]. cbn [findFrom]. rewrite Hp.
  case_match; [done|]. by apply IH.
Qed.

Lemma findFrom_None rr u l : forall i,
  fst (findFrom rr u i l) = None <->
  Forall (fun p => sameURL u (url (deref rr p)) = false) l.
Proof.
  induction l as [|p l IH]; intros i; cbn [findFrom]; [by split|].
  destruct (sameURL u (url (deref rr p))) eqn:E; cbn.
  - split; [done|]. intros H. apply Forall_cons in H as [H _]. congruence.
  - rewrite IH. split; [by constructor|]. intros H. by apply Forall_cons in H as [_ H].
Qed.

Lemma findFrom_app rr u l1 l2 : forall i,
  fst (findFrom rr u i l1) = None ->
  findFrom rr u i (l1 ++ l2) = findFrom rr u (i + Z.of_nat (length l1)) l2.
Proof.
  induction l1 as [|p l1 IH]; intros i H; cbn [findFrom app length] in *.
  - f_equal. lia.
  - destruct (sameURL u (url (deref rr p))); [done|].
    rewrite IH by done. f_equal. lia.
Qed.

(** Where the search finds a Backend: its URL is the one looked for, and
    the index is its place in the rotation. *)
Lemma findFrom_Some rr u l : forall i p j,
  findFrom rr u i l = (Some p, j) ->
  sameURL u (url (deref rr p)) = true /\ i <= j /\
  l !! Z.to_nat (j - i) = Some p /\
  Forall (fun q => sameURL u (url (deref rr q)) = false) (take (Z.to_nat (j - i)) l).
Proof.
  induction l as [|q l IH]; intros i p j H; cbn [findFrom] in H; [done|].
  destruct (sameURL u (url (deref rr q))) eqn:E.
  - injection H as <- <-. rewrite Z.sub_diag. cbn. repeat split; [done|lia|constructor].
  - apply IH in H as (H1 & H2 & H3 & H4).
    replace (Z.to_nat (j - i)) with (S (Z.to_nat (j - (i + 1)))) by lia.
    cbn. repeat split; [done|lia|done|by constructor].
Qed.

Lemma count_URL_ext u rr rr' :
  servers rr' = servers rr ->
  Forall (fun p => url (deref rr' p) = url (deref rr p)) (servers rr) ->
  count_URL u rr' = count_URL u rr.
Proof.
  unfold count_URL. intros -> H. f_equal.
  induction (servers rr) as [|p l IH]; [done|].
  apply Forall_cons in H as [Hp H]. cbn. rewrite Hp, IH; done.
Qed.


(** Appending a new Backend for a URL that the rotation does not hold. *)
Section Append.
Variables (rr : RoundRobin) (u : URL) (srv : server) (m : gmap N ptr).
Hypothesis Hwf : wf rr.
Hypothesis Hnone : fst (findServerByURL rr u) = None.
Hypothesis Hurl : url srv = u.

Local Abbreviation p := (length (heap rr)).
Local Abbreviation rr1 :=
  (resetState (with_servers (servers rr ++ [p])
                 (with_stickyServers m (with_heap (heap rr ++ [srv]) rr)))).

Lemma append_old_urls :
  Forall (fun q => url (deref rr1 q) = url (deref rr q)) (servers rr).
Proof.
  destruct Hwf as [Hs _]. eapply Forall_impl; [exact Hs|].
  intros q Hq. cbn beta in Hq.
  change (deref rr1 q) with (deref (with_heap (heap rr ++ [srv]) rr) q).
  by rewrite deref_alloc_old.
Qed.

Lemma append_new_url : url (deref rr1 p) = u.
Proof.
  change (deref rr1 p) with (deref (with_heap (heap rr ++ [srv]) rr) p).
  by rewrite deref_alloc_new.
Qed.

Lemma append_find :
  findServerByURL rr1 u = (Some p, Z.of_nat (length (servers rr))).
Proof.
  unfold findServerByURL. change (servers rr1) with (servers rr ++ [p]).
  assert (Hn : fst (findFrom rr1 u 0 (servers rr)) = None).
  { erewrite findFrom_ext; [exact Hnone|]. apply append_old_urls. }
  rewrite findFrom_app by done. cbn [findFrom].
  by rewrite append_new_url, sameURL_refl.
Qed.


End Append.


(** C4 (as amended): after an [UpsertServer] call that returns no error and
    has updated a Backend of the rotation or changed the rotation, and
    after a [RemoveServer] call that returns no error, the iterator state
    is index -1 and accumulator 0.  An [UpsertServer] call that creates a
    group-only Backend (a URL that the rotation does not hold, options that
    succeed and give sticky routing only with a status other than FULL)
    returns no error, stores the Backend and registers it in the group map
    only, and leaves the rotation and the iterator state as they were. *)
Theorem mutation_resets_iterator (rr rr' : RoundRobin) (u : URL) (opts : list ServerOption) :
  ((UpsertServer (Some u) opts rr = (rr', None) /\
    (is_Some (fst (findServerByURL rr u)) \/ servers rr' <> servers rr))
   \/ RemoveServer u rr = (rr', None) ->
   index rr' = -1 /\ currentWeight rr' = 0) /\
  (forall s0 r,
     fst (findServerByURL rr u) = None ->
     applyOptions opts (zero_server (CopyURL u)) = (s0, None) ->
     routing_ s0 = Some r -> stickyRoutingOnly r = true -> status r <> "FULL" ->
     snd (UpsertServer (Some u) opts rr) = None /\
     servers (fst (UpsertServer (Some u) opts rr)) = servers rr /\
     stickyServers (fst (UpsertServer (Some u) opts rr))
     = <[groupID r := length (heap rr)]> (stickyServers rr) /\
     url (deref (fst (UpsertServer (Some u) opts rr)) (length (heap rr))) = u /\
     index (fst (UpsertServer (Some u) opts rr)) = index rr /\
     currentWeight (fst (UpsertServer (Some u) opts rr)) = currentWeight rr).
Proof.
  split.
  - intros [[Hup Hch]|Hrm].
    + unfold UpsertServer in Hup.
      destruct (findServerByURL rr u) as [[q|] j] eqn:Ef.
      * destruct (applyOptions opts (deref rr q)) as [v [e|]]; [done|].
        by injection Hup as <-.
      * destruct Hch as [[? ?]|Hch]; [done|].
        destruct (applyOptions opts (zero_server (CopyURL u))) as [s0 [e|]].
        { injection Hup as <-. done. }
        cbn [alloc] in Hup.
        destruct (routing_ _) as [r|].
        -- destruct (String.eqb (status r) "FULL" || negb (stickyRoutingOnly r));
             injection Hup as <-; done.
        -- by injection Hup as <-.
    + unfold RemoveServer in Hrm.
      destruct (findServerByURL rr u) as [[q|] j]; [|done].
      by destruct (routing_ _); injection Hrm as <-.
  - intros s0 r Hnone Happ Hr Hso Hst. unfold UpsertServer.
    destruct (findServerByURL rr u) as [[q|] j] eqn:Ef; [done|].
    pose proof (applyOptions_url opts (zero_server (CopyURL u))) as Hu.
    rewrite Happ in Hu |- *. cbn [fst] in Hu.
    set (srv := if weight s0 =? 0 then _ else s0).
    assert (Hsrv : url srv = u) by (subst srv; by destruct (weight s0 =? 0)).
    assert (Hr' : routing_ srv = Some r) by (subst srv; by destruct (weight s0 =? 0)).
    cbn [alloc]. rewrite Hr', Hso.
    assert (Hfull : String.eqb (status r) "FULL" = false) by (by apply String.eqb_neq).
    rewrite Hfull. cbn [orb negb fst snd].
    repeat split.
    change (deref (with_stickyServers ?m ?x) ?p) with (deref x p).
    by rewrite deref_alloc_new.
Qed.

(** The theorem at an update of A in the rotation of weights 1, 2, 3 after
    one selection, and at the creation of B as a group-only Backend after a
    selection of A. *)
Lemma mutation_resets_iterator_witness :
  (index (fst (UpsertServer (Some A) [Weight 5] (with_currentWeight 3 (with_index 2 pool123)))) = -1 /\
   currentWeight (fst (UpsertServer (Some A) [Weight 5] (with_currentWeight 3 (with_index 2 pool123)))) = 0) /\
  (index (fst (UpsertServer (Some B) group_only_B poolA_called)) = index poolA_called /\
   currentWeight (fst (UpsertServer (Some B) group_only_B poolA_called))
   = currentWeight poolA_called).
Proof.
  split.
  - apply (mutation_resets_iterator (with_currentWeight 3 (with_index 2 pool123)) _ A [Weight 5]).
    left. split; [vm_compute; reflexivity|].
    left. vm_compute. eexists. reflexivity.
  - destruct (mutation_resets_iterator poolA_called poolA_called B group_only_B) as [_ H].
    destruct (H _ _ ltac:(vm_compute; reflexivity) eq_refl eq_refl eq_refl
                ltac:(vm_compute; discriminate)) as (_ & _ & _ & _ & H1 & H2).
    by split.
Defined.

(** C4 (counterexample): A alone, selected once, leaves index 0 and
    accumulator 1; the upsert of B as a group-only Backend (sticky routing
    only, status not FULL) succeeds, registers B in the group map and not in
    the rotation, and leaves the iterator where it was. *)
Lemma UpsertServer_group_only_keeps_iterator :
  snd (UpsertServer (Some B) group_only_B poolA_called) = None /\
  servers (fst (UpsertServer (Some B) group_only_B poolA_called)) = [0%nat] /\
  stickyServers (fst (UpsertServer (Some B) group_only_B poolA_called)) !! 7%N = Some 1%nat /\
  url (deref (fst (UpsertServer (Some B) group_only_B poolA_called)) 1%nat) = B /\
  index (fst (UpsertServer (Some B) group_only_B poolA_called)) = 0 /\
  currentWeight (fst (UpsertServer (Some B) group_only_B poolA_called)) = 1 /\
  ~ (index (fst (UpsertServer (Some B) group_only_B poolA_called)) = -1 /\
     currentWeight (fst (UpsertServer (Some B) group_only_B poolA_called)) = 0).
Proof.
  repeat split; try (vm_compute; reflexivity).
  intros [H _]. vm_compute in H. discriminate.
Qed.




(** ** The rewritten URL *)

(** C7: when the selected Backend has [pathRewrite] set, the path of the
    request handed on is [path.Join] of the Backend's path and the incoming
    path, with a slash appended when the incoming path ends in one and the
    join does not; the join is in normal form (single slashes, no [.], no
    [..] but at the head of a relative path); a trailing slash of the
    incoming path is kept; raw path, query and fragment are the incoming
    ones, scheme and host the Backend's. *)
Theorem rewriteURL_joins_paths (srv : server) (reqURL : URL) :
  pathRewrite srv = true ->
  Path (rewriteURL srv reqURL) =
    (if GoStrings.HasSuffix (Path reqURL) "/"
        && negb (GoStrings.HasSuffix (GoPath.Join [Path (url srv); Path reqURL]) "/")
     then GoPath.Join [Path (url srv); Path reqURL] +:+ "/"
     else GoPath.Join [Path (url srv); Path reqURL]) /\
  (Path (url srv) <> "" \/ Path reqURL <> "" ->
   exists rooted elems,
     GoPath.normal_elems rooted elems /\
     GoPath.Join [Path (url srv); Path reqURL] = GoPath.render rooted elems) /\
  (GoStrings.HasSuffix (Path reqURL) "/" = true ->
   GoStrings.HasSuffix (Path (rewriteURL srv reqURL)) "/" = true) /\
  RawQuery (rewriteURL srv reqURL) = RawQuery reqURL /\
  RawPath (rewriteURL srv reqURL) = RawPath reqURL /\
  Fragment (rewriteURL srv reqURL) = Fragment reqURL /\
  Scheme (rewriteURL srv reqURL) = Scheme (url srv) /\
  Host (rewriteURL srv reqURL) = Host (url srv).
Proof.
  intros Hrw.
  assert (Hjoin : GoPath.Join
            [if GoStrings.HasSuffix (Path (url srv)) "/" then Path (url srv) +:+ "/"
             else Path (url srv); Path reqURL]
          = GoPath.Join [Path (url srv); Path reqURL]).
  { destruct (GoStrings.HasSuffix (Path (url srv)) "/") eqn:Hs; [|done].
    apply strings_spec.HasSuffix_nonempty in Hs as Hne; [|done].
    rewrite !path_spec.Join_two.
    destruct (String.eqb_spec (Path (url srv)) "") as [|_]; [done|].
    destruct (String.eqb_spec (Path (url srv) +:+ "/") "") as [E|_].
    { by apply strings_spec.append_eq_nil in E as [_ ?]. }
    rewrite strings_spec.append_assoc. by apply path_spec.Clean_double_slash. }
  assert (Hpath : Path (rewriteURL srv reqURL) =
    (if GoStrings.HasSuffix (Path reqURL) "/"
        && negb (GoStrings.HasSuffix (GoPath.Join [Path (url srv); Path reqURL]) "/")
     then GoPath.Join [Path (url srv); Path reqURL] +:+ "/"
     else GoPath.Join [Path (url srv); Path reqURL])).
  { unfold rewriteURL. rewrite Hrw. cbn [Path]. by rewrite Hjoin. }
  split; [exact Hpath|]. split; [|split].
  - intros Hne. rewrite path_spec.Join_two.
    destruct (String.eqb_spec (Path (url srv)) "") as [Ea|Ea].
    + destruct (String.eqb_spec (Path reqURL) "") as [Eb|Eb]; [by destruct Hne|].
      destruct (path_spec.Clean_normal _ Eb) as (elems & H1 & H2). by eexists _, elems.
    + assert (E : Path (url srv) +:+ "/" +:+ Path reqURL <> "").
      { intros E. by apply strings_spec.append_eq_nil in E as [? _]. }
      destruct (path_spec.Clean_normal _ E) as (elems & H1 & H2). by eexists _, elems.
  - intros Hs. rewrite Hpath, Hs. cbn [andb].
    destruct (GoStrings.HasSuffix (GoPath.Join _) "/") eqn:Hj; cbn [negb]; [done|].
    apply strings_spec.HasSuffix_append.
  - unfold rewriteURL. rewrite Hrw. done.
Qed.

(** The theorem at a Backend under [/api/] and a path with [.], [..] and a
    doubled slash. *)
Lemma rewriteURL_joins_paths_witness :
  Path (rewriteURL srv_api url_dots) = "/api/a/c/d/" /\
  RawQuery (rewriteURL srv_api url_dots) = "q=1".
Proof.
  destruct (rewriteURL_joins_paths srv_api url_dots eq_refl) as (H1 & _ & _ & H2 & _).
  split; [rewrite H1; vm_compute; reflexivity|rewrite H2; reflexivity].
Defined.

(** ** The handler *)

Ltac go :=
  unfold mbind, Go_bind, mret, Go_ret, getPool, emit, ucSet, panic;
  cbn [pool uc written fst snd negb].

Section HandlerFacts.
Variable url_Parse : string -> URL + error.
Variable url_String : URL -> string.
Variable SignedJSIDFromHeader : Header -> option SignedJSID * option error.

Lemma verifyKeys_stuck sj keys : verifyKeys sj keys true = true.
Proof.
  unfold verifyKeys. induction keys as [|k keys IH]; [done|].
  cbn [fold_left]. by destruct (Verify sj k).
Qed.

(** The Backend of the cookie is a Backend of the list searched. *)
Lemma isBackendAlive_Some rr needle haystack p :
  isBackendAlive rr needle haystack = Some p ->
  p ∈ haystack /\ sameURL needle (url (deref rr p)) = true.
Proof.
  induction haystack as [|s rest IH]; cbn [isBackendAlive]; [done|].
  destruct (sameURL needle (url (deref rr s))) eqn:E.
  - intros [= <-]. split; [left|done].
  - intros H. destruct (IH H). split; [by right|done].
Qed.
End HandlerFacts.

(** C1 (the code at the failing input): the cookie of the request resolves
    to the live Backend [a]; the request carries a token, parsed without
    error, whose group the group map sends to [b].  The request is handed
    on once, with the URL rewritten for [b], whether or not the token
    verifies under a key of [b]; and when the group map has no Backend for
    the group of the token, the handler panics on a nil Backend and hands
    nothing on. *)
Theorem ServeHTTP_group_overrides_cookie
    (url_Parse : string -> URL + error) (url_String : URL -> string)
    (SignedJSIDFromHeader : Header -> option SignedJSID * option error)
    (fuel : nat) (rr : RoundRobin) (req : Request) (s : StickySession)
    (a : ptr) (sj : SignedJSID) :
  ss rr = Some s ->
  GetBackend url_Parse s req rr (Servers rr) = (Some a, true, None) ->
  SignedJSIDFromHeader (req_Header req) = (Some sj, None) ->
  (forall b r,
     stickyServers rr !! GetGroupID sj = Some b -> routing_ (deref rr b) = Some r ->
     written (snd (handle url_Parse url_String SignedJSIDFromHeader fuel rr req))
     = [NextServe (rewriteURL (deref rr b) (req_URL req))]) /\
  (stickyServers rr !! GetGroupID sj = None ->
   fst (handle url_Parse url_String SignedJSIDFromHeader fuel rr req) = Panic nil_dereference /\
   written (snd (handle url_Parse url_String SignedJSIDFromHeader fuel rr req)) = []).
Proof.
  intros Hss Hcookie Htoken.
  unfold handle, ServeHTTP. go. rewrite Hss, Hcookie.
  unfold groupStick. rewrite Htoken. go. split.
  - intros b r Hb Hr. rewrite Hb, Hr. go. rewrite verifyKeys_stuck. cbn [negb].
    unfold pick. cbn [negb]. unfold serve. go. by destruct (upstream_ctx req).
  - intros Hb. rewrite Hb. go. unfold pick. cbn [negb]. done.
Qed.

(** The theorem at the sticky pool: the cookie names A, a live Backend, the
    token is of group 7, the group of B; the request goes to B. *)
Lemma ServeHTTP_group_overrides_cookie_witness :
  GetBackend url_Parse_example (mkStickySession "sess") req_sticky_A pool_sticky
    (Servers pool_sticky) = (Some 0%nat, true, None) /\
  url (deref pool_sticky 0%nat) = A /\
  written (snd (handle url_Parse_example url_String_example jsid_example 3
                  pool_sticky req_sticky_A))
  = [NextServe (rewriteURL (deref pool_sticky 1%nat) (req_URL req_sticky_A))] /\
  Host (rewriteURL (deref pool_sticky 1%nat) (req_URL req_sticky_A)) = "b".
Proof.
  split; [vm_compute; reflexivity|]. split; [vm_compute; reflexivity|]. split.
  - eapply (proj1 (ServeHTTP_group_overrides_cookie url_Parse_example url_String_example
              jsid_example 3 pool_sticky req_sticky_A (mkStickySession "sess") 0%nat
              _ eq_refl ltac:(vm_compute; reflexivity) eq_refl)).
    + vm_compute. reflexivity.
    + vm_compute. reflexivity.
  - vm_compute. reflexivity.
Defined.

(** ** More on the arithmetic of the selection *)

Lemma Zgcd_fold_greatest rr (l : list ptr) d : forall acc,
  (d | acc) -> (forall s, s ∈ l -> (d | weight (deref rr s))) ->
  (d | fold_left (fun g s => Z.gcd g (weight (deref rr s))) l acc).
Proof.
  induction l as [|x l IH]; intros acc Ha Hl; [done|]. cbn [fold_left].
  apply IH; [|intros s Hs; apply Hl; by right].
  apply Z.gcd_greatest; [done|]. apply Hl. left.
Qed.

(** On non-negative arguments [gcd] returns the greatest common divisor:
    a common divisor that every common divisor divides. *)
Theorem gcd_greatest_common_divisor (a b : Z) :
  0 <= a -> 0 <= b ->
  0 <= gcd a b /\ (gcd a b | a) /\ (gcd a b | b) /\
  (forall d, (d | a) -> (d | b) -> (d | gcd a b)).
Proof.
  intros Ha Hb. rewrite gcd_Zgcd by done.
  split; [apply Z.gcd_nonneg|]. split; [apply Z.gcd_divide_l|].
  split; [apply Z.gcd_divide_r|]. intros d. apply Z.gcd_greatest.
Qed.

Lemma gcd_greatest_common_divisor_witness :
  gcd 12 18 = 6 /\ (gcd 12 18 | 12) /\ (gcd 12 18 | 18).
Proof.
  destruct (gcd_greatest_common_divisor 12 18 ltac:(lia) ltac:(lia)) as (_ & H1 & H2 & _).
  split; [vm_compute; reflexivity|]. by split.
Defined.

(** [maxWeight] is -1 on the empty rotation; on a rotation of non-negative
    weights that is not empty it is the weight of one of its Backends and
    no Backend has a larger one. *)
Theorem maxWeight_is_maximum (rr : RoundRobin) :
  nonneg_weights rr ->
  (servers rr = [] -> maxWeight rr = -1) /\
  (servers rr <> [] ->
   (forall s, s ∈ servers rr -> weight (deref rr s) <= maxWeight rr) /\
   (exists s, s ∈ servers rr /\ weight (deref rr s) = maxWeight rr)).
Proof.
  intros Hnn. split.
  - unfold maxWeight. by intros ->.
  - intros Hne. split; [apply maxWeight_ge|].
    apply maxWeight_attained.
    assert (exists s, s ∈ servers rr) as [s Hs]
      by (destruct (servers rr); [done|eexists; left]).
    pose proof (maxWeight_ge rr s Hs).
    unfold nonneg_weights in Hnn. rewrite Forall_forall in Hnn.
    specialize (Hnn s Hs). lia.
Qed.

Lemma maxWeight_is_maximum_witness :
  maxWeight pool123 = 3 /\
  exists s, s ∈ servers pool123 /\ weight (deref pool123 s) = maxWeight pool123.
Proof.
  assert (Hnn : nonneg_weights pool123).
  { unfold nonneg_weights. apply (bool_decide_unpack _). vm_compute. reflexivity. }
  destruct (maxWeight_is_maximum pool123 Hnn) as [_ H].
  destruct H as [_ H]; [vm_compute; discriminate|].
  split; [vm_compute; reflexivity|exact H].
Defined.

(** [weightGcd] is -1 on the empty rotation; on a rotation of non-negative
    weights that is not empty it is their greatest common divisor, and it
    is 0 exactly when every weight is 0. *)
Theorem weightGcd_is_gcd (rr : RoundRobin) :
  nonneg_weights rr ->
  (servers rr = [] -> weightGcd rr = -1) /\
  (servers rr <> [] ->
   0 <= weightGcd rr /\
   (forall s, s ∈ servers rr -> (weightGcd rr | weight (deref rr s))) /\
   (forall d, (forall s, s ∈ servers rr -> (d | weight (deref rr s))) -> (d | weightGcd rr)) /\
   (weightGcd rr = 0 <-> forall s, s ∈ servers rr -> weight (deref rr s) = 0)).
Proof.
  intros Hnn. unfold nonneg_weights in Hnn. rewrite Forall_forall in Hnn.
  assert (Hnn' : forall s, s ∈ servers rr -> 0 <= weight (deref rr s))
    by (intros s Hs; apply Hnn in Hs; lia).
  split; [unfold weightGcd; by intros ->|].
  intros Hne. destruct (weightGcd_props rr Hne Hnn') as (H0 & Hdiv & Hzero).
  split; [done|]. split; [done|]. split.
  - intros d Hd. unfold weightGcd.
    destruct (servers rr) as [|x l] eqn:E; [done|].
    cbn [fold_left]. change (-1 =? -1) with true. cbv iota.
    rewrite gcd_fold_nonneg; [|apply Hnn'; left|intros s Hs; apply Hnn'; by right].
    apply Zgcd_fold_greatest; [apply Hd; left|]. intros s Hs. apply Hd. by right.
  - split; [|exact Hzero]. intros Hg s Hs.
    pose proof (Hdiv s Hs) as Hd. rewrite Hg in Hd. by apply Z.divide_0_l in Hd.
Qed.

Lemma weightGcd_is_gcd_witness :
  weightGcd pool123 = 1 /\
  forall s, s ∈ servers pool123 -> (weightGcd pool123 | weight (deref pool123 s)).
Proof.
  assert (Hnn : nonneg_weights pool123).
  { unfold nonneg_weights. apply (bool_decide_unpack _). vm_compute. reflexivity. }
  destruct (weightGcd_is_gcd pool123 Hnn) as [_ H].
  destruct H as (_ & H & _); [vm_compute; discriminate|].
  split; [vm_compute; reflexivity|exact H].
Defined.

(** ** Invariants of the pool *)

Lemma sameURL_true a b :
  sameURL a b = true <-> Path a = Path b /\ Host a = Host b /\ Scheme a = Scheme b.
Proof.
  unfold sameURL. rewrite !andb_true_iff, !String.eqb_eq. tauto.
Qed.

Lemma sameURL_sym a b : sameURL a b = sameURL b a.
Proof. unfold sameURL. by rewrite (String.eqb_sym (Path a)), (String.eqb_sym (Host a)), (String.eqb_sym (Scheme a)). Qed.

(** URLs that are the same to [sameURL] are so for every third one. *)
Lemma sameURL_equiv a b x : sameURL a b = true -> sameURL a x = sameURL b x.
Proof.
  intros H. apply sameURL_true in H as (H1 & H2 & H3).
  unfold sameURL. by rewrite H1, H2, H3.
Qed.

Lemma count_zero {X} (f : X -> bool) l :
  length (List.filter f l) = 0%nat <-> Forall (fun x => f x = false) l.
Proof.
  induction l as [|x l IH]; cbn [List.filter]; [by split|].
  destruct (f x) eqn:E; cbn [length].
  - split; [done|]. intros H. apply Forall_cons in H as [H _]. congruence.
  - rewrite IH. split; [by constructor|]. intros H. by apply Forall_cons in H as [_ H].
Qed.

Lemma filter_ext_Forall {X} (f g : X -> bool) l :
  Forall (fun x => f x = g x) l -> List.filter f l = List.filter g l.
Proof.
  induction l as [|x l IH]; intros H; [done|].
  apply Forall_cons in H as [Hx H]. cbn [List.filter]. by rewrite Hx, IH.
Qed.

Lemma wf_store rr p v : wf rr -> wf (store p v rr).
Proof.
  intros [H1 H2]. split; cbn [store with_heap heap servers stickyServers];
    [eapply Forall_impl; [exact H1|]|eapply map_Forall_impl; [exact H2|]];
    cbn beta; intros; by rewrite length_insert.
Qed.

Lemma wf_alloc rr v m :
  wf rr -> map_Forall (fun _ p => (p < S (length (heap rr)))%nat) m ->
  forall l, Forall (fun p => (p < S (length (heap rr)))%nat) l ->
  wf (with_servers l (with_stickyServers m (with_heap (heap rr ++ [v]) rr))).
Proof.
  intros _ Hm l Hl.
  split; cbn [with_servers with_stickyServers with_heap heap servers stickyServers];
    rewrite length_app; cbn [length]; rewrite Nat.add_1_r; done.
Qed.

Section AppendMore.
Variables (rr : RoundRobin) (u : URL) (srv : server) (m : gmap N ptr).
Hypothesis Hwf : wf rr.
Hypothesis Hnone : fst (findServerByURL rr u) = None.
Hypothesis Hurl : url srv = u.

Local Abbreviation p := (length (heap rr)).
Local Abbreviation rr1 :=
  (resetState (with_servers (servers rr ++ [p])
                 (with_stickyServers m (with_heap (heap rr ++ [srv]) rr)))).

Lemma append_count_other u' :
  count_URL u' rr1 = (count_URL u' rr + if sameURL u' u then 1 else 0)%nat.
Proof.
  unfold count_URL. change (servers rr1) with (servers rr ++ [p]).
  rewrite List.filter_app, length_app. cbn [List.filter].
  rewrite (append_new_url rr u srv m Hurl).
  f_equal; [|by destruct (sameURL u' u)].
  f_equal. apply filter_ext_Forall.
  eapply Forall_impl; [exact (append_old_urls rr srv m Hwf)|].
  cbn beta. by intros q ->.
Qed.

Lemma append_unique : unique_URLs rr -> unique_URLs rr1.
Proof.
  intros Hun u'. rewrite append_count_other.
  destruct (sameURL u' u) eqn:E; [|specialize (Hun u'); lia].
  assert (count_URL u' rr = 0%nat); [|lia].
  unfold count_URL. apply count_zero.
  apply findFrom_None in Hnone. eapply Forall_impl; [exact Hnone|].
  cbn beta. intros q Hq. by rewrite (sameURL_equiv u' u).
Qed.
End AppendMore.

Lemma filter_length_remove {X} (f : X -> bool) l i :
  (length (List.filter f (take i l ++ drop (S i) l)) <= length (List.filter f l))%nat.
Proof.
  destruct (l !! i) as [x|] eqn:E.
  - rewrite <- (take_drop_middle l i x E) at 3.
    rewrite !List.filter_app, !length_app. cbn [List.filter].
    destruct (f x); cbn [length]; lia.
  - apply lookup_ge_None in E.
    rewrite take_ge, drop_ge, app_nil_r by lia. done.
Qed.

(** What a successful [RemoveServer] leaves. *)
Lemma RemoveServer_ok rr u rr' :
  RemoveServer u rr = (rr', None) ->
  exists e i, findServerByURL rr u = (Some e, i) /\
    heap rr' = heap rr /\
    servers rr' = take (Z.to_nat i) (servers rr) ++ drop (S (Z.to_nat i)) (servers rr) /\
    (stickyServers rr' = stickyServers rr \/
     exists g, stickyServers rr' = delete g (stickyServers rr)).
Proof.
  unfold RemoveServer. intros H.
  destruct (findServerByURL rr u) as [[e|] i] eqn:Ef; [|done].
  exists e, i. split; [done|].
  apply findFrom_Some in Ef as (_ & Hi & _).
  replace (Z.to_nat (i + 1)) with (S (Z.to_nat i)) in H by lia.
  destruct (routing_ _) as [r|]; injection H as <-; cbn;
    (split; [done|]); (split; [done|]); [right; by eexists|by left].
Qed.

(** The balancer [New] returns, and every balancer got from it by
    [UpsertServer] and [RemoveServer] calls, whatever they return: each
    pointer it holds is to a stored Backend, and its rotation holds one
    Backend for a URL at most. *)
Theorem pool_invariants :
  (forall s, wf (New s) /\ unique_URLs (New s)) /\
  (forall rr, wf rr -> unique_URLs rr ->
     (forall u opts,
        wf (fst (UpsertServer u opts rr)) /\ unique_URLs (fst (UpsertServer u opts rr))) /\
     (forall u,
        wf (fst (RemoveServer u rr)) /\ unique_URLs (fst (RemoveServer u rr)))).
Proof.
  split.
  { intros s. split; [split; [constructor|apply map_Forall_empty]|]. intros u. cbn. lia. }
  intros rr Hwf Hun. split.
  - intros [u|] opts; [|done]. unfold UpsertServer.
    destruct (findServerByURL rr u) as [[q|] j] eqn:Ef.
    + pose proof (applyOptions_url opts (deref rr q)) as Hv.
      assert (Hst : forall v, url v = url (deref rr q) ->
                wf (store q v rr) /\ unique_URLs (store q v rr)).
      { intros v Hu. split; [by apply wf_store|]. intros u'.
        rewrite (count_URL_ext u' rr (store q v rr)); [apply Hun|done|].
        apply Forall_forall. intros x _. by apply url_deref_store. }
      destruct (applyOptions opts (deref rr q)) as [v [e|]]; cbn [fst] in *;
        destruct (Hst v Hv); done.
    + pose proof (applyOptions_url opts (zero_server (CopyURL u))) as Hu.
      destruct (applyOptions opts (zero_server (CopyURL u))) as [s0 [e|]]; cbn [fst] in Hu;
        [done|].
      set (srv := if weight s0 =? 0 then _ else s0).
      assert (Hsrv : url srv = u) by (subst srv; by destruct (weight s0 =? 0)).
      assert (Hr : routing_ srv = routing_ s0) by (subst srv; by destruct (weight s0 =? 0)).
      assert (Hnone : fst (findServerByURL rr u) = None) by (by rewrite Ef).
      assert (Hold : Forall (fun x => (x < S (length (heap rr)))%nat) (servers rr)).
      { destruct Hwf as [H1 _]. eapply Forall_impl; [exact H1|]. cbn beta. lia. }
      assert (Hm : map_Forall (fun _ x => (x < S (length (heap rr)))%nat) (stickyServers rr)).
      { destruct Hwf as [_ H2]. eapply map_Forall_impl; [exact H2|]. cbn beta. lia. }
      assert (Happ : forall m,
        map_Forall (fun _ x => (x < S (length (heap rr)))%nat) m ->
        wf (resetState (with_servers (servers rr ++ [length (heap rr)])
              (with_stickyServers m (with_heap (heap rr ++ [srv]) rr))))
        /\ unique_URLs (resetState (with_servers (servers rr ++ [length (heap rr)])
              (with_stickyServers m (with_heap (heap rr ++ [srv]) rr))))).
      { intros m Hm'. split; [|by apply (append_unique rr u srv m Hwf Hnone Hsrv)].
        apply (wf_alloc rr srv m Hwf Hm'). apply Forall_app. split; [done|].
        repeat constructor. }
      cbn [alloc]. rewrite Hr. destruct (routing_ s0) as [r|].
      * assert (Hm' : map_Forall (fun _ x => (x < S (length (heap rr)))%nat)
                        (<[groupID r := length (heap rr)]> (stickyServers rr)))
          by (apply map_Forall_insert_2; [lia|done]).
        destruct (String.eqb (status r) "FULL" || negb (stickyRoutingOnly r)); cbn [fst].
        -- apply (Happ _ Hm').
        -- split; [by apply (wf_alloc rr srv _ Hwf Hm')|]. intros u'.
           rewrite (count_URL_ext u' rr); [apply Hun|done|].
           destruct Hwf as [H1 _]. eapply Forall_impl; [exact H1|]. cbn beta. intros x Hx.
           change (deref (with_stickyServers _ ?y) x) with (deref y x).
           by rewrite deref_alloc_old.
      * cbn [fst]. apply (Happ _ Hm).
  - intros u. destruct (RemoveServer u rr) as [rr' [e|]] eqn:E; cbn [fst].
    { unfold RemoveServer in E. destruct (findServerByURL rr u) as [[q|] j]; [|by injection E as <-].
      by destruct (routing_ _). }
    apply RemoveServer_ok in E as (q & i & _ & Hh & Hs & Hm).
    split.
    + destruct Hwf as [H1 H2]. split; rewrite Hh.
      * rewrite Hs. apply Forall_app. split.
        -- by apply Forall_take.
        -- by apply Forall_drop.
      * destruct Hm as [->|[g ->]]; [done|]. by apply map_Forall_delete.
    + intros u'. specialize (Hun u'). unfold count_URL in *. rewrite Hs.
      assert (Hd : forall x, deref rr' x = deref rr x) by (intros x; unfold deref; by rewrite Hh).
      erewrite (List.filter_ext _ (fun x => sameURL u' (url (deref rr x))))
        by (intros x; by rewrite Hd).
      pose proof (filter_length_remove (fun x => sameURL u' (url (deref rr x)))
                    (servers rr) (Z.to_nat i)). lia.
Qed.

Lemma pool_invariants_witness :
  unique_URLs (fst (UpsertServer (Some A) [Weight 4] (fst (RemoveServer B (New None))))).
Proof.
  destruct pool_invariants as [Hnew Hstep].
  destruct (Hnew None) as [H1 H2].
  destruct (Hstep (New None) H1 H2) as [_ Hrm].
  destruct (Hrm B) as [H3 H4].
  destruct (Hstep _ H3 H4) as [Hup _].
  apply (Hup (Some A) [Weight 4]).
Defined.

Lemma unique_URLs_dec_check rr :
  (forall p, p ∈ servers rr -> count_URL (url (deref rr p)) rr = 1%nat) -> unique_URLs rr.
Proof.
  intros H u. destruct (count_URL u rr) as [|n] eqn:E; [lia|].
  assert (Hex : exists p, p ∈ servers rr /\ sameURL u (url (deref rr p)) = true).
  { unfold count_URL in E.
    destruct (List.filter _ (servers rr)) as [|p l] eqn:F; [done|].
    assert (Hin : In p (List.filter (fun p => sameURL u (url (deref rr p))) (servers rr)))
      by (rewrite F; by left).
    apply List.filter_In in Hin as [Hin Hp]. exists p. split; [by apply list_elem_of_In|done]. }
  destruct Hex as (p & Hp & Hu). rewrite <- E.
  rewrite <- (H p Hp). unfold count_URL. apply Nat.eq_le_incl. f_equal.
  apply List.filter_ext. intros x. by apply sameURL_equiv.
Qed.

Lemma pool_invariants_pool123 : wf pool123 /\ unique_URLs pool123.
Proof.
  split.
  - split; [apply (bool_decide_unpack _); vm_compute; reflexivity|].
    intros g x Hg. vm_compute in Hg. discriminate.
  - apply unique_URLs_dec_check. intros p Hp.
    change (servers pool123) with [0; 1; 2]%nat in Hp.
    repeat (apply elem_of_cons in Hp as [->|Hp]; [vm_compute; reflexivity|]).
    inversion Hp.
Defined.

(** ** Upsert, remove and look up *)

Lemma deref_store_same rr q v :
  (q < length (heap rr))%nat -> deref (store q v rr) q = v.
Proof.
  intros Hq. unfold deref, store. cbn [heap with_heap].
  by rewrite nth_lookup, list_lookup_insert_eq.
Qed.

Lemma findFrom_In rr u l i q j : findFrom rr u i l = (Some q, j) -> q ∈ l.
Proof.
  intros H. apply findFrom_Some in H as (_ & _ & H & _).
  by eapply list_elem_of_lookup_2.
Qed.

(** An upsert with a positive weight, of a new URL or of a registered one,
    succeeds, and [ServerWeight] then returns that weight. *)
Theorem Upsert_then_ServerWeight (rr : RoundRobin) (u : URL) (w : Z) :
  wf rr -> 0 < w ->
  snd (UpsertServer (Some u) [Weight w] rr) = None /\
  ServerWeight u (fst (UpsertServer (Some u) [Weight w] rr)) = (w, true).
Proof.
  intros Hwf Hw. unfold UpsertServer.
  assert (Hopt : forall s, applyOptions [Weight w] s
            = ({| url := url s; weight := w; pathRewrite := pathRewrite s;
                  routing_ := routing_ s |}, None)).
  { intros s. cbn [applyOptions callOption].
    destruct (Z.ltb_spec w 0); [lia|done]. }
  destruct (findServerByURL rr u) as [[q|] j] eqn:Ef.
  - rewrite Hopt. cbn [fst snd]. split; [done|].
    set (v := {| url := _ |}).
    assert (Hq : (q < length (heap rr))%nat).
    { apply findFrom_In in Ef. destruct Hwf as [H1 _]. rewrite Forall_forall in H1. auto. }
    unfold ServerWeight, findServerByURL.
    change (servers (resetState (store q v rr))) with (servers rr).
    rewrite (findFrom_ext (resetState (store q v rr)) rr).
    + unfold findServerByURL in Ef. rewrite Ef.
      change (deref (resetState ?x) q) with (deref x q).
      by rewrite deref_store_same.
    + apply Forall_forall. intros x _.
      change (deref (resetState ?y) x) with (deref y x).
      by apply url_deref_store.
  - rewrite Hopt. cbn [fst snd weight routing_ alloc].
    destruct (Z.eqb_spec w 0); [lia|]. cbn [routing_ zero_server fst snd].
    split; [done|].
    set (srv := {| url := _ |}).
    unfold ServerWeight.
    pose proof (append_find rr u srv (stickyServers rr) Hwf ltac:(by rewrite Ef) eq_refl) as Hf.
    match goal with
    | |- context [findServerByURL ?x u] =>
        change (findServerByURL x u)
          with (findServerByURL
                  (resetState (with_servers (servers rr ++ [length (heap rr)])
                     (with_stickyServers (stickyServers rr)
                        (with_heap (heap rr ++ [srv]) rr)))) u)
    end.
    rewrite Hf.
    change (deref (resetState ?x) ?y) with (deref x y).
    change (deref (with_servers ?l ?x) ?y) with (deref x y).
    change (deref (with_stickyServers ?l ?x) ?y) with (deref x y).
    by rewrite deref_alloc_new.
Qed.

Lemma Upsert_then_ServerWeight_witness :
  ServerWeight B (fst (UpsertServer (Some B) [Weight 7] pool123)) = (7, true).
Proof.
  apply (Upsert_then_ServerWeight pool123 B 7); [|lia].
  split; [apply (bool_decide_unpack _); vm_compute; reflexivity|].
  intros g x Hg. vm_compute in Hg. discriminate.
Defined.

Lemma findFrom_skip rr u x l2 : forall l1 i k,
  sameURL u (url (deref rr x)) = false ->
  fst (findFrom rr u i (l1 ++ x :: l2)) = fst (findFrom rr u k (l1 ++ l2)).
Proof.
  induction l1 as [|y l1 IH]; intros i k Hx; cbn [app findFrom].
  - rewrite Hx. clear Hx. revert i k.
    induction l2 as [|z l2 IH2]; intros i k; cbn [findFrom]; [done|].
    destruct (sameURL u (url (deref rr z))); [done|]. apply IH2.
  - destruct (sameURL u (url (deref rr y))); [done|]. by apply IH.
Qed.

(** After a successful [RemoveServer] the rotation is one Backend shorter,
    the URL removed is not found any more, and a lookup of any other URL
    answers as before; a URL that is not in the rotation is refused with
    the not-found error and the balancer is left as it was. *)
Theorem Remove_then_ServerWeight (rr : RoundRobin) (u : URL) :
  wf rr -> unique_URLs rr ->
  (fst (findServerByURL rr u) = None ->
   RemoveServer u rr = (rr, Some ErrNotFound)) /\
  (forall rr', RemoveServer u rr = (rr', None) ->
   ServerWeight u rr' = (-1, false) /\
   S (length (servers rr')) = length (servers rr) /\
   forall u', sameURL u u' = false -> ServerWeight u' rr' = ServerWeight u' rr).
Proof.
  intros Hwf Hun. split.
  { unfold RemoveServer. by destruct (findServerByURL rr u) as [[q|] j]. }
  intros rr' Hrm.
  apply RemoveServer_ok in Hrm as (e & i & Ef & Hh & Hs & _).
  unfold findServerByURL in Ef.
  apply findFrom_Some in Ef as (He & Hi & Hl & Hbefore).
  rewrite Z.sub_0_r in Hl, Hbefore.
  assert (Hd : forall x, deref rr' x = deref rr x) by (intros x; unfold deref; by rewrite Hh).
  assert (Hmid := take_drop_middle (servers rr) (Z.to_nat i) e Hl).
  assert (Hafter : Forall (fun q => sameURL u (url (deref rr q)) = false)
                     (drop (S (Z.to_nat i)) (servers rr))).
  { specialize (Hun u). unfold count_URL in Hun. rewrite <- Hmid in Hun.
    rewrite List.filter_app, length_app in Hun. cbn [List.filter] in Hun.
    rewrite He in Hun. cbn [length] in Hun.
    apply count_zero. lia. }
  split; [|split].
  - unfold ServerWeight, findServerByURL. rewrite Hs.
    assert (Hn : fst (findFrom rr' u 0 (take (Z.to_nat i) (servers rr)
                        ++ drop (S (Z.to_nat i)) (servers rr))) = None).
    { apply findFrom_None. apply Forall_app. split;
        (eapply Forall_impl; [eassumption|]); cbn beta; intros x Hx; by rewrite Hd. }
    by destruct (findFrom rr' u 0 _) as [[q|] j].
  - rewrite Hs. rewrite <- Hmid at 3. rewrite !length_app. cbn [length]. lia.
  - intros u' Hne. unfold ServerWeight, findServerByURL. rewrite Hs.
    assert (Hx : sameURL u' (url (deref rr e)) = false).
    { destruct (sameURL u' (url (deref rr e))) eqn:E; [|done].
      rewrite (sameURL_equiv u (url (deref rr e)) u' He) in Hne.
      by rewrite sameURL_sym, E in Hne. }
    assert (Heq : fst (findFrom rr' u' 0 (take (Z.to_nat i) (servers rr)
                        ++ drop (S (Z.to_nat i)) (servers rr)))
                  = fst (findFrom rr u' 0 (servers rr))).
    { rewrite (findFrom_ext rr' rr) by (apply Forall_forall; intros x _; by rewrite Hd).
      rewrite <- Hmid at 3. symmetry. by apply findFrom_skip. }
    destruct (findFrom rr' u' 0 _) as [[q|] j], (findFrom rr u' 0 (servers rr)) as [[q'|] j'];
      cbn [fst] in Heq; try done.
    injection Heq as ->. by rewrite Hd.
Qed.

Lemma Remove_then_ServerWeight_witness :
  ServerWeight B (fst (RemoveServer B pool123)) = (-1, false) /\
  ServerWeight C (fst (RemoveServer B pool123)) = (3, true).
Proof.
  assert (Hwf : wf pool123).
  { split; [apply (bool_decide_unpack _); vm_compute; reflexivity|].
    intros g x Hg. vm_compute in Hg. discriminate. }
  assert (Hun : unique_URLs pool123).
  { destruct pool_invariants_pool123 as [_ H]. exact H. }
  destruct (Remove_then_ServerWeight pool123 B Hwf Hun) as [_ H].
  destruct (H (fst (RemoveServer B pool123)) ltac:(vm_compute; reflexivity)) as (H1 & _ & H3).
  split; [exact H1|]. rewrite (H3 C) by (vm_compute; reflexivity). vm_compute. reflexivity.
Defined.

(** [Set] then [Get] on an upstream context: the value set is read back
    and the other keys are as before; on a context whose map is nil [Set]
    changes nothing and every key reads as the empty string, as it does on
    a new context. *)
Theorem upstreamContext_Set_Get (c : upstreamContext) (k v : string) :
  (values c <> None ->
   upstreamContext_Get k (upstreamContext_Set k v c) = v /\
   forall k', k' <> k ->
     upstreamContext_Get k' (upstreamContext_Set k v c) = upstreamContext_Get k' c) /\
  (values c = None ->
   upstreamContext_Set k v c = c /\ upstreamContext_Get k c = "") /\
  upstreamContext_Get k NewUpstreamContext = "" /\
  uc_status (upstreamContext_Set k v c) = uc_status c.
Proof.
  unfold upstreamContext_Get, upstreamContext_Set.
  destruct (values c) as [m|] eqn:E; cbn [values uc_status]; repeat split; try done.
  - by rewrite lookup_insert_eq.
  - intros k' Hk. by rewrite lookup_insert_ne.
Qed.

Lemma upstreamContext_Set_Get_witness :
  upstreamContext_Get "upstream" (upstreamContext_Set "upstream" "http://a/" NewUpstreamContext)
  = "http://a/".
Proof.
  apply (upstreamContext_Set_Get NewUpstreamContext "upstream" "http://a/"). discriminate.
Defined.

(** ** Which Backends are selected *)

Section LoopPositive.
Variables (h : list server) (l : list ptr) (G M : Z).
Local Abbreviation N := (Z.of_nat (length l)).
Local Abbreviation W := (weightOf h).
Hypothesis HN : 0 < N <= maxInt.
Hypothesis HMint : M <= maxInt.
Hypothesis HG : 0 <= G <= M.
Hypothesis HMpos : 0 < M.

(** With a positive accumulator, or at the start of a round, a turn leaves
    a positive accumulator, so the loop returns Backends of positive
    weight only, and never the zero-weight error. *)
Lemma nextLoop_positive n : forall rr x,
  loop_state h l rr -> 0 <= currentWeight rr <= maxInt ->
  0 < currentWeight rr \/ index rr = -1 \/ index rr = N - 1 ->
  nextLoop n G M rr = Done x ->
  exists p, snd x = (Some p, None) /\ p ∈ l /\ 0 < W p /\
            loop_state h l (fst x) /\ 0 < currentWeight (fst x) <= maxInt /\
            stickyServers (fst x) = stickyServers rr /\ ss (fst x) = ss rr.
Proof.
  induction n as [|n IH]; intros rr x Hgood Hc Hpos H; [done|].
  pose proof Hgood as (Hh & Hl & Hi).
  rewrite (nextLoop_turn h l G M HN HG) in H
    by (unfold minInt, maxInt in *; first [done | lia]).
  set (i' := if index rr + 1 =? N then 0 else index rr + 1) in *.
  set (c' := if i' =? 0
             then (if currentWeight rr - G <=? 0 then M else currentWeight rr - G)
             else currentWeight rr) in *.
  assert (Hi' : 0 <= i' < N) by (subst i'; destruct (Z.eqb_spec (index rr + 1) N); lia).
  assert (Hc' : 0 < c' <= maxInt).
  { subst c' i'. destruct (Z.eqb_spec (index rr + 1) N).
    - cbn. destruct (Z.leb_spec (currentWeight rr - G) 0); lia.
    - destruct (Z.eqb_spec (index rr + 1) 0).
      + destruct (Z.leb_spec (currentWeight rr - G) 0); lia.
      + lia. }
  assert (Hb : (i' =? 0) && (c' =? 0) = false).
  { destruct (Z.eqb_spec c' 0); [lia|]. by rewrite andb_false_r. }
  rewrite Hb in H. destruct (lookup_turn l i' Hi') as (srv & Hsrv & Hin).
  rewrite Hsrv in H.
  assert (Hgood' : loop_state h l (with_currentWeight c' (with_index i' rr)))
    by (repeat split; cbn; lia || done).
  destruct (Z.leb_spec c' (W srv)) as [Hle|Hgt].
  - injection H as <-. exists srv. cbn [fst snd].
    split; [done|]. split; [done|]. split; [lia|]. split; [done|]. split; [done|]. done.
  - destruct (IH _ _ Hgood' ltac:(cbn; lia) ltac:(left; cbn; lia) H)
      as (p & H1 & H2 & H3 & H4 & H5 & H6 & H7).
    exists p. split; [done|]. split; [done|]. split; [done|]. split; [done|].
    split; [done|]. split; [exact H6|exact H7].
Qed.
End LoopPositive.

(** While some Backend has a positive weight, a Backend of weight 0 gets no
    rotation traffic: from a state with a positive accumulator, or freshly
    reset, every call of [NextServer] that returns gives a Backend of the
    rotation with a positive weight and no error, moves the iterator only,
    and leaves a positive accumulator, so that the next call is in the same
    case. *)
Theorem NextServer_skips_zero_weights (fuel : nat) (rr rr' : RoundRobin)
    (r : option ptr * option error) :
  nonneg_weights rr ->
  Z.of_nat (length (servers rr)) <= maxInt ->
  some_positive_weight rr ->
  -1 <= index rr < Z.of_nat (length (servers rr)) ->
  0 <= currentWeight rr <= maxInt ->
  0 < currentWeight rr \/ index rr = -1 ->
  NextServer fuel rr = Done (rr', r) ->
  (exists p, r = (Some p, None) /\ p ∈ servers rr /\ 0 < weight (deref rr p)) /\
  heap rr' = heap rr /\ servers rr' = servers rr /\
  stickyServers rr' = stickyServers rr /\ ss rr' = ss rr /\
  -1 <= index rr' < Z.of_nat (length (servers rr')) /\
  0 < currentWeight rr' <= maxInt.
Proof.
  intros Hnn HN Hpos Hi Hc Hstart H.
  unfold nonneg_weights in Hnn. rewrite Forall_forall in Hnn.
  unfold some_positive_weight in Hpos. apply Exists_exists in Hpos as (s & Hs & Hws).
  assert (Hne : servers rr <> []) by (intros E; rewrite E in Hs; inversion Hs).
  unfold NextServer in H.
  assert ((length (servers rr) =? 0)%nat = false) as E by (by destruct (servers rr)).
  rewrite E in H. clear E.
  destruct (weightGcd_props rr Hne) as (HG0 & HGdiv & _).
  { intros s' Hs'. apply Hnn in Hs'. lia. }
  pose proof (maxWeight_ge rr s Hs) as HMs.
  destruct (maxWeight_attained rr ltac:(lia)) as (sk & Hsk & HWk).
  assert (HG1 : 0 <= weightGcd rr <= maxWeight rr).
  { pose proof (HGdiv s Hs) as Hd. apply Z.divide_pos_le in Hd; lia. }
  assert (HMint : maxWeight rr <= maxInt) by (rewrite <- HWk; apply Hnn in Hsk; lia).
  assert (HN0 : 0 < Z.of_nat (length (servers rr)) <= maxInt).
  { split; [|done]. destruct (servers rr); [done|cbn; lia]. }
  destruct (nextLoop_positive (heap rr) (servers rr) (weightGcd rr) (maxWeight rr)
              HN0 HMint HG1 ltac:(lia) fuel rr (rr', r))
    as (p & H1 & H2 & H3 & (H4 & H5 & H6) & H7 & H8 & H9);
    [done|done|tauto|done|].
  cbn [fst snd] in *. subst r.
  split; [by exists p|]. rewrite H5. done.
Qed.

Lemma NextServer_skips_zero_weights_witness :
  exists p, (Some 2%nat, @None error) = (Some p, None) /\ p ∈ servers pool123 /\
            0 < weight (deref pool123 p).
Proof.
  eapply (NextServer_skips_zero_weights 3 pool123 _ (Some 2%nat, None)).
  - unfold nonneg_weights. apply (bool_decide_unpack _). vm_compute. reflexivity.
  - vm_compute. discriminate.
  - unfold some_positive_weight. apply (bool_decide_unpack _). vm_compute. reflexivity.
  - split; vm_compute; [discriminate|reflexivity].
  - split; vm_compute; discriminate.
  - right. reflexivity.
  - vm_compute. reflexivity.
Defined.

(** A pool of one Backend of positive weight returns it at every call: from
    the reset state, and from the state a call leaves, one turn of the loop
    gives the Backend and leaves index 0 and the accumulator at its
    weight. *)
Theorem single_Backend_every_call (rr : RoundRobin) (p : ptr) (n fuel : nat) :
  servers rr = [p] -> 0 < weight (deref rr p) <= maxInt ->
  (index rr = -1 /\ currentWeight rr = 0) \/
  (index rr = 0 /\ currentWeight rr = weight (deref rr p)) ->
  (1 <= fuel)%nat ->
  NextServers fuel n rr
  = Done (match n with
          | O => rr
          | S _ => with_currentWeight (weight (deref rr p)) (with_index 0 rr)
          end, replicate n (Some p, None)).
Proof.
  intros Hs Hw Hst Hfuel.
  assert (Hone : forall rr0, heap rr0 = heap rr -> servers rr0 = [p] ->
            (index rr0 = -1 /\ currentWeight rr0 = 0) \/
            (index rr0 = 0 /\ currentWeight rr0 = weight (deref rr p)) ->
            NextServer fuel rr0
            = Done (with_currentWeight (weight (deref rr p)) (with_index 0 rr0),
                    (Some p, None))).
  { intros rr0 Hh0 Hs0 Hst0. apply (NextServer_mono 1 fuel); [done|].
    unfold NextServer, weightGcd, maxWeight. rewrite Hs0.
    cbn [length Nat.eqb fold_left]. change (-1 =? -1) with true. cbv iota.
    assert (Hd : deref rr0 p = deref rr p) by (unfold deref; by rewrite Hh0).
    rewrite Hd. destruct (Z.ltb_spec (-1) (weight (deref rr p))); [|lia].
    cbn [nextLoop]. rewrite Hs0. cbn [length].
    assert (Hidx : Z.rem (wrap (index rr0 + 1)) (Z.of_nat 1) = 0).
    { destruct Hst0 as [[-> _]|[-> _]]; by vm_compute. }
    rewrite Hidx. cbn [index with_index currentWeight with_currentWeight servers].
    change (0 =? 0) with true. cbv iota.
    assert (Hcw : wrap (currentWeight rr0 - weight (deref rr p)) <= 0).
    { destruct Hst0 as [[_ ->]|[_ ->]].
      - rewrite wrap_small by (unfold is_int, minInt, maxInt in *; lia). lia.
      - rewrite Z.sub_diag. by vm_compute. }
    destruct (Z.leb_spec (wrap (currentWeight rr0 - weight (deref rr p))) 0); [|lia].
    destruct (Z.eqb_spec (weight (deref rr p)) 0); [lia|].
    change (0 <? 0) with false. cbv iota. rewrite Hs0.
    change ([p] !! Z.to_nat 0) with (Some p). cbv iota beta.
    change (deref (with_currentWeight _ (with_currentWeight _ (with_index 0 rr0))) p)
      with (deref rr0 p).
    rewrite Hd. destruct (Z.leb_spec (weight (deref rr p)) (weight (deref rr p))); [|lia].
    done. }
  destruct n as [|n]; [done|].
  cbn [NextServers]. rewrite (Hone rr eq_refl Hs Hst).
  assert (Hrest : forall k rr0, heap rr0 = heap rr -> servers rr0 = [p] ->
            index rr0 = 0 -> currentWeight rr0 = weight (deref rr p) ->
            ss rr0 = ss rr -> stickyServers rr0 = stickyServers rr ->
            NextServers fuel k rr0
            = Done (with_currentWeight (weight (deref rr p)) (with_index 0 rr),
                    replicate k (Some p, None))).
  { induction k as [|k IH]; intros rr0 Hh0 Hs0 Hi0 Hc0 Hss0 Hm0.
    - cbn [NextServers replicate]. do 2 f_equal.
      destruct rr0; cbn in *; subst. unfold with_currentWeight, with_index. cbn.
      by rewrite Hs.
    - cbn [NextServers]. rewrite (Hone rr0 Hh0 Hs0 ltac:(right; done)).
      by rewrite IH. }
  by rewrite Hrest.
Qed.

Lemma single_Backend_every_call_witness :
  NextServers 1 3 (fst (UpsertServer (Some A) [Weight 2] (New None)))
  = Done (with_currentWeight 2 (with_index 0 (fst (UpsertServer (Some A) [Weight 2] (New None)))),
          [(Some 0%nat, None); (Some 0%nat, None); (Some 0%nat, None)]).
Proof.
  apply (single_Backend_every_call (fst (UpsertServer (Some A) [Weight 2] (New None))) 0%nat 3 1).
  - reflexivity.
  - split; vm_compute; [reflexivity|discriminate].
  - left. split; reflexivity.
  - lia.
Defined.

(** ** Paths through the handler *)

(** [NextServer] moves the iterator and nothing else. *)
Lemma nextLoop_frame n : forall G M rr rr' r,
  nextLoop n G M rr = Done (rr', r) ->
  heap rr' = heap rr /\ servers rr' = servers rr /\ ss rr' = ss rr /\
  stickyServers rr' = stickyServers rr.
Proof.
  induction n as [|n IH]; intros G M rr rr' r H; [done|].
  cbn [nextLoop] in H.
  repeat case_match; try done;
    first [ injection H as <- <-; repeat split; reflexivity
          | apply IH in H as (Ha & Hb & Hc & Hd);
            repeat split; [rewrite Ha|rewrite Hb|rewrite Hc|rewrite Hd]; reflexivity ].
Qed.

Lemma NextServer_frame fuel rr rr' r :
  NextServer fuel rr = Done (rr', r) ->
  heap rr' = heap rr /\ servers rr' = servers rr /\ ss rr' = ss rr /\
  stickyServers rr' = stickyServers rr.
Proof.
  unfold NextServer. case_match; [by intros [= <- <-]|]. apply nextLoop_frame.
Qed.

Section Paths.
Variable url_Parse : string -> URL + error.
Variable url_String : URL -> string.
Variable SignedJSIDFromHeader : Header -> option SignedJSID * option error.

Local Abbreviation run := (handle url_Parse url_String SignedJSIDFromHeader).

(** Without a token the group stage does nothing. *)
Lemma groupStick_no_token fuel req srv stuck w :
  SignedJSIDFromHeader (req_Header req) = (None, None) ->
  groupStick url_String SignedJSIDFromHeader fuel req srv stuck w
  = pick url_String fuel req srv stuck w.
Proof. intros H. unfold groupStick. rewrite H. by go. Qed.

(** What [GetBackend] has found when it reports a Backend. *)
Lemma GetBackend_present s req rr l a :
  GetBackend url_Parse s req rr l = (Some a, true, None) ->
  a ∈ l /\
  exists cookie u, Request_Cookie req (cookiename s) = Some cookie /\
                   url_Parse (Value cookie) = inl u /\
                   sameURL u (url (deref rr a)) = true.
Proof.
  unfold GetBackend. intros H.
  destruct (Request_Cookie req (cookiename s)) as [cookie|]; [|done].
  destruct (url_Parse (Value cookie)) as [u|e] eqn:Eu; [|done].
  destruct (isBackendAlive rr u l) as [p|] eqn:Ea; [|done].
  injection H as <-. apply isBackendAlive_Some in Ea as [H1 H2].
  split; [done|]. by exists cookie, u.
Qed.
End Paths.

(** The cookie of the request names a live Backend and the request carries
    no token: the request is handed on once, with the URL rewritten for
    that Backend, a Backend of the rotation whose URL is the cookie's; the
    balancer is left as it was (no selection), no cookie is set, and with
    an upstream context the call returns with [upstream] set to the
    Backend's URL. *)
Theorem ServeHTTP_cookie_sticks
    (url_Parse : string -> URL + error) (url_String : URL -> string)
    (SignedJSIDFromHeader : Header -> option SignedJSID * option error)
    (fuel : nat) (rr : RoundRobin) (req : Request) (s : StickySession) (a : ptr) :
  ss rr = Some s ->
  GetBackend url_Parse s req rr (Servers rr) = (Some a, true, None) ->
  SignedJSIDFromHeader (req_Header req) = (None, None) ->
  a ∈ servers rr /\
  (exists cookie u, Request_Cookie req (cookiename s) = Some cookie /\
                    url_Parse (Value cookie) = inl u /\
                    sameURL u (url (deref rr a)) = true) /\
  pool (snd (handle url_Parse url_String SignedJSIDFromHeader fuel rr req)) = rr /\
  written (snd (handle url_Parse url_String SignedJSIDFromHeader fuel rr req))
  = [NextServe (rewriteURL (deref rr a) (req_URL req))] /\
  (forall c, upstream_ctx req = Some c ->
     handle url_Parse url_String SignedJSIDFromHeader fuel rr req
     = (Done tt,
        {| pool := rr;
           uc := Some (upstreamContext_Set "upstream" (url_String (url (deref rr a))) c);
           written := [NextServe (rewriteURL (deref rr a) (req_URL req))] |})).
Proof.
  intros Hss Hcookie Htoken.
  destruct (GetBackend_present _ _ _ _ _ _ Hcookie) as [Hin Hurl].
  split; [done|]. split; [done|].
  unfold handle, ServeHTTP. go. rewrite Hss, Hcookie.
  rewrite groupStick_no_token by done.
  unfold pick. cbn [negb]. unfold serve. go.
  destruct (upstream_ctx req) as [c|]; repeat split; try done.
  by intros c' [= <-].
Qed.

Lemma ServeHTTP_cookie_sticks_witness :
  written (snd (handle url_Parse_example url_String_example no_jsid 3 pool_sticky req_sticky_A))
  = [NextServe (rewriteURL (deref pool_sticky 0%nat) (req_URL req_sticky_A))].
Proof.
  apply (ServeHTTP_cookie_sticks url_Parse_example url_String_example no_jsid 3
           pool_sticky req_sticky_A (mkStickySession "sess") 0%nat);
    vm_compute; reflexivity.
Defined.

(** No cookie names a live Backend (stickiness is off, the cookie is
    missing, or its URL is not in the rotation) and the request carries no
    token.  When [NextServer] gives a Backend, the sticky cookie is set to
    its URL if stickiness is on, and the request is handed on once with the
    URL rewritten for it; when [NextServer] fails, the response is 503,
    nothing is handed on and the call returns, with or without an upstream
    context. *)
Theorem ServeHTTP_unstuck
    (url_Parse : string -> URL + error) (url_String : URL -> string)
    (SignedJSIDFromHeader : Header -> option SignedJSID * option error)
    (fuel : nat) (rr rr' : RoundRobin) (req : Request)
    (r : option ptr * option error) :
  ss rr = None \/
  (exists s, ss rr = Some s /\
             GetBackend url_Parse s req rr (Servers rr) = (None, false, None)) ->
  SignedJSIDFromHeader (req_Header req) = (None, None) ->
  NextServer fuel rr = Done (rr', r) ->
  pool (snd (handle url_Parse url_String SignedJSIDFromHeader fuel rr req)) = rr' /\
  (forall e, snd r = Some e ->
     handle url_Parse url_String SignedJSIDFromHeader fuel rr req
     = (Done tt, {| pool := rr'; uc := upstream_ctx req;
                    written := [HttpError "503 Service Unavailable." 503] |})) /\
  (forall p, r = (Some p, None) ->
     written (snd (handle url_Parse url_String SignedJSIDFromHeader fuel rr req))
     = match ss rr with
       | Some s => [SetCookie {| Name := cookiename s;
                                 Value := url_String (url (deref rr' p)) |}]
       | None => []
       end ++ [NextServe (rewriteURL (deref rr' p) (req_URL req))]).
Proof.
  intros Hun Htoken Hnext.
  pose proof (NextServer_frame _ _ _ _ Hnext) as (_ & _ & Hss' & _).
  assert (Hrun : handle url_Parse url_String SignedJSIDFromHeader fuel rr req
                 = pick url_String fuel req None false
                     {| pool := rr; uc := upstream_ctx req; written := [] |}).
  { unfold handle, ServeHTTP. go.
    destruct Hun as [->|(s & -> & ->)]; by rewrite groupStick_no_token. }
  rewrite Hrun. unfold pick. cbn [negb]. unfold nextServer. go. rewrite Hnext. go.
  destruct r as [srv [e|]].
  - split; [done|]. split; [|done]. by intros e' _.
  - change (pool {| pool := rr'; uc := upstream_ctx req; written := [] |}) with rr'.
    rewrite Hss'. destruct (ss rr) as [s|], srv as [p|]; unfold StickBackend, serve; go;
      destruct (upstream_ctx req); repeat split; try done; by intros ? [= <-].
Qed.

Lemma ServeHTTP_unstuck_witness :
  handle url_Parse_example url_String_example no_jsid 3 (New None) req_sticky_A
  = (Done tt, {| pool := New None; uc := upstream_ctx req_sticky_A;
                 written := [HttpError "503 Service Unavailable." 503] |}).
Proof.
  destruct (ServeHTTP_unstuck url_Parse_example url_String_example no_jsid 3
              (New None) (New None) req_sticky_A (None, Some ErrNoServers))
    as (_ & H & _).
  - left. reflexivity.
  - reflexivity.
  - reflexivity.
  - apply (H ErrNoServers). reflexivity.
Defined.

(** The cookie of the request does not parse as a URL: the error handler
    serves the error, nothing is handed on, no Backend is selected, and with
    an upstream context the call returns with [error] set. *)
Theorem ServeHTTP_malformed_cookie
    (url_Parse : string -> URL + error) (url_String : URL -> string)
    (SignedJSIDFromHeader : Header -> option SignedJSID * option error)
    (fuel : nat) (rr : RoundRobin) (req : Request) (s : StickySession)
    (cookie : Cookie) (err : error) :
  ss rr = Some s ->
  Request_Cookie req (cookiename s) = Some cookie ->
  url_Parse (Value cookie) = inr err ->
  pool (snd (handle url_Parse url_String SignedJSIDFromHeader fuel rr req)) = rr /\
  written (snd (handle url_Parse url_String SignedJSIDFromHeader fuel rr req))
  = [ErrHandlerServe err] /\
  (forall c, upstream_ctx req = Some c ->
     handle url_Parse url_String SignedJSIDFromHeader fuel rr req
     = (Done tt, {| pool := rr; uc := Some (upstreamContext_Set "error" err c);
                    written := [ErrHandlerServe err] |})).
Proof.
  intros Hss Hc Hp. unfold handle, ServeHTTP. go. rewrite Hss.
  unfold GetBackend. rewrite Hc, Hp. go.
  destruct (upstream_ctx req); repeat split; try done. by intros ? [= <-].
Qed.

Lemma ServeHTTP_malformed_cookie_witness :
  written (snd (handle url_Parse_example url_String_example no_jsid 3 pool_sticky
                  req_bad_cookie))
  = [ErrHandlerServe "parse error"].
Proof.
  apply (ServeHTTP_malformed_cookie url_Parse_example url_String_example no_jsid 3
           pool_sticky req_bad_cookie (mkStickySession "sess") (mkCookie "sess" "%zz"));
    reflexivity.
Defined.

(** Whatever the request, the handler hands it on once at most; and for a
    request without upstream context, a call that has handed the request
    on, or called the error handler, ends in a panic on the nil context. *)
Theorem ServeHTTP_nil_context
    (url_Parse : string -> URL + error) (url_String : URL -> string)
    (SignedJSIDFromHeader : Header -> option SignedJSID * option error)
    (fuel : nat) (rr : RoundRobin) (req : Request) :
  (length (forwarded (snd (handle url_Parse url_String SignedJSIDFromHeader fuel rr req)))
   <= 1)%nat /\
  (upstream_ctx req = None ->
   (forwarded (snd (handle url_Parse url_String SignedJSIDFromHeader fuel rr req)) <> [] \/
    exists e, ErrHandlerServe e
              ∈ written (snd (handle url_Parse url_String SignedJSIDFromHeader fuel rr req))) ->
   fst (handle url_Parse url_String SignedJSIDFromHeader fuel rr req)
   = Panic nil_dereference).
Proof.
  unfold handle, ServeHTTP, groupStick, pick, serve, StickBackend, nextServer. go.
  destruct (upstream_ctx req) as [c|];
    (split; [|intros Hnil Hfw; try done]);
    repeat (first [ case_match; try done; simplify_eq
                  | progress go
                  | progress cbn [forwarded omap list_omap written length app] in * ]);
    try (simplify_eq; cbn; lia);
    try done.
  all: try (destruct Hfw as [Hfw|[e Hfw]]; [done|]).
  all: try (by repeat (apply elem_of_cons in Hfw as [Hfw|Hfw]; [done|]); inversion Hfw).
  all: cbn in Hfw; destruct Hfw as [Hfw|[e' Hfw]]; [done|];
    repeat (apply elem_of_cons in Hfw as [Hfw|Hfw]; [done|]); inversion Hfw.
Qed.

Lemma ServeHTTP_nil_context_witness :
  fst (handle url_Parse_example url_String_example no_jsid 3 pool_sticky req_no_context)
  = Panic nil_dereference.
Proof.
  apply (ServeHTTP_nil_context url_Parse_example url_String_example no_jsid 3
           pool_sticky req_no_context); [reflexivity|].
  left. vm_compute. discriminate.
Defined.

End roundrobin_spec.

Module forward_spec.
Import forward GoStrings strings_spec.

(** ** WebSocket detection *)

Lemma Split_single sep item : has_byte sep item = false -> Split sep item = [item].
Proof.
  induction item as [|a item IH]; cbn [Split has_byte]; [done|].
  intros H. apply orb_false_iff in H as [Ha Hi]. rewrite Ha, IH; done.
Qed.

(** The first item of a split, and what is split after it. *)
Lemma Split_head sep : forall s item items,
  Split sep s = item :: items ->
  has_byte sep item = false /\
  ((items = [] /\ s = item) \/
   (exists rest, s = item +:+ String sep rest /\ Split sep rest = items)).
Proof.
  induction s as [|a s IH]; intros item items H; cbn [Split] in H.
  - injection H as <- <-. split; [done|by left].
  - destruct (Ascii.eqb_spec a sep) as [->|Hne].
    + injection H as <- <-. split; [done|]. right. by exists s.
    + pose proof (Split_nonempty sep s) as Hs.
      destruct (Split sep s) as [|item0 items0] eqn:E; [done|].
      injection H as <- <-. destruct (IH _ _ eq_refl) as [Hb Hc].
      split; [cbn [has_byte]; apply orb_false_iff; split; [by apply Ascii.eqb_neq|done]|].
      destruct Hc as [[-> ->]|(rest & -> & Hr)]; [by left|].
      right. by exists rest.
Qed.

(** The items of a split are the substrings between separators. *)
Lemma Split_In sep s item :
  In item (Split sep s) <->
  has_byte sep item = false /\
  exists before after,
    s = before +:+ item +:+ after /\
    (before = "" \/ exists b, before = b +:+ String sep "") /\
    (after = "" \/ exists a, after = String sep "" +:+ a).
Proof.
  split.
  - remember (Split sep s) as l eqn:El. symmetry in El. revert s El.
    induction l as [|item0 items IH]; intros s El Hin; [done|].
    destruct (Split_head sep s item0 items El) as [Hb Hc].
    destruct Hc as [[-> ->]|(rest & -> & Hr)].
    + destruct Hin as [<-|[]]. split; [done|]. exists "", "". sapp.
      by rewrite append_nil_r; repeat split; left.
    + destruct Hin as [<-|Hin].
      * split; [done|]. exists "", (String sep rest). sapp.
        split; [done|]. split; [by left|]. right. by exists rest.
      * destruct (IH rest Hr Hin) as (Hi & before & after & -> & Hbef & Haft).
        split; [done|]. exists (item0 +:+ String sep before), after.
        split; [by rewrite !append_assoc|]. split; [|done].
        right. destruct Hbef as [->|[b ->]].
        -- by exists item0.
        -- exists (item0 +:+ String sep b). by rewrite !append_assoc.
  - intros (Hi & before & after & -> & Hbef & Haft).
    assert (Htail : In item (Split sep (item +:+ after))).
    { destruct Haft as [->|[a ->]].
      - rewrite append_nil_r, Split_single by done. by left.
      - sapp. rewrite Split_app, Split_single by done. by left. }
    destruct Hbef as [->|[b ->]]; [by sapp|].
    rewrite append_assoc. sapp. rewrite Split_app. apply in_or_app. by right.
Qed.

Section DetectionFacts.
Variables ToLower TrimSpace : string -> string.

Lemma containsItem_spec value items :
  containsItem ToLower TrimSpace value items = true <->
  exists item, In item items /\ ToLower (TrimSpace item) = value.
Proof.
  induction items as [|item items IH]; cbn [containsItem].
  - split; [done|]. by intros (? & [] & _).
  - destruct (String.eqb_spec value (ToLower (TrimSpace item))) as [E|E].
    + split; [|done]. intros _. exists item. split; [by left|done].
    + rewrite IH. split.
      * intros (i & Hi & Hv). exists i. split; [by right|done].
      * intros (i & [<-|Hi] & Hv); [done|]. by exists i.
Qed.

Lemma containsHeader_spec req name value :
  containsHeader ToLower TrimSpace req name value = true <->
  exists item, comma_item (Header_Get (req_Header req) name) item /\
               ToLower (TrimSpace item) = value.
Proof.
  unfold containsHeader. rewrite containsItem_spec.
  split; intros (item & Hi & Hv); exists item; (split; [|done]).
  - by apply Split_In in Hi.
  - by apply Split_In.
Qed.
End DetectionFacts.

(** C8: [isWebsocketRequest] answers true exactly when the value of the
    [Connection] header has an item between commas that, trimmed and in
    lower case, is [upgrade], and the value of the [Upgrade] header has one
    that is [websocket]; [Connection: Upgrade, keep-alive] with
    [Upgrade: websocket] is detected. *)
Theorem isWebsocketRequest_spec :
  (forall (ToLower TrimSpace : string -> string) (req : Request),
     isWebsocketRequest ToLower TrimSpace req = true <->
     (exists item, comma_item (Header_Get (req_Header req) Connection) item /\
                   ToLower (TrimSpace item) = "upgrade") /\
     (exists item, comma_item (Header_Get (req_Header req) Upgrade) item /\
                   ToLower (TrimSpace item) = "websocket")) /\
  Header_Get (req_Header req_ws) Connection = "Upgrade, keep-alive" /\
  Header_Get (req_Header req_ws) Upgrade = "websocket" /\
  isWebsocketRequest ToLowerASCII TrimSpaceASCII req_ws = true.
Proof.
  split.
  - intros ToLower TrimSpace req. unfold isWebsocketRequest.
    rewrite andb_true_iff, !containsHeader_spec. done.
  - repeat split; vm_compute; reflexivity.
Qed.

(** ** Serving without metrics *)

Lemma otherOption_keeps s :
  otherOption s -> keepsMetrics s /\ forall f, snd (s f) = None.
Proof. by destruct 1. Qed.

Lemma applySetters_keepsMetrics setters : forall f,
  Forall keepsMetrics setters -> snd (applySetters setters f) = None ->
  metrics (ctx_ (fst (applySetters setters f))) = metrics (ctx_ f).
Proof.
  induction setters as [|s setters IH]; intros f H He; [done|].
  apply Forall_cons in H as [Hs H]. cbn [applySetters] in *.
  specialize (Hs f).
  destruct (s f) as [f' [e|]]; cbn [fst snd] in *; [done|].
  by rewrite IH.
Qed.

Lemma applySetters_withoutMeters setters : forall f,
  withoutMeters setters ->
  snd (applySetters setters f) = None /\
  metrics (ctx_ (fst (applySetters setters f))) = metrics (ctx_ f).
Proof.
  induction setters as [|s setters IH]; intros f H; [done|].
  apply Forall_cons in H as [Hs H]. cbn [applySetters].
  destruct (otherOption_keeps s Hs) as [Hm He]. specialize (Hm f). specialize (He f).
  destruct (s f) as [f' [e|]]; cbn [fst snd] in *; [done|].
  destruct (IH f' H) as [He' Hm']. by rewrite <- Hm.
Qed.

(** Both serve paths start by dereferencing the metrics context. *)
Lemma nil_metrics_panics
    (ToLower TrimSpace : string -> string)
    (GetHeaderMediaType : Header -> string -> string + error) (elapsed : Z)
    (f : Forwarder) (reg : TaggedRegistry) (w : ResponseWriter) (req : Request) :
  metrics (ctx_ f) = None ->
  http_serveHTTP GetHeaderMediaType elapsed req (mkWorld f reg ∅ [])
    = (Panic nil_dereference, mkWorld f reg ∅ []) /\
  ws_serveHTTP w req (mkWorld f reg ∅ [])
    = (Panic nil_dereference, mkWorld f reg ∅ []) /\
  handle ToLower TrimSpace GetHeaderMediaType elapsed f reg w req
    = (Panic nil_dereference, mkWorld f reg ∅ []).
Proof.
  intros Hm.
  assert (Hhttp : http_serveHTTP GetHeaderMediaType elapsed req (mkWorld f reg ∅ [])
                  = (Panic nil_dereference, mkWorld f reg ∅ [])).
  { unfold http_serveHTTP, httpInit, mbind, Go_bind, getMetrics. cbn. by rewrite Hm. }
  assert (Hws : ws_serveHTTP w req (mkWorld f reg ∅ [])
                = (Panic nil_dereference, mkWorld f reg ∅ [])).
  { unfold ws_serveHTTP, wsInit, mbind, Go_bind, getMetrics. cbn. by rewrite Hm. }
  split; [exact Hhttp|]. split; [exact Hws|].
  unfold handle, ServeHTTP. destruct (isWebsocketRequest _ _ _); [exact Hws|exact Hhttp].
Qed.

(** C10: a forwarder built by [New] from options none of which is [Meters]
    has a nil metrics context, and serving any request through it, HTTP or
    WebSocket, panics on a nil dereference before anything is written,
    registered or handed on.  The same holds of every forwarder that [New]
    returns for setters, of the package or of the caller, none of which
    sets the metrics context. *)
Theorem serve_without_Meters_panics
    (ToLower TrimSpace : string -> string) (DefaultTransport : RoundTripper)
    (net_Dial : Dialer) (os_Hostname : string + error)
    (HeaderRewriter : bool -> string -> ReqRewriter)
    (GetHeaderMediaType : Header -> string -> string + error) (elapsed : Z)
    (setters : list optSetter) :
  (withoutMeters setters ->
   exists f,
     New DefaultTransport net_Dial os_Hostname HeaderRewriter setters = (Some f, None) /\
     metrics (ctx_ f) = None /\
     forall (reg : TaggedRegistry) (w : ResponseWriter) (req : Request),
       http_serveHTTP GetHeaderMediaType elapsed req (mkWorld f reg ∅ [])
         = (Panic nil_dereference, mkWorld f reg ∅ []) /\
       ws_serveHTTP w req (mkWorld f reg ∅ [])
         = (Panic nil_dereference, mkWorld f reg ∅ []) /\
       handle ToLower TrimSpace GetHeaderMediaType elapsed f reg w req
         = (Panic nil_dereference, mkWorld f reg ∅ [])) /\
  (Forall keepsMetrics setters ->
   forall f,
     New DefaultTransport net_Dial os_Hostname HeaderRewriter setters = (Some f, None) ->
     metrics (ctx_ f) = None /\
     forall (reg : TaggedRegistry) (w : ResponseWriter) (req : Request),
       http_serveHTTP GetHeaderMediaType elapsed req (mkWorld f reg ∅ [])
         = (Panic nil_dereference, mkWorld f reg ∅ []) /\
       ws_serveHTTP w req (mkWorld f reg ∅ [])
         = (Panic nil_dereference, mkWorld f reg ∅ []) /\
       handle ToLower TrimSpace GetHeaderMediaType elapsed f reg w req
         = (Panic nil_dereference, mkWorld f reg ∅ [])).
Proof.
  split.
  - intros Hno. unfold New.
    destruct (applySetters_withoutMeters setters
                {| http_ := mkHttpForwarder None None false false;
                   websocket_ := mkWebsocketForwarder None None;
                   ctx_ := mkHandlerContext None None None |} Hno) as [He Hm].
    destruct (applySetters setters _) as [f0 [e|]]; cbn [fst snd] in *; [done|].
    cbn [metrics ctx_] in Hm.
    eexists. split; [reflexivity|]. split; [exact Hm|].
    intros reg w req. by apply nil_metrics_panics.
  - intros Hkeep f. unfold New.
    pose proof (applySetters_keepsMetrics setters
                  {| http_ := mkHttpForwarder None None false false;
                     websocket_ := mkWebsocketForwarder None None;
                     ctx_ := mkHandlerContext None None None |} Hkeep) as Hm.
    destruct (applySetters setters _) as [f0 [e|]]; cbn [fst snd] in *; [done|].
    intros [= <-]. cbn [metrics ctx_] in *.
    split; [by apply Hm|].
    intros reg w req. apply nil_metrics_panics. by apply Hm.
Qed.

(** The theorem at a forwarder built with two options and a plain request,
    and at one built with an option and a setter that does nothing. *)
Lemma serve_without_Meters_panics_witness :
  (exists f,
     New transport_down dial_down (inl "host") rewriter_id
         [PassHostHeader true; StreamResponse true] = (Some f, None) /\
     fst (handle ToLowerASCII TrimSpaceASCII mediaType_first 0 f ∅
            (mkResponseWriter None) req_plain) = Panic nil_dereference) /\
  (exists f,
     New transport_down dial_down (inl "host") rewriter_id
         [setter_idle; WebsocketRewriter None] = (Some f, None) /\
     fst (handle ToLowerASCII TrimSpaceASCII mediaType_first 0 f ∅
            (mkResponseWriter None) req_ws) = Panic nil_dereference).
Proof.
  split.
  - destruct (serve_without_Meters_panics ToLowerASCII TrimSpaceASCII transport_down
                dial_down (inl "host") rewriter_id mediaType_first 0
                [PassHostHeader true; StreamResponse true])
      as [H _].
    destruct H as (f & Hf & _ & Hserve); [repeat constructor|].
    exists f. split; [exact Hf|].
    destruct (Hserve ∅ (mkResponseWriter None) req_plain) as (_ & _ & ->). reflexivity.
  - destruct (serve_without_Meters_panics ToLowerASCII TrimSpaceASCII transport_down
                dial_down (inl "host") rewriter_id mediaType_first 0
                [setter_idle; WebsocketRewriter None])
      as [_ H].
    eexists. split; [reflexivity|].
    destruct (H ltac:(repeat constructor; intros f; reflexivity) _ eq_refl) as [_ Hserve].
    destruct (Hserve ∅ (mkResponseWriter None) req_ws) as (_ & _ & ->). reflexivity.
Defined.

(** ** What [New] builds *)

Lemma applySetters_error setters : forall f err,
  snd (applySetters setters f) = Some err ->
  exists pre s post,
    setters = pre ++ s :: post /\
    snd (applySetters pre f) = None /\
    snd (s (fst (applySetters pre f))) = Some err.
Proof.
  induction setters as [|a setters IH]; intros f err H; [done|].
  cbn [applySetters] in H. destruct (a f) as [f' [e|]] eqn:E.
  - cbn in H. injection H as ->. exists [], a, setters.
    split; [done|]. split; [done|]. cbn. by rewrite E.
  - destruct (IH f' err H) as (pre & s & post & -> & H1 & H2).
    exists (a :: pre), s, post. split; [done|]. cbn [applySetters]. by rewrite E.
Qed.

Lemma applySetters_app l1 l2 : forall f,
  snd (applySetters l1 f) = None ->
  applySetters (l1 ++ l2) f = applySetters l2 (fst (applySetters l1 f)).
Proof.
  induction l1 as [|a l1 IH]; intros f H; [done|].
  cbn [app applySetters] in *. destruct (a f) as [f' [e|]]; [done|]. by apply IH.
Qed.

Lemma applySetters_package setters : forall f,
  Forall packageOption setters ->
  snd (applySetters setters f) = None /\
  (metrics (ctx_ (fst (applySetters setters f))) = None ->
   metrics (ctx_ f) = None /\ withoutMeters setters).
Proof.
  induction setters as [|s setters IH]; intros f H.
  { split; [done|]. intros Hm. split; [done|constructor]. }
  apply Forall_cons in H as [Hs H]. cbn [applySetters].
  destruct Hs as [tags|s Hs].
  - cbn. destruct (IH (fst (Meters tags f)) H) as [He Hm]. split; [exact He|].
    intros Hn. by destruct (Hm Hn) as [? _].
  - destruct (otherOption_keeps s Hs) as [Hk He]. specialize (Hk f). specialize (He f).
    destruct (s f) as [f' [e|]]; cbn [fst snd] in *; [done|].
    destruct (IH f' H) as [He' Hm]. split; [exact He'|].
    intros Hn. destruct (Hm Hn) as [H1 H2]. split; [congruence|by constructor].
Qed.

(** [New] returns a forwarder and no error, or no forwarder and the error
    of the first setter that fails.  A forwarder it returns has a round
    tripper, a dialer, an HTTP rewriter, a logger and an error handler,
    whatever the setters; its metrics context and its WebSocket rewriter
    are as the setters leave them, nil included.  The options of the
    package never fail; with them the metrics context is nil exactly when
    none is [Meters], the WebSocket rewriter is the one of a final
    [WebsocketRewriter], nil included, and a nil round tripper, dialer,
    rewriter, error handler or logger gives the default. *)
Theorem New_fills_collaborators
    (DefaultTransport : RoundTripper) (net_Dial : Dialer) (os_Hostname : string + error)
    (HeaderRewriter : bool -> string -> ReqRewriter) (setters : list optSetter) :
  ((exists f,
      New DefaultTransport net_Dial os_Hostname HeaderRewriter setters = (Some f, None) /\
      snd (applySetters setters emptyForwarder) = None /\
      roundTripper (http_ f) <> None /\ dial (websocket_ f) <> None /\
      rewriter (http_ f) <> None /\ log (ctx_ f) <> None /\ errHandler (ctx_ f) <> None /\
      metrics (ctx_ f) = metrics (ctx_ (fst (applySetters setters emptyForwarder))) /\
      ws_rewriter (websocket_ f)
      = ws_rewriter (websocket_ (fst (applySetters setters emptyForwarder))))
   \/
   (exists err pre s post,
      New DefaultTransport net_Dial os_Hostname HeaderRewriter setters = (None, Some err) /\
      setters = pre ++ s :: post /\
      snd (applySetters pre emptyForwarder) = None /\
      snd (s (fst (applySetters pre emptyForwarder))) = Some err)) /\
  (Forall packageOption setters ->
   (exists f,
      New DefaultTransport net_Dial os_Hostname HeaderRewriter setters = (Some f, None) /\
      (metrics (ctx_ f) = None <-> withoutMeters setters)) /\
   (forall r, exists f,
      New DefaultTransport net_Dial os_Hostname HeaderRewriter
          (setters ++ [WebsocketRewriter r]) = (Some f, None) /\
      ws_rewriter (websocket_ f) = r) /\
   (exists f,
      New DefaultTransport net_Dial os_Hostname HeaderRewriter
          (setters ++ [RoundTripper_ None; WebsocketDial None; Rewriter None;
                       ErrorHandler None; Logger None]) = (Some f, None) /\
      roundTripper (http_ f) = Some DefaultTransport /\
      dial (websocket_ f) = Some net_Dial /\
      rewriter (http_ f)
      = Some (HeaderRewriter true
                match os_Hostname with inl h => h | inr _ => "localhost" end) /\
      errHandler (ctx_ f) = Some DefaultHandler /\
      log (ctx_ f) = Some NullLogger)).
Proof.
  split.
  - unfold New. fold emptyForwarder.
    destruct (applySetters setters emptyForwarder) as [f [e|]] eqn:E.
    + right. destruct (applySetters_error setters emptyForwarder e) as (pre & s & post & H);
        [by rewrite E|].
      by exists e, pre, s, post.
    + left. eexists. split; [reflexivity|]. cbn.
      repeat split; by repeat case_match.
  - intros Hpkg. split; [|split].
    + unfold New. fold emptyForwarder.
      destruct (applySetters_package setters emptyForwarder Hpkg) as [He Hm].
      pose proof (applySetters_withoutMeters setters emptyForwarder) as Hw.
      destruct (applySetters setters emptyForwarder) as [f [e|]]; cbn [fst snd] in *; [done|].
      eexists. split; [reflexivity|]. cbn [metrics ctx_]. split.
      * intros Hn. by destruct (Hm Hn).
      * intros Hno. by destruct (Hw Hno) as [_ ->].
    + intros r. unfold New. fold emptyForwarder.
      destruct (applySetters_package setters emptyForwarder Hpkg) as [He _].
      rewrite (applySetters_app _ _ _ He). cbn. eexists. split; [reflexivity|]. done.
    + unfold New. fold emptyForwarder.
      destruct (applySetters_package setters emptyForwarder Hpkg) as [He _].
      rewrite (applySetters_app _ _ _ He). cbn. eexists. split; [reflexivity|].
      cbn. by destruct os_Hostname.
Qed.

(** The theorem at two options and a setter of the caller that refuses. *)
Lemma New_fills_collaborators_witness :
  New transport_down dial_down (inl "host") rewriter_id
      [PassHostHeader true; setter_refusing; Meters ∅] = (None, Some "refused") /\
  exists f,
    New transport_down dial_down (inl "host") rewriter_id
        [PassHostHeader true; Meters ∅] = (Some f, None) /\
    metrics (ctx_ f) <> None.
Proof.
  split; [reflexivity|].
  destruct (New_fills_collaborators transport_down dial_down (inl "host") rewriter_id
              [PassHostHeader true; Meters ∅]) as [_ H].
  destruct H as [(f & Hf & Hm) _]; [repeat constructor|].
  exists f. split; [exact Hf|]. cbn in Hf. injection Hf as <-. discriminate.
Defined.

(** ** Registration of the metrics *)

Lemma bind_Done {S A B} (m : Go S A) (k : A -> Go S B) w a w' :
  m w = (Done a, w') -> (m ≫= k) w = k a w'.
Proof. intros H. unfold mbind, Go_bind. by rewrite H. Qed.

Lemma sameKind_kindFor old new name :
  sameKind old (kindFor name) = true -> sameKind new (kindFor name) = true ->
  sameKind old new = true.
Proof. by destruct old, new, (kindFor name). Qed.

Lemma kinds_ok_insert reg name t new :
  kinds_ok reg -> sameKind new (kindFor name) = true ->
  kinds_ok (<[(name, t) := new]> reg).
Proof. intros H Hn. by apply map_Forall_insert_2. Qed.


Lemma extends_trans w1 w2 w3 : extends w1 w2 -> extends w2 w3 -> extends w1 w3.
Proof.
  intros [] []. split; try congruence. by etrans.
Qed.

(** One registration, on a registry of the right kinds: it returns, the
    field holds the key, the key is in the registry. *)
Lemma register_post f name t new w m :
  metrics (ctx_ (fwd w)) = Some m -> kinds_ok (registry w) ->
  sameKind new (kindFor name) = true ->
  exists w',
    register f name t new w = (Done tt, w') /\
    metrics (ctx_ (fwd w'))
    = Some {| tags := tags m; httpStarted := httpStarted m; wsStarted := wsStarted m;
              metricOf := fun g => if decide (g = f) then Some (name, t)
                                   else metricOf m g |} /\
    extends w w' /\ kinds_ok (registry w') /\ is_Some (registry w' !! (name, t)).
Proof.
  intros Hm Hk Hn. unfold register.
  destruct (registry w !! (name, t)) as [old|] eqn:E.
  - rewrite (sameKind_kindFor old new name) by (done || by apply (Hk _ _ E)).
    unfold setField, mbind, Go_bind, getMetrics, setMetrics. rewrite Hm.
    eexists. split; [reflexivity|]. split; [done|]. split; [by split|].
    split; [done|]. cbn [registry]. by rewrite E.
  - unfold setField, mbind, Go_bind, getMetrics, setMetrics. cbn [fwd ctx_ metrics]. rewrite Hm.
    eexists. split; [reflexivity|]. split; [done|].
    split; [split; try done; by apply insert_subseteq|].
    split; [by apply kinds_ok_insert|]. cbn [registry]. unfold TaggedRegistry. by rewrite lookup_insert_eq.
Qed.

Lemma is_Some_extends w w' k :
  extends w w' -> is_Some (registry w !! k) -> is_Some (registry w' !! k).
Proof. intros [] H. by eapply lookup_weaken_is_Some. Qed.

(** A step of an initialisation: the registration at the head of the
    goal returns, by [register_post]. *)
Ltac reg_step w' E M X K S :=
  lazymatch goal with
  | Hm : metrics (ctx_ (fwd ?w)) = Some ?m, Hk : kinds_ok (registry ?w)
    |- context [(register ?f ?name ?t ?new ≫= _) ?w] =>
      destruct (register_post f name t new w m Hm Hk eq_refl) as (w' & E & M & X & K & S);
      rewrite (bind_Done _ _ _ _ _ E); clear E;
      cbn [tags httpStarted wsStarted metricOf] in M; clear Hm Hk
  | Hm : metrics (ctx_ (fwd ?w)) = Some ?m, Hk : kinds_ok (registry ?w)
    |- context [register ?f ?name ?t ?new ?w] =>
      destruct (register_post f name t new w m Hm Hk eq_refl) as (w' & E & M & X & K & S);
      rewrite E; clear E;
      cbn [tags httpStarted wsStarted metricOf] in M; clear Hm Hk
  end.

Lemma wsInit_run w m :
  metrics (ctx_ (fwd w)) = Some m -> kinds_ok (registry w) -> wsStarted m = false ->
  exists w' m',
    wsInit w = (Done tt, w') /\ extends w w' /\ kinds_ok (registry w') /\
    metrics (ctx_ (fwd w')) = Some m' /\
    tags m' = tags m /\ httpStarted m' = httpStarted m /\ wsStarted m' = true /\
    (forall f, metricOf m' f
               = if isWs f then Some (fieldKey (tags m) f) else metricOf m f) /\
    (forall f, isWs f = true -> is_Some (registry w' !! fieldKey (tags m) f)).
Proof.
  intros Hm Hk Hs. unfold wsInit.
  rewrite (bind_Done _ _ w m w) by (unfold getMetrics; by rewrite Hm).
  rewrite Hs.
  set (m0 := {| tags := tags m; httpStarted := httpStarted m; wsStarted := true;
                metricOf := metricOf m |}).
  rewrite (bind_Done (setMetrics m0) _ w tt _ eq_refl).
  match goal with |- context [_ ?x = _] =>
    assert (Hm0 : metrics (ctx_ (fwd x)) = Some m0) by reflexivity;
    assert (Hk0 : kinds_ok (registry x)) by exact Hk;
    assert (X0 : extends w x) by (by split);
    generalize dependent x
  end.
  intros w0 Hm0 Hk0 X0.
  reg_step w1 E1 M1 X1 K1 S1. reg_step w2 E2 M2 X2 K2 S2.
  reg_step w3 E3 M3 X3 K3 S3. reg_step w4 E4 M4 X4 K4 S4.
  reg_step w5 E5 M5 X5 K5 S5.
  pose proof (extends_trans _ _ _ X4 X5) as Y4.
  pose proof (extends_trans _ _ _ X3 Y4) as Y3.
  pose proof (extends_trans _ _ _ X2 Y3) as Y2.
  pose proof (extends_trans _ _ _ X1 Y2) as Y1.
  pose proof (extends_trans _ _ _ X0 Y1) as Y0.
  apply (is_Some_extends _ _ _ Y2) in S1. apply (is_Some_extends _ _ _ Y3) in S2.
  apply (is_Some_extends _ _ _ Y4) in S3. apply (is_Some_extends _ _ _ X5) in S4.
  eexists w5, _. split; [reflexivity|].
  split; [exact Y0|]. split; [exact K5|]. split; [exact M5|].
  cbn [tags httpStarted wsStarted metricOf].
  split; [reflexivity|]. split; [reflexivity|]. split; [reflexivity|]. split.
  - intros f. destruct f; reflexivity.
  - intros f Hf. destruct f; try discriminate Hf; cbn [fieldKey]; assumption.
Qed.

Lemma httpInit_run w m :
  metrics (ctx_ (fwd w)) = Some m -> kinds_ok (registry w) -> httpStarted m = false ->
  exists w' m',
    httpInit w = (Done tt, w') /\ extends w w' /\ kinds_ok (registry w') /\
    metrics (ctx_ (fwd w')) = Some m' /\
    tags m' = tags m /\ httpStarted m' = true /\ wsStarted m' = wsStarted m /\
    (forall f, isHttp f = true -> metricOf m' f = Some (fieldKey (tags m) f)) /\
    (forall f, isWs f = true -> metricOf m' f = metricOf m f) /\
    (forall f, isHttp f = true -> is_Some (registry w' !! fieldKey (tags m) f)).
Proof.
  intros Hm Hk Hs. unfold httpInit.
  rewrite (bind_Done _ _ w m w) by (unfold getMetrics; by rewrite Hm).
  rewrite Hs.
  set (m0 := {| tags := tags m; httpStarted := true; wsStarted := wsStarted m;
                metricOf := metricOf m |}).
  rewrite (bind_Done (setMetrics m0) _ w tt _ eq_refl).
  match goal with |- context [_ ?x = _] =>
    assert (Hm0 : metrics (ctx_ (fwd x)) = Some m0) by reflexivity;
    assert (Hk0 : kinds_ok (registry x)) by exact Hk;
    assert (X0 : extends w x) by (by split);
    generalize dependent x
  end.
  intros w0 Hm0 Hk0 X0.
  reg_step w1 E1 M1 X1 K1 S1.
  reg_step w2 E2 M2 X2 K2 S2.
  reg_step w3 E3 M3 X3 K3 S3.
  reg_step w4 E4 M4 X4 K4 S4.
  reg_step w5 E5 M5 X5 K5 S5.
  reg_step w6 E6 M6 X6 K6 S6.
  reg_step w7 E7 M7 X7 K7 S7.
  reg_step w8 E8 M8 X8 K8 S8.
  reg_step w9 E9 M9 X9 K9 S9.
  reg_step w10 E10 M10 X10 K10 S10.
  reg_step w11 E11 M11 X11 K11 S11.
  pose proof X11 as Y10.
  pose proof (extends_trans _ _ _ X10 Y10) as Y9.
  pose proof (extends_trans _ _ _ X9 Y9) as Y8.
  pose proof (extends_trans _ _ _ X8 Y8) as Y7.
  pose proof (extends_trans _ _ _ X7 Y7) as Y6.
  pose proof (extends_trans _ _ _ X6 Y6) as Y5.
  pose proof (extends_trans _ _ _ X5 Y5) as Y4.
  pose proof (extends_trans _ _ _ X4 Y4) as Y3.
  pose proof (extends_trans _ _ _ X3 Y3) as Y2.
  pose proof (extends_trans _ _ _ X2 Y2) as Y1.
  pose proof (extends_trans _ _ _ X1 Y1) as Y0.
  pose proof (extends_trans _ _ _ X0 Y0) as Y.
  apply (is_Some_extends _ _ _ Y1) in S1.
  apply (is_Some_extends _ _ _ Y2) in S2.
  apply (is_Some_extends _ _ _ Y3) in S3.
  apply (is_Some_extends _ _ _ Y4) in S4.
  apply (is_Some_extends _ _ _ Y5) in S5.
  apply (is_Some_extends _ _ _ Y6) in S6.
  apply (is_Some_extends _ _ _ Y7) in S7.
  apply (is_Some_extends _ _ _ Y8) in S8.
  apply (is_Some_extends _ _ _ Y9) in S9.
  apply (is_Some_extends _ _ _ Y10) in S10.
  eexists w11, _. split; [reflexivity|].
  split; [exact Y|]. split; [exact K11|]. split; [exact M11|].
  cbn [tags httpStarted wsStarted metricOf].
  split; [reflexivity|]. split; [reflexivity|]. split; [reflexivity|]. split; [|split].
  - intros f Hf. destruct f; try discriminate Hf; reflexivity.
  - intros f Hf. destruct f; try discriminate Hf; reflexivity.
  - intros f Hf. destruct f; try discriminate Hf; cbn [fieldKey]; assumption.
Qed.

(** ** The keys of the metrics *)

Lemma lookup_tags_union (extra t : gmap string string) k :
  (extra ∪ t) !! k = match extra !! k with Some v => Some v | None => t !! k end.
Proof. rewrite lookup_union. by destruct (extra !! k), (t !! k). Qed.

(** The keys of two fields differ in the name, or in the tags at
    [direction], [conn_type] or [httpcode]. *)
Lemma fieldKey_inj t f g :
  f <> timeWindowedHttpResponseTime -> g <> timeWindowedHttpResponseTime ->
  fieldKey t f = fieldKey t g -> f = g.
Proof.
  intros Hf Hg H.
  pose proof (f_equal fst H) as Hn.
  pose proof (f_equal (fun x : metricKey => snd x !! "direction") H) as Hd.
  pose proof (f_equal (fun x : metricKey => snd x !! "conn_type") H) as Hc.
  pose proof (f_equal (fun x : metricKey => snd x !! "httpcode") H) as Hh.
  clear H.
  destruct f; try (exfalso; apply Hf; reflexivity);
    destruct g; try (exfalso; apply Hg; reflexivity); try reflexivity;
    exfalso; clear Hf Hg; cbn [fieldKey fst snd] in Hn, Hd, Hc, Hh;
    try discriminate Hn; clear Hn;
    unfold AddTags, Tags in Hd, Hc, Hh;
    rewrite ?lookup_tags_union, ?lookup_singleton in Hd, Hc, Hh;
    repeat (case_decide; simplify_eq).
Qed.

(** ** The two initialisations *)

Lemma wsInit_started w m :
  metrics (ctx_ (fwd w)) = Some m -> wsStarted m = true -> wsInit w = (Done tt, w).
Proof.
  intros Hm Hs. unfold wsInit.
  rewrite (bind_Done _ _ w m w) by (unfold getMetrics; by rewrite Hm).
  by rewrite Hs.
Qed.

Lemma httpInit_started w m :
  metrics (ctx_ (fwd w)) = Some m -> httpStarted m = true -> httpInit w = (Done tt, w).
Proof.
  intros Hm Hs. unfold httpInit.
  rewrite (bind_Done _ _ w m w) by (unfold getMetrics; by rewrite Hm).
  by rewrite Hs.
Qed.

(** [wsInit] on a registry whose metrics have the kinds of their names (a
    new registry, or one filled by this package): it returns, and a second
    call changes nothing.  The first call on a context marks it started,
    sets the five WebSocket fields to the metrics of their keys, which are
    in the registry from then on, and leaves the other fields, the tags,
    the collaborators and the metrics registered before as they were. *)
Theorem wsInit_registers (w : world) (m : metricsContext) :
  metrics (ctx_ (fwd w)) = Some m -> kinds_ok (registry w) ->
  exists w' m',
    wsInit w = (Done tt, w') /\ wsInit w' = (Done tt, w') /\
    extends w w' /\ kinds_ok (registry w') /\
    metrics (ctx_ (fwd w')) = Some m' /\
    tags m' = tags m /\ httpStarted m' = httpStarted m /\ wsStarted m' = true /\
    (wsStarted m = true -> w' = w) /\
    (wsStarted m = false ->
     (forall f, metricOf m' f
                = if isWs f then Some (fieldKey (tags m) f) else metricOf m f) /\
     (forall f, isWs f = true -> is_Some (registry w' !! fieldKey (tags m) f))).
Proof.
  intros Hm Hk. destruct (wsStarted m) eqn:Hs.
  - exists w, m. rewrite (wsInit_started w m Hm Hs).
    repeat split; done.
  - destruct (wsInit_run w m Hm Hk Hs) as (w' & m' & E & X & K & M & T & H1 & H2 & H3 & H4).
    exists w', m'. rewrite (wsInit_started w' m' M H2).
    repeat split; try done; auto; apply X.
Qed.

Lemma wsInit_registers_witness :
  exists w', wsInit world_metered = (Done tt, w') /\ wsInit w' = (Done tt, w').
Proof.
  destruct (wsInit_registers world_metered (NewMetricsContext ∅) eq_refl
              (map_Forall_empty _)) as (w' & m' & H1 & H2 & _).
  exists w'. by split.
Defined.

(** [httpInit] likewise, for the ten HTTP fields that the source sets; the
    WebSocket fields are left as they were. *)
Theorem httpInit_registers (w : world) (m : metricsContext) :
  metrics (ctx_ (fwd w)) = Some m -> kinds_ok (registry w) ->
  exists w' m',
    httpInit w = (Done tt, w') /\ httpInit w' = (Done tt, w') /\
    extends w w' /\ kinds_ok (registry w') /\
    metrics (ctx_ (fwd w')) = Some m' /\
    tags m' = tags m /\ httpStarted m' = true /\ wsStarted m' = wsStarted m /\
    (httpStarted m = true -> w' = w) /\
    (forall f, isWs f = true -> metricOf m' f = metricOf m f) /\
    (httpStarted m = false ->
     (forall f, isHttp f = true -> metricOf m' f = Some (fieldKey (tags m) f)) /\
     (forall f, isHttp f = true -> is_Some (registry w' !! fieldKey (tags m) f))).
Proof.
  intros Hm Hk. destruct (httpStarted m) eqn:Hs.
  - exists w, m. rewrite (httpInit_started w m Hm Hs).
    repeat split; done.
  - destruct (httpInit_run w m Hm Hk Hs)
      as (w' & m' & E & X & K & M & T & H1 & H2 & H3 & H4 & H5).
    exists w', m'. rewrite (httpInit_started w' m' M H1).
    repeat split; try done; auto; apply X.
Qed.

Lemma httpInit_registers_witness :
  exists w', httpInit world_metered = (Done tt, w') /\ httpInit w' = (Done tt, w').
Proof.
  destruct (httpInit_registers world_metered (NewMetricsContext ∅) eq_refl
              (map_Forall_empty _)) as (w' & m' & H1 & H2 & _).
  exists w'. by split.
Defined.

(** After [httpInit] and [wsInit] on a new context, the fifteen fields
    hold fifteen different metrics; and the five response counters are
    those of the tag [httpcode] alone, whatever the tags of the context. *)
Theorem fields_hold_distinct_metrics (w : world) (m : metricsContext) :
  metrics (ctx_ (fwd w)) = Some m -> kinds_ok (registry w) ->
  httpStarted m = false -> wsStarted m = false ->
  exists w1 w2 m2,
    httpInit w = (Done tt, w1) /\ wsInit w1 = (Done tt, w2) /\
    metrics (ctx_ (fwd w2)) = Some m2 /\
    (forall f, isHttp f || isWs f = true ->
       metricOf m2 f = Some (fieldKey (tags m) f) /\
       is_Some (registry w2 !! fieldKey (tags m) f)) /\
    (forall f g, isHttp f || isWs f = true -> isHttp g || isWs g = true ->
       f <> g -> metricOf m2 f <> metricOf m2 g) /\
    (forall f, f ∈ [httpReturnCode100; httpReturnCode200; httpReturnCode300;
                    httpReturnCode400; httpReturnCode500] ->
       metricOf m2 f = Some (fieldKey ∅ f)).
Proof.
  intros Hm Hk Hh Hs.
  destruct (httpInit_run w m Hm Hk Hh)
    as (w1 & m1 & E1 & X1 & K1 & M1 & T1 & H1 & H2 & H3 & H4 & H5).
  assert (Hs1 : wsStarted m1 = false) by congruence.
  destruct (wsInit_run w1 m1 M1 K1 Hs1)
    as (w2 & m2 & E2 & X2 & K2 & M2 & T2 & G1 & G2 & G3 & G4).
  exists w1, w2, m2. split; [done|]. split; [done|]. split; [done|].
  assert (Hkey : forall f, isHttp f || isWs f = true ->
            metricOf m2 f = Some (fieldKey (tags m) f) /\
            is_Some (registry w2 !! fieldKey (tags m) f)).
  { intros f Hf. rewrite G3. destruct (isWs f) eqn:Ef.
    - rewrite T1. split; [done|]. rewrite <- T1. by apply G4.
    - rewrite orb_false_r in Hf. split; [by apply H3|].
      apply (is_Some_extends w1 w2); [done|by apply H5]. }
  assert (Hnt : forall f, isHttp f || isWs f = true -> f <> timeWindowedHttpResponseTime)
    by (intros f Hf ->; discriminate Hf).
  assert (Hrc : forall f, f ∈ [httpReturnCode100; httpReturnCode200; httpReturnCode300;
                               httpReturnCode400; httpReturnCode500] ->
            isHttp f || isWs f = true /\ fieldKey (tags m) f = fieldKey ∅ f).
  { intros f Hf.
    repeat (apply elem_of_cons in Hf as [->|Hf]; [split; reflexivity|]). inversion Hf. }
  split; [exact Hkey|]. split.
  - intros f g Hf Hg Hne Heq.
    destruct (Hkey f Hf) as [Kf _], (Hkey g Hg) as [Kg _].
    rewrite Kf, Kg in Heq. apply Hne.
    apply (fieldKey_inj (tags m)); [by apply Hnt|by apply Hnt|].
    congruence.
  - intros f Hf. destruct (Hrc f Hf) as [Hc <-]. by destruct (Hkey f Hc).
Qed.

Lemma fields_hold_distinct_metrics_witness :
  exists w1 w2 m2,
    httpInit world_metered = (Done tt, w1) /\ wsInit w1 = (Done tt, w2) /\
    metrics (ctx_ (fwd w2)) = Some m2 /\
    metricOf m2 httpConnectionOpen <> metricOf m2 wsConnectionOpen.
Proof.
  destruct (fields_hold_distinct_metrics world_metered (NewMetricsContext ∅) eq_refl
              (map_Forall_empty _) eq_refl eq_refl)
    as (w1 & w2 & m2 & H1 & H2 & H3 & _ & H4 & _).
  exists w1, w2, m2. split; [exact H1|]. split; [exact H2|]. split; [exact H3|].
  apply H4; [reflexivity|reflexivity|discriminate].
Defined.

(** ** Serving with metrics *)














End forward_spec.
